(** * AMTD scan manager: result parser, engine client and scan executor

    A shallow embedding of [src/scan_manager/scan_result_parser.py],
    [src/scan_manager/zap_scanner.py] and [src/scan_manager/scan_executor.py],
    followed by the properties of the scan orchestration that are proved
    about it.

    Python dictionaries are finite maps, exceptions are values of an error
    monad, and everything the executor does to the outside world (Docker,
    HTTP, the clock, the log file) goes through an explicit environment. *)

From Stdlib Require Import ZArith String Ascii.
From Stdlib Require Floats.
From stdpp Require Import base decidable countable strings list gmap pretty.

#[local] Open Scope string_scope.
#[local] Open Scope Z_scope.

(** ** Python values *)

Module Py.

(** The JSON scalars an engine record can hold in the fields the parser
    reads.  Floating point numbers and nested containers are outside the
    model. *)
Inductive Scalar : Type :=
| PNone
| PBool (b : bool)
| PInt (z : Z)
| PStr (s : string).

#[global] Instance Scalar_eq_dec : EqDecision Scalar.
Proof. solve_decision. Defined.

Definition Scalar_to_sum (v : Scalar) : unit + bool + Z + string :=
  match v with
  | PNone => inl (inl (inl tt))
  | PBool b => inl (inl (inr b))
  | PInt z => inl (inr z)
  | PStr s => inr s
  end.

Definition Scalar_of_sum (x : unit + bool + Z + string) : Scalar :=
  match x with
  | inl (inl (inl _)) => PNone
  | inl (inl (inr b)) => PBool b
  | inl (inr z) => PInt z
  | inr s => PStr s
  end.

#[global] Instance Scalar_countable : Countable Scalar.
Proof.
  apply (inj_countable' Scalar_to_sum Scalar_of_sum).
  by intros [].
Defined.

(** Exceptions: the class decides which [except] clause catches it, the
    message is what [str(e)] gives. All classes derive from [Exception]. *)
Inductive ExnClass : Type :=
| Exception
| TimeoutError
| ValueError
| TypeError
| AttributeError
| KeyError
| OSError
| RequestException
| DockerNotFound
| DockerException.

#[global] Instance ExnClass_eq_dec : EqDecision ExnClass.
Proof. solve_decision. Defined.

Record Exn : Type := mkExn { exn_class : ExnClass; exn_msg : string }.

#[global] Instance Exn_eq_dec : EqDecision Exn.
Proof. solve_decision. Defined.

(** Result of a pure computation that may raise. *)
Inductive Res (A : Type) : Type :=
| Ok (a : A)
| Raise (e : Exn).
Arguments Ok {A} a.
Arguments Raise {A} e.

#[global] Instance Res_ret : MRet Res := fun _ a => Ok a.
#[global] Instance Res_bind : MBind Res := fun _ _ f r =>
  match r with
  | Ok a => f a
  | Raise e => Raise e
  end.

Definition is_ok {A} (r : Res A) : bool :=
  match r with Ok _ => true | Raise _ => false end.

(** [str(v)] *)
Definition py_str (v : Scalar) : string :=
  match v with
  | PNone => "None"
  | PBool true => "True"
  | PBool false => "False"
  | PInt z => pretty z
  | PStr s => s
  end.

(** [bool(v)], the test of [if v:] *)
Definition py_truthy (v : Scalar) : bool :=
  match v with
  | PNone => false
  | PBool b => b
  | PInt z => negb (z =? 0)
  | PStr s => negb (String.eqb s "")
  end.

(** Whitespace that [int()] strips (the ASCII part of [str.isspace]). *)
Definition is_space (c : ascii) : bool :=
  let n := nat_of_ascii c in
  ((n =? 32) || ((9 <=? n) && (n <=? 13)) || ((28 <=? n) && (n <=? 31)))%nat.

Definition digit_val (c : ascii) : option Z :=
  let n := nat_of_ascii c in
  if ((48 <=? n) && (n <=? 57))%nat then Some (Z.of_nat (n - 48)) else None.

Fixpoint lstrip (l : list ascii) : list ascii :=
  match l with
  | c :: l' => if is_space c then lstrip l' else l
  | [] => []
  end.

Definition strip (l : list ascii) : list ascii :=
  rev (lstrip (rev (lstrip l))).

(** Decimal digits, single underscores allowed between digits. *)
Fixpoint parse_digits (acc : Z) (after_digit : bool) (l : list ascii) : option Z :=
  match l with
  | [] => if after_digit then Some acc else None
  | c :: l' =>
      match digit_val c with
      | Some d => parse_digits (10 * acc + d) true l'
      | None =>
          if Ascii.eqb c "_" && after_digit
          then parse_digits acc false l'
          else None
      end
  end.

(** [int(s)] for a string, base 10, ASCII digits. *)
Definition int_of_string (s : string) : option Z :=
  match strip (list_ascii_of_string s) with
  | "+"%char :: l => parse_digits 0 false l
  | "-"%char :: l => Z.opp <$> parse_digits 0 false l
  | l => parse_digits 0 false l
  end.

(** [int(v)] *)
Definition py_int (v : Scalar) : Res Z :=
  match v with
  | PNone =>
      Raise (mkExn TypeError
        "int() argument must be a string, a bytes-like object or a real number, not 'NoneType'")
  | PBool b => Ok (Z.b2z b)
  | PInt z => Ok z
  | PStr s =>
      match int_of_string s with
      | Some z => Ok z
      | None =>
          Raise (mkExn ValueError
            ("invalid literal for int() with base 10: '" ++ s ++ "'"))
      end
  end.

(** Python compares and hashes [True] as [1] and [False] as [0]; a value
    used as a dictionary key or set element is represented by [dict_key]. *)
Definition dict_key (v : Scalar) : Scalar :=
  match v with
  | PBool b => PInt (Z.b2z b)
  | _ => v
  end.

(** [a == b] *)
Definition py_eq (a b : Scalar) : bool :=
  bool_decide (dict_key a = dict_key b).

(** [v in l] for a list of string literals *)
Definition py_in_strs (v : Scalar) (l : list string) : bool :=
  existsb (fun s => py_eq v (PStr s)) l.

(** [d.get(k, dflt)] *)
Definition dict_get {V} (d : gmap string V) (k : string) (dflt : V) : V :=
  default dflt (d !! k).

(** [s.lower()], ASCII letters *)
Definition lower_ascii (c : ascii) : ascii :=
  let n := nat_of_ascii c in
  if ((65 <=? n) && (n <=? 90))%nat then ascii_of_nat (n + 32) else c.

Fixpoint lower (s : string) : string :=
  match s with
  | EmptyString => EmptyString
  | String c s' => String (lower_ascii c) (lower s')
  end.

(** [k in s] for strings *)
Fixpoint is_substring (k s : string) : bool :=
  String.prefix k s ||
  match s with
  | EmptyString => false
  | String _ s' => is_substring k s'
  end.

(** [l.index(x)], [None] when [x not in l] *)
Fixpoint index_of (x : string) (l : list string) : option nat :=
  match l with
  | [] => None
  | y :: l' => if String.eqb x y then Some 0%nat else S <$> index_of x l'
  end.

End Py.
Export Py.

(** ** scan_result_parser.py *)

Module ScanResultParser.

(** A raw alert is what iterating over the engine's alert array yields: a
    JSON object, or something that is not one (no [.get] method). *)
Inductive PyObj : Type :=
| ODict (d : gmap string Scalar)
| OScalar (v : Scalar).

Definition SEVERITY_MAP : gmap string string :=
  list_to_map
    [("0", "info"); ("1", "low"); ("2", "medium"); ("3", "high"); ("4", "critical")].

Definition CONFIDENCE_MAP : gmap string string :=
  list_to_map
    [("0", "false_positive"); ("1", "low"); ("2", "medium"); ("3", "high");
     ("4", "confirmed")].

(** [self.SEVERITY_MAP.get(str(risk), 'info')] *)
Definition severity_of (risk : Scalar) : string :=
  dict_get SEVERITY_MAP (py_str risk) "info".

(** [self.CONFIDENCE_MAP.get(str(confidence_level), 'low')] *)
Definition confidence_of (confidence_level : Scalar) : string :=
  dict_get CONFIDENCE_MAP (py_str confidence_level) "low".

Definition no_attribute (v : Scalar) (attr : string) : Exn :=
  mkExn AttributeError ("object has no attribute '" ++ attr ++ "'").

Definition _extract_cwe (alert : gmap string Scalar) : Res string :=
  let cwe_id := dict_get alert "cweid" (PStr "") in
  if py_truthy cwe_id then
    match cwe_id with
    | PStr s => if String.prefix "CWE-" s then Ok s else Ok ("CWE-" ++ s)
    | v => Raise (no_attribute v "startswith")
    end
  else Ok "".

(** The keyword table, in the order the dictionary literal lists it. *)
Definition owasp_mappings : list (string * string) :=
  [ ("injection", "A03:2021 - Injection");
    ("sql injection", "A03:2021 - Injection");
    ("xss", "A03:2021 - Injection");
    ("cross site scripting", "A03:2021 - Injection");
    ("authentication", "A07:2021 - Identification and Authentication Failures");
    ("session", "A07:2021 - Identification and Authentication Failures");
    ("authorization", "A01:2021 - Broken Access Control");
    ("access control", "A01:2021 - Broken Access Control");
    ("sensitive data", "A02:2021 - Cryptographic Failures");
    ("encryption", "A02:2021 - Cryptographic Failures");
    ("xxe", "A05:2021 - Security Misconfiguration");
    ("misconfiguration", "A05:2021 - Security Misconfiguration");
    ("vulnerable component", "A06:2021 - Vulnerable and Outdated Components");
    ("outdated", "A06:2021 - Vulnerable and Outdated Components");
    ("logging", "A09:2021 - Security Logging and Monitoring Failures");
    ("monitoring", "A09:2021 - Security Logging and Monitoring Failures");
    ("ssrf", "A10:2021 - Server-Side Request Forgery");
    ("csrf", "A01:2021 - Broken Access Control") ].

Definition _map_owasp_category (alert : gmap string Scalar) : Res string :=
  match dict_get alert "name" (PStr "") with
  | PStr s =>
      let name := lower s in
      match find (fun kc => is_substring (fst kc) name) owasp_mappings with
      | Some kc => Ok (snd kc)
      | None => Ok "Unknown"
      end
  | v => Raise (no_attribute v "lower")
  end.

(** The dictionary literal is evaluated top to bottom, so the first failing
    conversion decides which exception leaves [_parse_alert]. *)
Definition _parse_alert (alert : PyObj) : Res (gmap string Scalar) :=
  match alert with
  | OScalar v => Raise (no_attribute v "get")
  | ODict alert =>
      let risk := dict_get alert "risk" (PStr "0") in
      let severity := severity_of risk in
      let confidence_level := dict_get alert "confidence" (PStr "0") in
      let confidence := confidence_of confidence_level in
      risk_code ← py_int risk;
      confidence_code ← py_int confidence_level;
      cwe_id ← _extract_cwe alert;
      owasp_category ← _map_owasp_category alert;
      Ok (list_to_map
        [ ("name", dict_get alert "name" (PStr "Unknown Vulnerability"));
          ("type", dict_get alert "alert" (dict_get alert "name" (PStr "Unknown")));
          ("severity", PStr severity);
          ("confidence", PStr confidence);
          ("risk_code", PInt risk_code);
          ("confidence_code", PInt confidence_code);
          ("cwe_id", PStr cwe_id);
          ("owasp_category", PStr owasp_category);
          ("url", dict_get alert "url" (PStr ""));
          ("method", dict_get alert "method" (PStr ""));
          ("parameter", dict_get alert "param" (PStr ""));
          ("attack", dict_get alert "attack" (PStr ""));
          ("evidence", dict_get alert "evidence" (PStr ""));
          ("other_info", dict_get alert "other" (PStr ""));
          ("description", dict_get alert "description" (PStr ""));
          ("solution", dict_get alert "solution" (PStr ""));
          ("reference", dict_get alert "reference" (PStr ""));
          ("plugin_id", dict_get alert "pluginId" (PStr ""));
          ("alert_ref", dict_get alert "alertRef" (PStr ""));
          ("message_id", dict_get alert "messageId" (PStr ""));
          ("input_vector", dict_get alert "inputVector" (PStr ""));
          ("status", PStr "new") ])
  end.

(** The value [parse_alerts] returns: the findings in input order and the
    statistics dictionary (keys are hashed Python values). *)
Record Parsed : Type := mkParsed {
  vulnerabilities : list (gmap string Scalar);
  statistics : gmap Scalar Z
}.

#[global] Instance Parsed_eq_dec : EqDecision Parsed.
Proof. solve_decision. Defined.

Definition initial_statistics : gmap Scalar Z :=
  list_to_map
    [ (PStr "critical", 0); (PStr "high", 0); (PStr "medium", 0);
      (PStr "low", 0); (PStr "info", 0); (PStr "total", 0) ].

(** One iteration of the [for alert in alerts] loop.  An exception anywhere
    in the [try] block leaves the loop state as it was at that point. *)
Definition parse_step (acc : Parsed) (alert : PyObj) : Parsed :=
  match _parse_alert alert with
  | Raise _ => acc
  | Ok vuln =>
      let vulns := (vulnerabilities acc ++ [vuln])%list in
      let severity := dict_key (dict_get vuln "severity" (PStr "info")) in
      let stats := <[severity := default 0 (statistics acc !! severity) + 1]> (statistics acc) in
      match stats !! PStr "total" with
      | Some total => mkParsed vulns (<[PStr "total" := total + 1]> stats)
      | None => mkParsed vulns stats
      end
  end.

Definition parse_alerts (alerts : list PyObj) : Parsed :=
  foldl parse_step (mkParsed [] initial_statistics) alerts.

(** [statistics[k]] for a string key, 0 standing for an absent key. *)
Definition stat (p : Parsed) (k : string) : Z :=
  default 0 (statistics p !! PStr k).

Definition confidence_order : list string :=
  ["low"; "medium"; "high"; "confirmed"].

(** [index_of] is [None] exactly when [min_confidence not in
    confidence_order], which is the early return of the source. *)
Definition filter_by_confidence
    (vulnerabilities : list (gmap string Scalar)) (min_confidence : string)
    : list (gmap string Scalar) :=
  match index_of min_confidence confidence_order with
  | None => vulnerabilities
  | Some min_index =>
      List.filter
        (fun vuln =>
           py_in_strs (dict_get vuln "confidence" (PStr "low"))
                      (drop min_index confidence_order))
        vulnerabilities
  end.

(** The key tuple [(type, url, parameter)] as the [seen] set stores it. *)
Definition dedup_key (vuln : gmap string Scalar) : Scalar * Scalar * Scalar :=
  (dict_key (dict_get vuln "type" (PStr "")),
   dict_key (dict_get vuln "url" (PStr "")),
   dict_key (dict_get vuln "parameter" (PStr ""))).

Fixpoint dedup_loop (seen : gset (Scalar * Scalar * Scalar))
    (unique : list (gmap string Scalar)) (vulnerabilities : list (gmap string Scalar))
    : list (gmap string Scalar) :=
  match vulnerabilities with
  | [] => unique
  | vuln :: rest =>
      let key := dedup_key vuln in
      if decide (key ∈ seen)
      then dedup_loop seen unique rest
      else dedup_loop ({[key]} ∪ seen) (unique ++ [vuln])%list rest
  end.

Definition deduplicate (vulnerabilities : list (gmap string Scalar))
    : list (gmap string Scalar) :=
  dedup_loop ∅ [] vulnerabilities.

End ScanResultParser.
Export ScanResultParser.

(** ** The outside world and the monad of the scanner code *)

Module Runtime.

(** A member of an engine response object: a scalar, or an array (of
    alert records). *)
Inductive JVal : Type :=
| JS (v : Scalar)
| JArr (l : list PyObj).

(** What [requests.get] does: it raises, or it returns a response with a
    status code, a text and the outcome of [response.json()]. *)
Inductive HttpReply : Type :=
| HttpFail (e : Exn)
| HttpResp (status_code : Z) (text : string) (json : Res (gmap string JVal)).

(** The environment answers the [n]-th external call of a run; [None] from
    a Docker or file operation means it succeeded.  [env_latency n] is the
    number of seconds the call takes on the wall clock. *)
Record Env : Type := mkEnv {
  env_latency : nat -> nat;
  env_from_env : nat -> option Exn;
  env_containers_get : nat -> option Exn;
  env_remove : nat -> option Exn;
  env_containers_run : nat -> Res string;
  env_stop : nat -> option Exn;
  env_logs : nat -> Res string;
  env_write : nat -> option Exn;
  env_http : nat -> HttpReply
}.

Inductive Op : Type :=
| DockerFromEnv
| ContainersGet (name : string)
| ContainerRemove (force : bool)
| ContainersRun (name : string)
| ContainerStop
| ContainerLogs
| WriteLogFile
| HttpProbe
| HttpApi (endpoint : string).

(** The WARNING and ERROR records the code logs, with their arguments.
    INFO and DEBUG records are not traced. *)
Inductive LogMsg : Type :=
| FailedToStartContainer (e : Exn)
| SpiderTimedOut (scan_id : JVal)
| ActiveScanTimedOut (scan_id : JVal)
| ErrorDuringShutdown (e : Exn)
| ErrorStoppingContainer (e : Exn)
| ErrorGettingProgress (e : Exn)
| ErrorGettingLogs (e : Exn)
| ScanExecutionFailed (e : Exn)
| SpiderDidNotComplete
| PassiveScanTimeout
| ActiveScanDidNotComplete
| ErrorSavingLogs (e : Exn)
| ErrorStoppingScanner (e : Exn).

Inductive Level : Type := WARNING | ERROR.

(** The trace of a run, newest event first. [EvCleanup] marks an entry into
    [ScanExecutor._cleanup]. *)
Inductive Event : Type :=
| EvOp (op : Op)
| EvSleep (seconds : Z)
| EvLog (lvl : Level) (msg : LogMsg)
| EvCleanup.

(** The fields of a [ZAPScanner] object that change. *)
Record ZAPScannerObj : Type := mkZAPScannerObj {
  container : option string;
  zap_url : option string
}.

(** [ScanExecutor.scan_results]; [None] is an absent key.  Time stamps are
    clock readings. *)
Record ScanResults : Type := mkScanResults {
  started_at : option Z;
  target_url : option string;
  scan_type : option string;
  spider_scan_id : option JVal;
  active_scan_id : option JVal;
  completed_at : option Z;
  duration : option Z;
  status : option string;
  error : option string;
  result_vulnerabilities : option (list (gmap string Scalar));
  result_statistics : option (gmap Scalar Z)
}.

Definition empty_results : ScanResults :=
  mkScanResults None None None None None None None None None None None.

Record State : Type := mkState {
  now : Z;
  tick : nat;
  trace : list Event;
  scanner : option ZAPScannerObj;
  scan_results : ScanResults
}.

Definition initial_state (t0 : Z) : State :=
  mkState t0 0 [] None empty_results.

(** [None] is a computation that ran out of fuel. *)
Definition M (A : Type) : Type := State -> option (Res A * State).

#[global] Instance M_ret : MRet M := fun _ a s => Some (Ok a, s).

#[global] Instance M_bind : MBind M := fun _ _ f m s =>
  match m s with
  | Some (Ok a, s') => f a s'
  | Some (Raise e, s') => Some (Raise e, s')
  | None => None
  end.

Definition raise {A} (e : Exn) : M A := fun s => Some (Raise e, s).

Definition lift_res {A} (r : Res A) : M A := fun s => Some (r, s).

(** [try: m except Exception as e: h e] *)
Definition try_except {A} (m : M A) (h : Exn -> M A) : M A := fun s =>
  match m s with
  | Some (Raise e, s') => h e s'
  | r => r
  end.

(** [try: m except cls: h] for one exception class *)
Definition try_except_class {A} (cls : ExnClass) (m : M A) (h : M A) : M A :=
  try_except m (fun e => if decide (exn_class e = cls) then h else raise e).

(** [try: m finally: f] *)
Definition try_finally {A} (m : M A) (f : M unit) : M A := fun s =>
  match m s with
  | Some (r, s') =>
      match f s' with
      | Some (Ok _, s'') => Some (r, s'')
      | Some (Raise e, s'') => Some (Raise e, s'')
      | None => None
      end
  | None => None
  end.

Definition emit (ev : Event) : M unit := fun s =>
  Some (Ok tt, mkState (now s) (tick s) (ev :: trace s) (scanner s) (scan_results s)).

Definition log (lvl : Level) (msg : LogMsg) : M unit := emit (EvLog lvl msg).

(** [time.time()] *)
Definition time_time : M Z := fun s => Some (Ok (now s), s).

(** [time.sleep(seconds)] *)
Definition sleep (seconds : Z) : M unit := fun s =>
  Some (Ok tt,
        mkState (now s + seconds) (tick s) (EvSleep seconds :: trace s)
                (scanner s) (scan_results s)).

Definition get_scanner : M (option ZAPScannerObj) := fun s => Some (Ok (scanner s), s).

Definition set_scanner (z : option ZAPScannerObj) : M unit := fun s =>
  Some (Ok tt, mkState (now s) (tick s) (trace s) z (scan_results s)).

Definition get_results : M ScanResults := fun s => Some (Ok (scan_results s), s).

Definition update_results (f : ScanResults -> ScanResults) : M unit := fun s =>
  Some (Ok tt, mkState (now s) (tick s) (trace s) (scanner s) (f (scan_results s))).

(** [while time.time() - start_time < timeout: body], where [body] yields
    [Some a] for [return a] and [None] at the end of an iteration. The
    result is [None] when the loop ends because the condition fails. *)
Fixpoint while_deadline {A} (fuel : nat) (start_time timeout : Z)
    (body : M (option A)) : M (option A) := fun s =>
  if now s - start_time <? timeout then
    match fuel with
    | O => None
    | S fuel' =>
        match body s with
        | Some (Ok None, s') => while_deadline fuel' start_time timeout body s'
        | r => r
        end
    end
  else Some (Ok None, s).

(** One iteration of a poll loop: an attempt that yields [Some a] leaves
    the function with [a]; otherwise the loop sleeps and goes round. *)
Definition iteration {A} (attempt : M (option A)) (interval : Z) : M (option A) :=
  r ← attempt;
  match r with
  | Some a => mret (Some a)
  | None => sleep interval;; mret None
  end.

(** [start_time = time.time()] followed by the poll loop.  An iteration
    takes at least a second, so [timeout] iterations are enough fuel. *)
Definition poll_until {A} (timeout : Z) (attempt : M (option A)) (interval : Z)
    : M (option A) :=
  start_time ← time_time;
  while_deadline (Z.to_nat timeout) start_time timeout (iteration attempt interval).

Section WithEnv.
Context (env : Env).

(** An external call: the environment's answer at the current position,
    the clock advanced by the call's latency. *)
Definition external {A} (op : Op) (reply : Env -> nat -> A) : M A := fun s =>
  Some (Ok (reply env (tick s)),
        mkState (now s + Z.of_nat (env_latency env (tick s))) (S (tick s))
                (EvOp op :: trace s) (scanner s) (scan_results s)).

(** An external call that returns nothing or raises. *)
Definition external_unit (op : Op) (reply : Env -> nat -> option Exn) : M unit :=
  r ← external op reply;
  match r with
  | None => mret tt
  | Some e => raise e
  end.

(** An external call that returns a value or raises. *)
Definition external_res {A} (op : Op) (reply : Env -> nat -> Res A) : M A :=
  r ← external op reply;
  lift_res r.

End WithEnv.

End Runtime.
Export Runtime.

(** ** zap_scanner.py *)

Module ZAPScanner.

Definition zap_port : Z := 8080.

(** What [_api_call] returns: the response text for an [/other/] endpoint,
    the decoded JSON object otherwise. *)
Inductive ApiResult : Type :=
| ApiText (text : string)
| ApiJson (body : gmap string JVal).

(** [response.get(key, dflt)] *)
Definition response_get (response : ApiResult) (key : string) (dflt : JVal) : Res JVal :=
  match response with
  | ApiJson body => Ok (dict_get body key dflt)
  | ApiText _ => Raise (mkExn AttributeError "'str' object has no attribute 'get'")
  end.

(** [int(x)] for a response member *)
Definition jval_int (x : JVal) : Res Z :=
  match x with
  | JS v => py_int v
  | JArr _ =>
      Raise (mkExn TypeError
        "int() argument must be a string, a bytes-like object or a real number, not 'list'")
  end.

(** [len(x)] for a response member, as far as it decides success *)
Definition jval_len (x : JVal) : Res nat :=
  match x with
  | JArr l => Ok (length l)
  | JS (PStr s) => Ok (String.length s)
  | JS _ => Raise (mkExn TypeError "object has no len()")
  end.

(** [response.raise_for_status()] *)
Definition raise_for_status (status_code : Z) : Res unit :=
  if (400 <=? status_code) && (status_code <? 600)
  then Raise (mkExn RequestException ("HTTP error " ++ pretty status_code))
  else Ok tt.

(** The progress dictionary of [get_scan_progress]. *)
Record Progress : Type := mkProgress {
  records_to_scan : Z;
  passive_scan_complete : bool
}.

Definition no_scanner {A} : M A :=
  raise (mkExn AttributeError "'NoneType' object has no attribute").

(** Reading and writing the fields of [self]. *)
Definition self_get {A} (f : ZAPScannerObj -> A) : M A :=
  z ← get_scanner;
  match z with
  | Some z => mret (f z)
  | None => no_scanner
  end.

Definition self_set (f : ZAPScannerObj -> ZAPScannerObj) : M unit :=
  z ← get_scanner;
  match z with
  | Some z => set_scanner (Some (f z))
  | None => no_scanner
  end.

Section Methods.
Context (env : Env).

(** [requests.get(...)] *)
Definition requests_get (op : Op) : M (Z * string * Res (gmap string JVal)) :=
  r ← external env op env_http;
  match r with
  | HttpFail e => raise e
  | HttpResp status_code text json => mret (status_code, text, json)
  end.

(** [ZAPScanner.__init__]: the only step that can fail is [docker.from_env()]. *)
Definition __init__ : M ZAPScannerObj :=
  external_unit env DockerFromEnv env_from_env;;
  mret (mkZAPScannerObj None None).

(** The [try] statement of the readiness loop: [Some tt] (return) when the
    version probe answered 200, [None] when it did not or the request
    raised a [RequestException]. *)
Definition probe_version : M (option unit) :=
  try_except_class RequestException
    ('(status_code, _, json) ← requests_get HttpProbe;
     if status_code =? 200 then
       _ ← lift_res json;
       mret (Some tt)
     else mret None)
    (mret None).

Definition _wait_for_zap (timeout : Z) : M unit :=
  r ← poll_until timeout probe_version 2;
  match r with
  | Some _ => mret tt
  | None =>
      raise (mkExn TimeoutError
        ("ZAP failed to start within " ++ pretty timeout ++ " seconds"))
  end.

Definition start_container (scan_id : string) : M string :=
  let container_name := "amtd-zap-" ++ scan_id in
  try_except
    (try_except_class DockerNotFound
       (external_unit env (ContainersGet container_name) env_containers_get;;
        external_unit env (ContainerRemove true) env_remove)
       (mret tt);;
     container_id ← external_res env (ContainersRun container_name) env_containers_run;
     self_set (fun z => mkZAPScannerObj (Some container_id) (zap_url z));;
     self_set (fun z => mkZAPScannerObj (container z)
                 (Some ("http://" ++ container_name ++ ":" ++ pretty zap_port)));;
     _wait_for_zap 120;;
     mret container_id)
    (fun e => log ERROR (FailedToStartContainer e);; raise e).

Definition _api_call (endpoint : string) : M ApiResult :=
  url ← self_get zap_url;
  if negb (py_truthy (from_option PStr PNone url)) then
    raise (mkExn Exception "ZAP container not started")
  else if is_substring "/other/" endpoint then
    '(_, text, _) ← requests_get (HttpApi endpoint);
    mret (ApiText text)
  else
    '(status_code, _, json) ← requests_get (HttpApi endpoint);
    lift_res (raise_for_status status_code);;
    body ← lift_res json;
    mret (ApiJson body).

Definition spider_scan (target_url : string) (max_depth max_children : Z) : M JVal :=
  _api_call "spider/action/setOptionMaxDepth/";;
  _api_call "spider/action/setOptionMaxChildren/";;
  response ← _api_call "spider/action/scan/";
  lift_res (response_get response "scan" (JS (PStr ""))).

Definition ajax_spider_scan (target_url : string) (max_duration : Z) : M JVal :=
  _api_call "ajaxSpider/action/setOptionMaxDuration/";;
  response ← _api_call "ajaxSpider/action/scan/";
  lift_res (response_get response "Result" (JS (PStr ""))).

Definition active_scan (target_url : string) : M JVal :=
  response ← _api_call "ascan/action/scan/";
  lift_res (response_get response "scan" (JS (PStr ""))).

(** The status poll of a wait loop: [Some true] (return) once the status
    is at least 100. *)
Definition poll_status (endpoint : string) : M (option bool) :=
  response ← _api_call endpoint;
  x ← lift_res (response_get response "status" (JS (PInt 0)));
  status ← lift_res (jval_int x);
  if status >=? 100 then mret (Some true) else mret None.

Definition wait_for_spider (scan_id : JVal) (timeout : Z) : M bool :=
  r ← poll_until timeout (poll_status "spider/view/status/") 5;
  match r with
  | Some b => mret b
  | None => log ERROR (SpiderTimedOut scan_id);; mret false
  end.

Definition wait_for_active_scan (scan_id : JVal) (timeout : Z) : M bool :=
  r ← poll_until timeout (poll_status "ascan/view/status/") 10;
  match r with
  | Some b => mret b
  | None => log ERROR (ActiveScanTimedOut scan_id);; mret false
  end.

Definition get_alerts (base_url : option string) : M JVal :=
  response ← _api_call "core/view/alerts/";
  alerts ← lift_res (response_get response "alerts" (JArr []));
  _ ← lift_res (jval_len alerts);
  mret alerts.

Definition shutdown : M unit :=
  try_except
    (_api_call "core/action/shutdown/";;
     sleep 5)
    (fun e => log WARNING (ErrorDuringShutdown e)).

Definition stop_container : M unit :=
  c ← self_get container;
  match c with
  | Some _ =>
      try_except
        (external_unit env ContainerStop env_stop;;
         external_unit env (ContainerRemove false) env_remove)
        (fun e =>
           log ERROR (ErrorStoppingContainer e);;
           try_except
             (external_unit env (ContainerRemove true) env_remove)
             (fun _ => mret tt))
  | None => mret tt
  end;;
  self_set (fun z => mkZAPScannerObj None (zap_url z));;
  self_set (fun z => mkZAPScannerObj (container z) None).

Definition get_scan_progress : M Progress :=
  try_except
    (response ← _api_call "pscan/view/recordsToScan/";
     x ← lift_res (response_get response "recordsToScan" (JS (PInt 0)));
     records_to_scan ← lift_res (jval_int x);
     mret (mkProgress records_to_scan (records_to_scan =? 0)))
    (fun e =>
       log ERROR (ErrorGettingProgress e);;
       mret (mkProgress 0 false)).

Definition get_container_logs : M string :=
  c ← self_get container;
  match c with
  | Some _ =>
      try_except
        (external_res env ContainerLogs env_logs)
        (fun e => log ERROR (ErrorGettingLogs e);; mret "")
  | None => mret ""
  end.

End Methods.

End ZAPScanner.
Export ZAPScanner.

(** ** scan_executor.py *)

Module ScanExecutor.

(** The parts of the configuration dictionary that [execute_scan] reads;
    [None] is an absent key, for which the code has a default. *)
Record Config : Type := mkConfig {
  cfg_url : option string;
  cfg_scan_type : option string;
  cfg_timeout : option Z;
  cfg_spider_enabled : option bool;
  cfg_spider_max_depth : option Z;
  cfg_spider_max_children : option Z;
  cfg_ajax_enabled : option bool;
  cfg_ajax_max_duration : option Z;
  cfg_active_enabled : option bool
}.

(** The elements that [for alert in alerts] iterates over. *)
Definition alerts_of (alerts : JVal) : list PyObj :=
  match alerts with
  | JArr l => l
  | JS (PStr s) => (fun c => OScalar (PStr (String c ""))) <$> list_ascii_of_string s
  | JS _ => []
  end.

Section Methods.
Context (env : Env) (scan_id : string) (config : Config).

(** A method call on [self.scanner]. *)
Definition on_scanner {A} (m : M A) : M A :=
  z ← get_scanner;
  match z with
  | Some _ => m
  | None => no_scanner
  end.

Definition _initialize_scanner : M unit :=
  z ← __init__ env;
  set_scanner (Some z);;
  on_scanner (start_container env scan_id);;
  mret tt.

Definition _run_spider_scan (target_url : string) : M unit :=
  let max_depth := default 5 (cfg_spider_max_depth config) in
  let max_children := default 10 (cfg_spider_max_children config) in
  spider_id ← on_scanner (spider_scan env target_url max_depth max_children);
  success ← on_scanner (wait_for_spider env spider_id 1800);
  (if negb success then log WARNING SpiderDidNotComplete else mret tt);;
  update_results (fun r =>
    mkScanResults (started_at r) (Runtime.target_url r) (scan_type r) (Some spider_id)
      (active_scan_id r) (completed_at r) (duration r) (status r) (error r)
      (result_vulnerabilities r) (result_statistics r)).

Definition _run_ajax_spider_scan (target_url : string) : M unit :=
  let max_duration := default 10 (cfg_ajax_max_duration config) in
  _ ← on_scanner (ajax_spider_scan env target_url max_duration);
  mret tt.

(** The poll of the passive wait: [Some tt] (return) when the progress
    record says the passive scan is complete. *)
Definition poll_passive : M (option unit) :=
  progress ← on_scanner (get_scan_progress env);
  if passive_scan_complete progress then mret (Some tt) else mret None.

Definition _wait_for_passive_scan (timeout : Z) : M unit :=
  r ← poll_until timeout poll_passive 5;
  match r with
  | Some _ => mret tt
  | None => log WARNING PassiveScanTimeout
  end.

Definition _run_active_scan (target_url : string) : M unit :=
  active_id ← on_scanner (active_scan env target_url);
  let timeout := default 7200 (cfg_timeout config) in
  success ← on_scanner (wait_for_active_scan env active_id timeout);
  (if negb success then log WARNING ActiveScanDidNotComplete else mret tt);;
  update_results (fun r =>
    mkScanResults (started_at r) (Runtime.target_url r) (scan_type r) (spider_scan_id r)
      (Some active_id) (completed_at r) (duration r) (status r) (error r)
      (result_vulnerabilities r) (result_statistics r)).

(** Saving the container log: fetch it, then write the file. *)
Definition save_logs : M unit :=
  _ ← on_scanner (get_container_logs env);
  external_unit env WriteLogFile env_write.

Definition _cleanup : M unit :=
  emit EvCleanup;;
  z ← get_scanner;
  match z with
  | Some _ =>
      try_except save_logs (fun e => log ERROR (ErrorSavingLogs e));;
      try_except
        (on_scanner (shutdown env);;
         on_scanner (stop_container env))
        (fun e => log ERROR (ErrorStoppingScanner e))
  | None => mret tt
  end.

(** The body of the [try] block of [execute_scan]. *)
Definition execute_scan_try : M ScanResults :=
  _initialize_scanner;;
  match cfg_url config with
  | None | Some "" =>
      raise (mkExn ValueError "Target URL not specified in configuration")
  | Some target_url =>
      start_time ← time_time;
      update_results (fun r =>
        mkScanResults (Some start_time) (Some target_url)
          (Some (default "full" (cfg_scan_type config)))
          (spider_scan_id r) (active_scan_id r) (completed_at r) (duration r)
          (status r) (error r) (result_vulnerabilities r) (result_statistics r));;
      (if default true (cfg_spider_enabled config)
       then _run_spider_scan target_url else mret tt);;
      (if default false (cfg_ajax_enabled config)
       then _run_ajax_spider_scan target_url else mret tt);;
      _wait_for_passive_scan 300;;
      (if default true (cfg_active_enabled config)
       then _run_active_scan target_url else mret tt);;
      alerts ← on_scanner (get_alerts env (Some target_url));
      let parsed_results := parse_alerts (alerts_of alerts) in
      end_time ← time_time;
      let duration := end_time - start_time in
      update_results (fun r =>
        mkScanResults (started_at r) (Runtime.target_url r) (scan_type r)
          (spider_scan_id r) (active_scan_id r) (Some end_time) (Some duration)
          (Some "completed") (error r)
          (Some (vulnerabilities parsed_results))
          (Some (statistics parsed_results)));;
      get_results
  end.

(** The [except Exception as e] clause of [execute_scan]. *)
Definition execute_scan_except (e : Exn) : M ScanResults :=
  log ERROR (ScanExecutionFailed e);;
  update_results (fun r =>
    mkScanResults (started_at r) (Runtime.target_url r) (scan_type r)
      (spider_scan_id r) (active_scan_id r) (completed_at r) (duration r)
      (Some "failed") (Some (exn_msg e))
      (result_vulnerabilities r) (result_statistics r));;
  raise e.

Definition execute_scan : M ScanResults :=
  try_finally
    (try_except execute_scan_try execute_scan_except)
    _cleanup.

End Methods.

(** [get_scan_results] *)
Definition get_scan_results (s : State) : ScanResults := scan_results s.

End ScanExecutor.
Export ScanExecutor.

(** ** Vocabulary of the properties *)

(** The five severity tiers. *)
Definition severities : list string :=
  ["critical"; "high"; "medium"; "low"; "info"].

(** The five confidence tiers. *)
Definition confidences : list string :=
  ["false_positive"; "low"; "medium"; "high"; "confirmed"].

(** The keys of the statistics dictionary. *)
Definition statistics_keys : gset Scalar :=
  list_to_set (PStr <$> ["critical"; "high"; "medium"; "low"; "info"; "total"]).

(** The loop invariant of [parse_alerts]: the six counters are present,
    the total is the sum of the other five and counts the findings. *)
Definition stats_ok (p : Parsed) : Prop :=
  ∃ c h m l i : Z,
    statistics p !! PStr "critical" = Some c ∧
    statistics p !! PStr "high" = Some h ∧
    statistics p !! PStr "medium" = Some m ∧
    statistics p !! PStr "low" = Some l ∧
    statistics p !! PStr "info" = Some i ∧
    statistics p !! PStr "total" = Some (c + h + m + l + i) ∧
    dom (statistics p) = statistics_keys ∧
    c + h + m + l + i = Z.of_nat (length (vulnerabilities p)).

(** The severity table as the specification words it: engine code 0 to 4,
    anything else is [info]. *)
Definition severity_table (code : string) : string :=
  if String.eqb code "0" then "info"
  else if String.eqb code "1" then "low"
  else if String.eqb code "2" then "medium"
  else if String.eqb code "3" then "high"
  else if String.eqb code "4" then "critical"
  else "info".

(** The confidence table as the specification words it, default [low]. *)
Definition confidence_table (code : string) : string :=
  if String.eqb code "0" then "false_positive"
  else if String.eqb code "1" then "low"
  else if String.eqb code "2" then "medium"
  else if String.eqb code "3" then "high"
  else if String.eqb code "4" then "confirmed"
  else "low".

(** The confidence a finding is filtered by: [vuln.get('confidence', 'low')]. *)
Definition effective_confidence (vuln : gmap string Scalar) : Scalar :=
  dict_get vuln "confidence" (PStr "low").

(** The finding has deduplication key [k]. *)
Definition has_key (k : Scalar * Scalar * Scalar) (vuln : gmap string Scalar) : bool :=
  bool_decide (dedup_key vuln = k).

(** The first element of a list that satisfies a test, as a list. *)
Definition first_of {A} (f : A -> bool) (l : list A) : list A :=
  option_list (find f l).

(** An alert whose risk is the textual level and not a code. *)
Definition textual_risk_alert : PyObj :=
  ODict {[ "risk" := PStr "High" ]}.

(** Sample findings: only the confidence, or only the key fields, are set. *)
Definition finding_with_confidence (c : string) : gmap string Scalar :=
  {[ "confidence" := PStr c ]}.

Definition finding_at (type url : string) (evidence : string) : gmap string Scalar :=
  list_to_map
    [("type", PStr type); ("url", PStr url); ("parameter", PStr "id");
     ("evidence", PStr evidence)].

Definition sample_findings : list (gmap string Scalar) :=
  [ finding_with_confidence "low"; finding_with_confidence "high";
    finding_with_confidence "false_positive"; finding_with_confidence "medium" ].

(** *** Runs of the executor *)

(** Which events a piece of code may add to the trace: every endpoint it
    may call satisfies [api]; [cleanup] says whether it may enter
    [_cleanup]. Docker operations, probes, sleeps and log records are
    always allowed. *)
Definition allowed (api : string -> bool) (cleanup : bool) (ev : Event) : bool :=
  match ev with
  | EvOp (HttpApi endpoint) => api endpoint
  | EvCleanup => cleanup
  | _ => true
  end.

(** [s'] comes after [s]: the trace grew by allowed events, the clock and
    the call counter did not go back; [ks] and [kr] say that the scanner
    object, respectively the result record, are the same. *)
Definition frame (api : string -> bool) (cleanup ks kr : bool) (s s' : State) : Prop :=
  (∃ evs, trace s' = (evs ++ trace s)%list ∧ forallb (allowed api cleanup) evs = true)
  ∧ now s ≤ now s'
  ∧ (tick s ≤ tick s')%nat
  ∧ (ks = true → scanner s' = scanner s)
  ∧ (kr = true → scan_results s' = scan_results s).

(** [m] terminates from every state, in a state related by [R]. *)
Definition sat {A} (R : State -> State -> Prop) (m : M A) : Prop :=
  ∀ s, ∃ r s', m s = Some (r, s') ∧ R s s'.

(** From a state that satisfies [I], [m] returns normally a value
    satisfying [Q], in a state related by [R]. *)
Definition succeeds {A} (I : State -> Prop) (R : State -> State -> Prop)
    (m : M A) (Q : A -> Prop) : Prop :=
  ∀ s, I s → ∃ a s', m s = Some (Ok a, s') ∧ Q a ∧ R s s'.

(** The scanner object exists and knows the engine's address. *)
Definition ready (s : State) : Prop :=
  ∃ z u, scanner s = Some z ∧ zap_url z = Some u ∧ u ≠ "".

(** Every engine call except the shutdown request is a phase operation
    (spider, AJAX spider, passive poll, active scan, alert collection). *)
Definition is_phase_op (ev : Event) : bool :=
  match ev with
  | EvOp (HttpApi endpoint) => negb (String.eqb endpoint "core/action/shutdown/")
  | _ => false
  end.

Definition is_spider_op (ev : Event) : bool :=
  match ev with
  | EvOp (HttpApi endpoint) => String.prefix "spider/" endpoint
  | _ => false
  end.

Definition is_cleanup (ev : Event) : bool :=
  match ev with
  | EvCleanup => true
  | _ => false
  end.

Definition is_passive_poll (ev : Event) : bool :=
  match ev with
  | EvOp (HttpApi endpoint) => String.eqb endpoint "pscan/view/recordsToScan/"
  | _ => false
  end.

(** The progress record [get_scan_progress] makes of an engine reply. *)
Definition progress_of_reply (h : HttpReply) : Progress :=
  match h with
  | HttpFail _ => mkProgress 0 false
  | HttpResp status_code _ json =>
      match raise_for_status status_code, json with
      | Ok _, Ok body =>
          match jval_int (dict_get body "recordsToScan" (JS (PInt 0))) with
          | Ok n => mkProgress n (n =? 0)
          | Raise _ => mkProgress 0 false
          end
      | _, _ => mkProgress 0 false
      end
  end.

(** The engine call behind a reply failed: the request raised, the status
    is an error status, or the body is not JSON. *)
Definition api_fails (h : HttpReply) : bool :=
  match h with
  | HttpFail _ => true
  | HttpResp status_code _ json =>
      negb (is_ok (raise_for_status status_code)) || negb (is_ok json)
  end.

(** The status a wait loop reads in a reply, when the call succeeds. *)
Definition status_of_reply (h : HttpReply) : option Z :=
  match h with
  | HttpFail _ => None
  | HttpResp status_code _ json =>
      match raise_for_status status_code, json with
      | Ok _, Ok body =>
          match jval_int (dict_get body "status" (JS (PInt 0))) with
          | Ok n => Some n
          | Raise _ => None
          end
      | _, _ => None
      end
  end.

(** The readiness probe is answered with 200 and a JSON body. *)
Definition probe_ready (h : HttpReply) : bool :=
  match h with
  | HttpResp status_code _ (Ok _) => status_code =? 200
  | _ => false
  end.

(** The readiness probe gets no 200 answer: another status, or a
    [RequestException]. *)
Definition probe_refused (h : HttpReply) : bool :=
  match h with
  | HttpFail e => bool_decide (exn_class e = RequestException)
  | HttpResp status_code _ _ => negb (status_code =? 200)
  end.

(** Wall-clock seconds that [k] poll iterations take from call [t0] on:
    each is one engine call and one sleep of [interval] seconds. *)
Fixpoint elapsed (env : Env) (interval : Z) (t0 : nat) (k : nat) : Z :=
  match k with
  | O => 0
  | S k' => Z.of_nat (env_latency env t0) + interval + elapsed env interval (S t0) k'
  end.

(** The endpoints of the spider phase, and of the other phases. *)
Definition spider_endpoints : list string :=
  [ "spider/action/setOptionMaxDepth/"; "spider/action/setOptionMaxChildren/";
    "spider/action/scan/"; "spider/view/status/" ].

Definition later_phase_endpoints : list string :=
  [ "ajaxSpider/action/setOptionMaxDuration/"; "ajaxSpider/action/scan/";
    "pscan/view/recordsToScan/"; "ascan/action/scan/"; "ascan/view/status/";
    "core/view/alerts/" ].

(** The endpoints [_cleanup] may call. *)
Definition cleanup_api (endpoint : string) : bool :=
  String.eqb endpoint "core/action/shutdown/".

(** The endpoints that are not spider endpoints. *)
Definition non_spider_api (endpoint : string) : bool :=
  negb (String.prefix "spider/" endpoint).

Definition any_api (endpoint : string) : bool := true.

(** The [try]/[except] statement of [execute_scan], without the [finally]
    clause: its outcome is the primary outcome of the scan. *)
Definition execute_scan_primary (env : Env) (scan_id : string) (config : Config)
    : M ScanResults :=
  try_except (execute_scan_try env scan_id config) execute_scan_except.

(** *** What one poll makes of the engine's reply *)

(** The readiness probe: [Ok (Some tt)] leaves the wait, [Ok None] goes
    round, [Raise e] leaves it with an exception. *)
Definition probe_outcome (h : HttpReply) : Res (option unit) :=
  match h with
  | HttpFail e =>
      if decide (exn_class e = RequestException) then Ok None else Raise e
  | HttpResp status_code _ json =>
      if status_code =? 200 then
        match json with
        | Ok _ => Ok (Some tt)
        | Raise e =>
            if decide (exn_class e = RequestException) then Ok None else Raise e
        end
      else Ok None
  end.

(** What [_api_call] returns for a JSON endpoint. *)
Definition api_outcome (h : HttpReply) : Res ApiResult :=
  match h with
  | HttpFail e => Raise e
  | HttpResp status_code _ json =>
      _ ← raise_for_status status_code;
      body ← json;
      Ok (ApiJson body)
  end.

(** A status poll of a wait loop. *)
Definition status_outcome (h : HttpReply) : Res (option bool) :=
  response ← api_outcome h;
  x ← response_get response "status" (JS (PInt 0));
  status ← jval_int x;
  Ok (if status >=? 100 then Some true else None).

(** The poll of the passive wait. *)
Definition passive_outcome (h : HttpReply) : Res (option unit) :=
  Ok (if passive_scan_complete (progress_of_reply h) then Some tt else None).

(** The call number of the first readiness probe, when [start_container]
    begins at call [t1] and its Docker steps succeed: a container of the
    same name is looked up and removed if there is one, the new container
    is run. *)
Definition container_start (env : Env) (t1 : nat) : option nat :=
  let run_at (t : nat) :=
    if is_ok (env_containers_run env t) then Some (S t) else None in
  match env_containers_get env t1 with
  | None =>
      match env_remove env (S t1) with
      | None => run_at (S (S t1))
      | Some e =>
          if decide (exn_class e = DockerNotFound) then run_at (S (S t1)) else None
      end
  | Some e =>
      if decide (exn_class e = DockerNotFound) then run_at (S t1) else None
  end.

(** The same for a scan that starts at call [t0]: the Docker client is
    made first. *)
Definition readiness_start (env : Env) (t0 : nat) : option nat :=
  match env_from_env env t0 with
  | Some _ => None
  | None => container_start env (S t0)
  end.

(** The exception of a readiness timeout. *)
Definition readiness_timeout_error : Exn :=
  mkExn TimeoutError "ZAP failed to start within 120 seconds".

(** The state a poll attempt leaves, up to log records: one more call was
    made, it took its latency, the scanner and the results are the same. *)
Definition after_call (env : Env) (s s' : State) : Prop :=
  tick s' = S (tick s)
  ∧ now s' = now s + Z.of_nat (env_latency env (tick s))
  ∧ scanner s' = scanner s
  ∧ scan_results s' = scan_results s.

(** The state after one external call from [s]. *)
Definition called (env : Env) (op : Op) (s : State) : State :=
  mkState (now s + Z.of_nat (env_latency env (tick s))) (S (tick s))
          (EvOp op :: trace s) (scanner s) (scan_results s).

(** No engine endpoint at all. *)
Definition no_api (endpoint : string) : bool := false.

(** The state after a log record. *)
Definition logged (lvl : Level) (msg : LogMsg) (s : State) : State :=
  mkState (now s) (tick s) (EvLog lvl msg :: trace s) (scanner s) (scan_results s).

(** A reply of an engine that is up but slow: status 200 with a JSON
    body, in which the scan status, if there is one, is below 100, and the
    alerts, if there are any, can be listed. *)
Definition slow_reply (h : HttpReply) : bool :=
  match h with
  | HttpResp status_code _ (Ok body) =>
      (status_code =? 200)
      && match jval_int (dict_get body "status" (JS (PInt 0))) with
         | Ok n => n <? 100
         | Raise _ => false
         end
      && is_ok (jval_len (dict_get body "alerts" (JArr [])))
  | _ => false
  end.

(** The rest of the [try] block of [execute_scan] after the passive
    wait: the active scan, the collection of the alerts, the completed
    record. *)
Definition execute_scan_finish (env : Env) (config : Config) (target_url : string)
    (start_time : Z) : M ScanResults :=
  (if default true (cfg_active_enabled config)
   then _run_active_scan env config target_url else mret tt);;
  alerts ← on_scanner (get_alerts env (Some target_url));
  let parsed_results := parse_alerts (alerts_of alerts) in
  end_time ← time_time;
  let duration := end_time - start_time in
  update_results (fun r =>
    mkScanResults (started_at r) (Runtime.target_url r) (scan_type r)
      (spider_scan_id r) (active_scan_id r) (Some end_time) (Some duration)
      (Some "completed") (error r)
      (Some (vulnerabilities parsed_results))
      (Some (statistics parsed_results)));;
  get_results.

(** *** Sample runs *)

(** An environment in which Docker works and no container of the job's
    name is left over; every call takes [latency] seconds, and [http]
    answers the requests to the engine. *)
Definition docker_up (latency : nat) (http : nat -> HttpReply) : Env :=
  mkEnv (fun _ => latency) (fun _ => None)
    (fun _ => Some (mkExn DockerNotFound "No such container"))
    (fun _ => None) (fun _ => Ok "3f2a9c") (fun _ => None) (fun _ => Ok "")
    (fun _ => None) http.

(** A 200 reply with a JSON object. *)
Definition json_reply (l : list (string * JVal)) : HttpReply :=
  HttpResp 200 "" (Ok (list_to_map l)).

(** The engine never comes up. *)
Definition refusing_env : Env :=
  docker_up 0 (fun _ => HttpFail (mkExn RequestException "Connection refused")).

(** The engine answers every request with an empty object: a scan status
    reads as 0, and there are no alerts. *)
Definition slow_env : Env := docker_up 1 (fun _ => json_reply []).

(** Calls 0 to 2 are Docker's and call 3 is the readiness probe; the
    passive scan then has 7 records left, then 2, then none. *)
Definition draining_env : Env :=
  docker_up 1 (fun n =>
    match n with
    | 4%nat => json_reply [("recordsToScan", JS (PStr "7"))]
    | 5%nat => json_reply [("recordsToScan", JS (PStr "2"))]
    | _ => json_reply [("recordsToScan", JS (PStr "0"))]
    end).

(** The engine answers the first two requests with 503, then reports
    that no record is left. *)
Definition flaky_env : Env :=
  docker_up 1 (fun n =>
    match n with
    | 0%nat | 1%nat =>
        HttpResp 503 "Service Unavailable" (Raise (mkExn ValueError "Expecting value"))
    | _ => json_reply [("recordsToScan", JS (PStr "0"))]
    end).

Definition sample_config : Config :=
  mkConfig (Some "http://target.example") None None None None None None None None.

(** The same with the spider disabled. *)
Definition passive_only_config : Config :=
  mkConfig (Some "http://target.example") None None (Some false) None None None None None.

(** A state in which the scanner is started. *)
Definition started_state : State :=
  mkState 0 0 []
    (Some (mkZAPScannerObj (Some "3f2a9c") (Some "http://amtd-zap-job:8080")))
    empty_results.

(** ** The other methods of the parser *)

Module ScanResultParserReports.
Import PrimFloat.

(** The score table of [calculate_cvss_score]; the scores are binary
    floating point numbers, as Python's are. *)
Definition cvss_scores : gmap string float :=
  list_to_map
    [("4", 9.0%float); ("3", 7.5%float); ("2", 5.0%float); ("1", 3.0%float);
     ("0", 0.0%float)].

(** [calculate_cvss_score], for an alert that is a dictionary *)
Definition calculate_cvss_score (alert : gmap string Scalar) : float :=
  let risk := dict_get alert "risk" (PStr "0") in
  dict_get cvss_scores (py_str risk) 0.0%float.

(** The score of each severity tier, by the comments of the table. *)
Definition tier_score (severity : string) : float :=
  if String.eqb severity "critical" then 9.0%float
  else if String.eqb severity "high" then 7.5%float
  else if String.eqb severity "medium" then 5.0%float
  else if String.eqb severity "low" then 3.0%float
  else 0.0%float.

Definition score_in_range (x : float) : bool :=
  (0.0 <=? x)%float && (x <=? 10.0)%float.

(** The dictionary [group_by_severity] starts from (keys are hashed
    Python values). *)
Definition initial_groups : gmap Scalar (list (gmap string Scalar)) :=
  list_to_map
    [ (PStr "critical", []); (PStr "high", []); (PStr "medium", []);
      (PStr "low", []); (PStr "info", []) ].

(** One iteration of the loop of [group_by_severity]. *)
Definition group_step (grouped : gmap Scalar (list (gmap string Scalar)))
    (vuln : gmap string Scalar) : gmap Scalar (list (gmap string Scalar)) :=
  let severity := dict_key (dict_get vuln "severity" (PStr "info")) in
  match grouped !! severity with
  | Some group => <[severity := (group ++ [vuln])%list]> grouped
  | None => grouped
  end.

Definition group_by_severity (vulnerabilities : list (gmap string Scalar))
    : gmap Scalar (list (gmap string Scalar)) :=
  foldl group_step initial_groups vulnerabilities.

End ScanResultParserReports.
Export ScanResultParserReports.

(** *** Vocabulary for the parser *)

(** The finding counts under the severity [k]:
    [vuln.get('severity', 'info') == k]. *)
Definition has_severity (k : string) (vuln : gmap string Scalar) : bool :=
  py_eq (dict_get vuln "severity" (PStr "info")) (PStr k).

(** The alerts that [_parse_alert] accepts, parsed, in input order. *)
Definition parsed_findings (alerts : list PyObj) : list (gmap string Scalar) :=
  omap (fun alert =>
          match _parse_alert alert with
          | Ok vuln => Some vuln
          | Raise _ => None
          end) alerts.

(** The six keys of the statistics dictionary. *)
Definition counters : list string :=
  ["critical"; "high"; "medium"; "low"; "info"; "total"].

(** The rank of a severity tier, [info] lowest. *)
Definition severity_rank (severity : string) : nat :=
  if String.eqb severity "critical" then 4
  else if String.eqb severity "high" then 3
  else if String.eqb severity "medium" then 2
  else if String.eqb severity "low" then 1
  else 0.

(** The finding passes the confidence filter with threshold index [i]. *)
Definition passes (i : nat) (vuln : gmap string Scalar) : bool :=
  py_in_strs (dict_get vuln "confidence" (PStr "low")) (drop i confidence_order).

(** Each severity counter is the number of findings of that severity. *)
Definition counts_ok (p : Parsed) : Prop :=
  ∀ k, k ∈ severities →
    statistics p !! PStr k
    = Some (Z.of_nat (length (List.filter (has_severity k) (vulnerabilities p)))).

(** The loop invariant of [group_by_severity] after the findings [vs]:
    the five groups are there, each holds the findings of its severity in
    input order, and there is no other key. *)
Definition groups_ok (grouped : gmap Scalar (list (gmap string Scalar)))
    (vs : list (gmap string Scalar)) : Prop :=
  (∀ k, k ∈ severities → grouped !! PStr k = Some (List.filter (has_severity k) vs))
  ∧ (∀ key, is_Some (grouped !! key) → ∃ k, k ∈ severities ∧ key = PStr k).

(** ** The report methods of the scanner *)

(** [generate_html_report] *)
Definition generate_html_report (env : Env) : M ApiResult :=
  _api_call env "core/other/htmlreport/".

(** [generate_json_report] *)
Definition generate_json_report (env : Env) : M ApiResult :=
  _api_call env "core/view/alerts/".

(** *** Vocabulary for the scanner and the executor *)

(** The exception of an engine call made without an engine address. *)
Definition not_started_error : Exn := mkExn Exception "ZAP container not started".

(** The scanner object exists but has no engine address: before
    [start_container], and after [stop_container]. *)
Definition no_address (s : State) : Prop :=
  ∃ z, scanner s = Some z ∧ py_truthy (from_option PStr PNone (zap_url z)) = false.

(** What [_api_call] returns for an [/other/] endpoint. *)
Definition text_outcome (h : HttpReply) : Res ApiResult :=
  match h with
  | HttpFail e => Raise e
  | HttpResp _ text _ => Ok (ApiText text)
  end.

(** What [stop_container] does to a container, newest event first, when
    it starts at call [t]: stop, then remove; a forced remove after an
    error record when one of the two failed. *)
Definition stop_events (env : Env) (t : nat) : list Event :=
  match env_stop env t with
  | None =>
      match env_remove env (S t) with
      | None => [EvOp (ContainerRemove false); EvOp ContainerStop]
      | Some e =>
          [EvOp (ContainerRemove true); EvLog ERROR (ErrorStoppingContainer e);
           EvOp (ContainerRemove false); EvOp ContainerStop]
      end
  | Some e =>
      [EvOp (ContainerRemove true); EvLog ERROR (ErrorStoppingContainer e);
       EvOp ContainerStop]
  end.

(** The exception for a configuration without a target. *)
Definition missing_url_error : Exn :=
  mkExn ValueError "Target URL not specified in configuration".

(** The [try] block of [execute_scan] after [_initialize_scanner]. *)
Definition execute_scan_phases (env : Env) (config : Config) : M ScanResults :=
  match cfg_url config with
  | None | Some "" =>
      raise (mkExn ValueError "Target URL not specified in configuration")
  | Some target_url =>
      start_time ← time_time;
      update_results (fun r =>
        mkScanResults (Some start_time) (Some target_url)
          (Some (default "full" (cfg_scan_type config)))
          (spider_scan_id r) (active_scan_id r) (completed_at r) (duration r)
          (status r) (error r) (result_vulnerabilities r) (result_statistics r));;
      (if default true (cfg_spider_enabled config)
       then _run_spider_scan env config target_url else mret tt);;
      (if default false (cfg_ajax_enabled config)
       then _run_ajax_spider_scan env config target_url else mret tt);;
      _wait_for_passive_scan env 300;;
      execute_scan_finish env config target_url start_time
  end.

(** The endpoints a configuration lets the scan call: those of a phase
    only when the phase is enabled. *)
Definition enabled_api (config : Config) (endpoint : string) : bool :=
  (default true (cfg_spider_enabled config) || negb (String.prefix "spider/" endpoint))
  && (default false (cfg_ajax_enabled config) || negb (String.prefix "ajaxSpider/" endpoint))
  && (default true (cfg_active_enabled config) || negb (String.prefix "ascan/" endpoint)).

(** The place of an endpoint in the order of the phases; an endpoint of
    no phase comes after all of them. *)
Definition phase_rank (endpoint : string) : nat :=
  if String.prefix "spider/" endpoint then 1
  else if String.prefix "ajaxSpider/" endpoint then 2
  else if String.prefix "pscan/" endpoint then 3
  else if String.prefix "ascan/" endpoint then 4
  else if String.eqb endpoint "core/view/alerts/" then 5
  else if String.eqb endpoint "core/action/shutdown/" then 6
  else 7.

(** The place of a request to the engine in the order of a scan: the
    readiness probe ([GET /JSON/core/view/version/]) comes before the
    phases.  Calls to Docker and to the file system are no requests. *)
Definition request_rank (op : Op) : option nat :=
  match op with
  | HttpProbe => Some 0%nat
  | HttpApi endpoint => Some (phase_rank endpoint)
  | _ => None
  end.

(** The ranks of the requests of a trace, newest first. *)
Definition request_ranks (evs : list Event) : list nat :=
  omap (fun ev =>
          match ev with
          | EvOp op => request_rank op
          | _ => None
          end) evs.

(** No number of the list is greater than one before it. *)
Fixpoint descending (l : list nat) : bool :=
  match l with
  | [] => true
  | x :: l' => forallb (fun y => y <=? x)%nat l' && descending l'
  end.

(** The requests that a piece of code adds are in the order of the
    ranks, with ranks between [lo] and [hi]. *)
Definition in_phase_order (lo hi : nat) (s s' : State) : Prop :=
  ∃ evs, trace s' = (evs ++ trace s)%list
    ∧ descending (request_ranks evs) = true
    ∧ forallb (fun r => (lo <=? r) && (r <=? hi))%nat (request_ranks evs) = true.

(** The operations of rank [r], and those that are no requests. *)
Definition rank_op (r : nat) (op : Op) : bool :=
  match request_rank op with
  | Some x => Nat.eqb x r
  | None => true
  end.

(** An event that is no operation, or an operation that satisfies [ok]. *)
Definition permitted (ok : Op -> bool) (ev : Event) : bool :=
  match ev with
  | EvOp op => ok op
  | _ => true
  end.

(** [s'] comes after [s], and every operation in between satisfies
    [ok]. *)
Definition performs (ok : Op -> bool) (s s' : State) : Prop :=
  (∃ evs, trace s' = (evs ++ trace s)%list ∧ forallb (permitted ok) evs = true)
  ∧ now s ≤ now s'.

(** The result record is that of a completed scan whose findings and
    statistics come from one run of the parser. *)
Definition completed_record (r : ScanResults) : Prop :=
  status r = Some "completed"
  ∧ ∃ alerts,
      result_vulnerabilities r = Some (vulnerabilities (parse_alerts alerts))
      ∧ result_statistics r = Some (statistics (parse_alerts alerts)).

(** The [try] block of [execute_scan] up to the passive wait; it yields
    the target and the start time, which the rest of the block uses. *)
Definition execute_scan_to_passive (env : Env) (scan_id : string) (config : Config)
    : M (string * Z) :=
  _initialize_scanner env scan_id;;
  match cfg_url config with
  | None | Some "" =>
      raise (mkExn ValueError "Target URL not specified in configuration")
  | Some target_url =>
      start_time ← time_time;
      update_results (fun r =>
        mkScanResults (Some start_time) (Some target_url)
          (Some (default "full" (cfg_scan_type config)))
          (spider_scan_id r) (active_scan_id r) (completed_at r) (duration r)
          (status r) (error r) (result_vulnerabilities r) (result_statistics r));;
      (if default true (cfg_spider_enabled config)
       then _run_spider_scan env config target_url else mret tt);;
      (if default false (cfg_ajax_enabled config)
       then _run_ajax_spider_scan env config target_url else mret tt);;
      mret (target_url, start_time)
  end.

(** The state in which the phases of a scan begin: the one the
    initialisation leaves, with the start of the scan in the record. *)
Definition phases_begin (config : Config) (target_url : string) (s : State) : State :=
  mkState (now s) (tick s) (trace s) (scanner s)
    (let r := scan_results s in
     mkScanResults (Some (now s)) (Some target_url)
       (Some (default "full" (cfg_scan_type config)))
       (spider_scan_id r) (active_scan_id r) (completed_at r) (duration r)
       (status r) (error r) (result_vulnerabilities r) (result_statistics r)).

(** *** More sample runs *)

(** An alert of the engine without a confidence. *)
Definition sql_alert : gmap string Scalar :=
  list_to_map [("name", PStr "SQL Injection"); ("risk", PStr "3"); ("cweid", PStr "89")].

(** A scanner object that was made and not started. *)
Definition idle_state : State :=
  mkState 0 0 [] (Some (mkZAPScannerObj None None)) empty_results.

(** Docker cannot be reached. *)
Definition no_docker_env : Env :=
  mkEnv (fun _ => 0%nat)
    (fun _ => Some (mkExn DockerException "Error while fetching server API version"))
    (fun _ => None) (fun _ => None) (fun _ => Ok "3f2a9c") (fun _ => None)
    (fun _ => Ok "") (fun _ => None) (fun _ => json_reply []).

(** A configuration without a target. *)
Definition no_target_config : Config :=
  mkConfig None None None None None None None None None.

(** The first readiness probe of a scan (call 3, after Docker's three)
    is refused; afterwards the engine answers every request with an empty
    object. *)
Definition late_env : Env :=
  docker_up 1 (fun n =>
    match n with
    | 3%nat => HttpFail (mkExn RequestException "Connection refused")
    | _ => json_reply []
    end).

(** The first probe is refused, the spider is finished at once, and the
    passive scan has 7 records left, then 2, then none. *)
Definition late_draining_env : Env :=
  docker_up 1 (fun n =>
    match n with
    | 3%nat => HttpFail (mkExn RequestException "Connection refused")
    | 8%nat => json_reply [("status", JS (PStr "100"))]
    | 9%nat => json_reply [("recordsToScan", JS (PStr "7"))]
    | 10%nat => json_reply [("recordsToScan", JS (PStr "2"))]
    | _ => json_reply [("recordsToScan", JS (PStr "0"))]
    end).

(** A scan that reads 30, then 60, then 100. *)
Definition progress_env : Env :=
  docker_up 1 (fun n =>
    match n with
    | 0%nat => json_reply [("status", JS (PStr "30"))]
    | 1%nat => json_reply [("status", JS (PStr "60"))]
    | _ => json_reply [("status", JS (PStr "100"))]
    end).

(** * Properties of the result parser *)

Lemma Res_bind_ok {A B} (m : Res A) (f : A → Res B) b :
  m ≫= f = Ok b → ∃ a, m = Ok a ∧ f a = Ok b.
Proof. destruct m; [eauto|done]. Qed.

Lemma Ok_inj {A} (a b : A) : Ok a = Ok b → a = b.
Proof. congruence. Qed.

(** Lookup of a literal key in a dictionary literal. *)
Ltac lookup_literal :=
  rewrite ?list_to_map_cons;
  repeat (rewrite lookup_insert_ne by (intros [=]));
  apply lookup_insert_eq.

(** A closed equation between values with decidable equality, by
    evaluation of the decision. *)
Ltac compute_eq := apply (bool_decide_unpack _); vm_compute; exact I.

(** Membership of a variable in a list of literals, by cases. *)
Ltac cases_of_elem H :=
  repeat (apply elem_of_cons in H as [->|H]); [..|by apply elem_of_nil in H].

Lemma severity_of_tier risk : severity_of risk ∈ severities.
Proof.
  unfold severity_of, dict_get.
  destruct (SEVERITY_MAP !! py_str risk) as [v|] eqn:E; cbn [default from_option id].
  - apply elem_of_list_to_map_2 in E.
    repeat (apply elem_of_cons in E as [E|E];
            [injection E as _ ->; unfold severities; repeat constructor|]).
    by apply elem_of_nil in E.
  - unfold severities. repeat constructor.
Qed.

Lemma confidence_of_tier level : confidence_of level ∈ confidences.
Proof.
  unfold confidence_of, dict_get.
  destruct (CONFIDENCE_MAP !! py_str level) as [v|] eqn:E; cbn [default from_option id].
  - apply elem_of_list_to_map_2 in E.
    repeat (apply elem_of_cons in E as [E|E];
            [injection E as _ ->; unfold confidences; repeat constructor|]).
    by apply elem_of_nil in E.
  - unfold confidences. repeat constructor.
Qed.

Lemma parse_alert_tiers d vuln :
  _parse_alert (ODict d) = Ok vuln →
  vuln !! "severity" = Some (PStr (severity_of (dict_get d "risk" (PStr "0")))) ∧
  vuln !! "confidence" = Some (PStr (confidence_of (dict_get d "confidence" (PStr "0")))).
Proof.
  unfold _parse_alert.
  intros H.
  apply Res_bind_ok in H as (rc & _ & H).
  apply Res_bind_ok in H as (cc & _ & H).
  apply Res_bind_ok in H as (cwe & _ & H).
  apply Res_bind_ok in H as (ow & _ & H).
  apply Ok_inj in H.
  subst vuln.
  split; lookup_literal.
Qed.

Lemma stats_ok_initial : stats_ok (mkParsed [] initial_statistics).
Proof.
  exists 0, 0, 0, 0, 0. cbn [statistics vulnerabilities].
  repeat split; unfold initial_statistics; lookup_literal.
Qed.

Lemma dom_after_step (st : gmap Scalar Z) (k : string) (x y : Z) :
  k ∈ severities →
  dom st = statistics_keys →
  dom (<[PStr "total" := x]> (<[PStr k := y]> st)) = statistics_keys.
Proof.
  intros Hk Hdom. rewrite !dom_insert_L, Hdom.
  assert (PStr "total" ∈ statistics_keys) as H1.
  { unfold statistics_keys. rewrite elem_of_list_to_set, list_elem_of_fmap.
    exists "total". split; [done|]. repeat constructor. }
  assert (PStr k ∈ statistics_keys) as H2.
  { unfold statistics_keys. rewrite elem_of_list_to_set, list_elem_of_fmap.
    exists k. split; [done|]. unfold severities in Hk.
    cases_of_elem Hk; repeat constructor. }
  rewrite (subseteq_union_1_L {[PStr k]} statistics_keys)
    by (by apply singleton_subseteq_l).
  by apply subseteq_union_1_L, singleton_subseteq_l.
Qed.

Lemma parse_step_ok p alert : stats_ok p → stats_ok (parse_step p alert).
Proof.
  intros Hp. unfold parse_step.
  destruct (_parse_alert alert) as [vuln|e] eqn:E; [|done].
  destruct alert as [d|v]; [|discriminate].
  apply parse_alert_tiers in E as [E _].
  assert (Hsev : dict_key (dict_get vuln "severity" (PStr "info"))
                 = PStr (severity_of (dict_get d "risk" (PStr "0")))).
  { unfold dict_get at 1. by rewrite E. }
  rewrite Hsev. clear Hsev E.
  pose proof (severity_of_tier (dict_get d "risk" (PStr "0"))) as Ht.
  destruct Hp as (c & h & m & l & i & Hc & Hh & Hm & Hl & Hi & Htot & Hdom & Hlen).
  set (sev := severity_of _) in *. clearbody sev.
  assert (Hl' : Z.of_nat (length (vulnerabilities p ++ [vuln]))
                = Z.of_nat (length (vulnerabilities p)) + 1).
  { rewrite length_app. simpl. lia. }
  pose proof (λ x y, dom_after_step (statistics p) sev x y Ht Hdom) as Hd.
  unfold severities in Ht.
  cases_of_elem Ht;
    rewrite ?Hc, ?Hh, ?Hm, ?Hl, ?Hi; cbn [default from_option id];
    rewrite lookup_insert_ne by (intros [=]); rewrite Htot;
    [ exists (c + 1), h, m, l, i | exists c, (h + 1), m, l, i
    | exists c, h, (m + 1), l, i | exists c, h, m, (l + 1), i
    | exists c, h, m, l, (i + 1) ];
    cbn [statistics vulnerabilities];
    rewrite Hd, Hl', <- Hlen;
    repeat (rewrite lookup_insert_ne by (intros [=]));
    rewrite !lookup_insert_eq;
    repeat (rewrite lookup_insert_ne by (intros [=]));
    rewrite ?lookup_insert_eq, ?Hc, ?Hh, ?Hm, ?Hl, ?Hi;
    repeat split; try reflexivity; try (f_equal; lia); try lia.
Qed.

Lemma parse_alerts_ok alerts : stats_ok (parse_alerts alerts).
Proof.
  unfold parse_alerts.
  generalize stats_ok_initial. generalize (mkParsed [] initial_statistics).
  induction alerts as [|a alerts IH]; intros p Hp; [done|].
  cbn [foldl]. apply IH. by apply parse_step_ok.
Qed.

(** C1. For every list of raw alerts the statistics of [parse_alerts] have
    exactly the six counters, [total] is the sum of the five severity
    counters and is the number of findings; on the empty list all six
    counters are zero. *)
Theorem parse_alerts_total_is_sum (alerts : list PyObj) :
  let p := parse_alerts alerts in
  let z := parse_alerts [] in
  stat p "total"
    = stat p "critical" + stat p "high" + stat p "medium" + stat p "low" + stat p "info"
  ∧ dom (statistics p) = statistics_keys
  ∧ stat p "total" = Z.of_nat (length (vulnerabilities p))
  ∧ (stat z "critical" = 0 ∧ stat z "high" = 0 ∧ stat z "medium" = 0 ∧
     stat z "low" = 0 ∧ stat z "info" = 0 ∧ stat z "total" = 0).
Proof.
  intros p z.
  destruct (parse_alerts_ok alerts)
    as (c & h & m & l & i & Hc & Hh & Hm & Hl & Hi & Htot & Hdom & Hlen).
  fold p in Hc, Hh, Hm, Hl, Hi, Htot, Hdom, Hlen.
  unfold stat. rewrite Hc, Hh, Hm, Hl, Hi, Htot. cbn [default from_option id].
  repeat split; try done.
Qed.

Lemma severity_of_table risk : severity_of risk = severity_table (py_str risk).
Proof.
  unfold severity_of, severity_table, dict_get, SEVERITY_MAP.
  generalize (py_str risk). intros k.
  rewrite !list_to_map_cons, list_to_map_nil.
  repeat (rewrite lookup_insert; case_decide as Hk;
          [subst k; reflexivity
          |apply String.eqb_neq in Hk; rewrite String.eqb_sym in Hk; rewrite Hk; clear Hk]).
  by rewrite lookup_empty.
Qed.

Lemma confidence_of_table level : confidence_of level = confidence_table (py_str level).
Proof.
  unfold confidence_of, confidence_table, dict_get, CONFIDENCE_MAP.
  generalize (py_str level). intros k.
  rewrite !list_to_map_cons, list_to_map_nil.
  repeat (rewrite lookup_insert; case_decide as Hk;
          [subst k; reflexivity
          |apply String.eqb_neq in Hk; rewrite String.eqb_sym in Hk; rewrite Hk; clear Hk]).
  by rewrite lookup_empty.
Qed.

Lemma parse_alert_is_ok d :
  is_ok (_parse_alert (ODict d))
  = is_ok (py_int (dict_get d "risk" (PStr "0")))
    && is_ok (py_int (dict_get d "confidence" (PStr "0")))
    && is_ok (_extract_cwe d)
    && is_ok (_map_owasp_category d).
Proof.
  unfold _parse_alert.
  destruct (py_int (dict_get d "risk" (PStr "0"))); [|done].
  destruct (py_int (dict_get d "confidence" (PStr "0"))); [|done].
  destruct (_extract_cwe d); [|done].
  destruct (_map_owasp_category d); done.
Qed.

(** C6, counterexample. An alert whose risk field is the string ['High']
    makes [_parse_alert] raise [ValueError] at [int(risk)]; [parse_alerts]
    drops the alert, so no finding of severity [info] comes out of it. *)
Lemma parse_alert_raises_on_textual_risk :
  _parse_alert textual_risk_alert
    = Raise (mkExn ValueError "invalid literal for int() with base 10: 'High'")
  ∧ severity_of (PStr "High") = "info"
  ∧ vulnerabilities (parse_alerts [textual_risk_alert]) = []
  ∧ stat (parse_alerts [textual_risk_alert]) "info" = 0.
Proof. by vm_compute. Qed.

(** C6, as amended. The severity and the confidence of a finding are read
    from the fixed tables on [str(risk)] and [str(confidence)], with
    defaults [info] and [low]; the lookups are total functions.
    [_parse_alert] returns a finding with these two values exactly when
    [int()] accepts both fields (and the CWE and name fields are
    well-typed); otherwise it raises, and [parse_alerts] skips that alert
    without raising. *)
Theorem parse_alert_classification (d : gmap string Scalar) :
  let risk := dict_get d "risk" (PStr "0") in
  let level := dict_get d "confidence" (PStr "0") in
  severity_of risk = severity_table (py_str risk)
  ∧ confidence_of level = confidence_table (py_str level)
  ∧ severity_of <$> [PInt 0; PInt 1; PInt 2; PInt 3; PInt 4; PInt 5; PNone]
      = ["info"; "low"; "medium"; "high"; "critical"; "info"; "info"]
  ∧ confidence_of <$> [PInt 0; PInt 1; PInt 2; PInt 3; PInt 4; PInt 5; PNone]
      = ["false_positive"; "low"; "medium"; "high"; "confirmed"; "low"; "low"]
  ∧ is_ok (_parse_alert (ODict d))
      = is_ok (py_int risk) && is_ok (py_int level)
        && is_ok (_extract_cwe d) && is_ok (_map_owasp_category d)
  ∧ match _parse_alert (ODict d) with
    | Ok vuln =>
        vuln !! "severity" = Some (PStr (severity_of risk)) ∧
        vuln !! "confidence" = Some (PStr (confidence_of level)) ∧
        parse_step (mkParsed [] initial_statistics) (ODict d)
          = mkParsed [vuln]
              (<[PStr "total" := 1]>
                 (<[PStr (severity_of risk) := 1]> initial_statistics))
    | Raise _ =>
        parse_step (mkParsed [] initial_statistics) (ODict d)
          = mkParsed [] initial_statistics
    end.
Proof.
  intros risk level.
  split; [apply severity_of_table|].
  split; [apply confidence_of_table|].
  split; [by vm_compute|].
  split; [by vm_compute|].
  split; [apply parse_alert_is_ok|].
  unfold parse_step.
  destruct (_parse_alert (ODict d)) as [vuln|e] eqn:E; [|done].
  apply parse_alert_tiers in E as [Hs Hc]. fold risk in Hs. fold level in Hc.
  split; [done|]. split; [done|].
  cbn [vulnerabilities statistics app].
  assert (Hsev : dict_key (dict_get vuln "severity" (PStr "info"))
                 = PStr (severity_of risk)).
  { unfold dict_get. by rewrite Hs. }
  rewrite !Hsev. clear Hsev Hs Hc.
  pose proof (severity_of_tier risk) as Ht.
  set (sev := severity_of risk) in *. clearbody sev.
  unfold severities in Ht.
  cases_of_elem Ht;
    match goal with
    | |- context [<[PStr ?k := default 0 (initial_statistics !! PStr ?k) + 1]> initial_statistics] =>
        replace (<[PStr k := default 0 (initial_statistics !! PStr k) + 1]> initial_statistics)
          with (<[PStr k := 1]> initial_statistics) by compute_eq;
        replace (<[PStr k := 1]> initial_statistics !! PStr "total")
          with (Some 0) by compute_eq
    end; reflexivity.
Qed.

(** ** Deduplication *)

Lemma dedup_loop_app vs : ∀ seen unique,
  dedup_loop seen unique vs = (unique ++ dedup_loop seen [] vs)%list.
Proof.
  induction vs as [|v vs IH]; intros seen unique; cbn [dedup_loop].
  - by rewrite app_nil_r.
  - case_decide; [apply IH|].
    rewrite (IH _ (unique ++ [v])%list), (IH _ ([] ++ [v])%list).
    by rewrite <- !app_assoc.
Qed.

Lemma dedup_loop_unseen v vs seen :
  dedup_key v ∉ seen →
  dedup_loop seen [] (v :: vs) = v :: dedup_loop ({[dedup_key v]} ∪ seen) [] vs.
Proof.
  intros Hv. cbn [dedup_loop]. rewrite decide_False by done.
  by rewrite dedup_loop_app.
Qed.

Lemma dedup_loop_seen v vs seen :
  dedup_key v ∈ seen →
  dedup_loop seen [] (v :: vs) = dedup_loop seen [] vs.
Proof. intros Hv. cbn [dedup_loop]. by rewrite decide_True. Qed.

(** What the loop keeps has keys outside [seen], each key once. *)
Lemma dedup_loop_fresh vs : ∀ seen,
  (∀ v, v ∈ dedup_loop seen [] vs → dedup_key v ∉ seen)
  ∧ NoDup (dedup_key <$> dedup_loop seen [] vs).
Proof.
  induction vs as [|v vs IH]; intros seen.
  - split; [by intros v Hv%elem_of_nil | constructor].
  - destruct (decide (dedup_key v ∈ seen)) as [Hin|Hout].
    + rewrite dedup_loop_seen by done. apply IH.
    + rewrite dedup_loop_unseen by done.
      destruct (IH ({[dedup_key v]} ∪ seen)) as [Hfresh Hnodup].
      split.
      * intros w Hw. apply elem_of_cons in Hw as [->|Hw]; [done|].
        apply Hfresh in Hw. apply not_elem_of_union in Hw. tauto.
      * rewrite fmap_cons. constructor; [|done].
        intros Hin. apply list_elem_of_fmap in Hin as (w & Hk & Hw).
        apply Hfresh in Hw. apply not_elem_of_union in Hw as [Hw _].
        apply Hw, elem_of_singleton. done.
Qed.

(** A list whose keys are fresh and pairwise different is kept whole. *)
Lemma dedup_loop_fixed vs : ∀ seen,
  (∀ v, v ∈ vs → dedup_key v ∉ seen) →
  NoDup (dedup_key <$> vs) →
  dedup_loop seen [] vs = vs.
Proof.
  induction vs as [|v vs IH]; intros seen Hfresh Hnodup; [done|].
  rewrite fmap_cons in Hnodup. apply NoDup_cons in Hnodup as [Hv Hnodup].
  rewrite dedup_loop_unseen by (apply Hfresh; left).
  f_equal. apply IH; [|done].
  intros w Hw. apply not_elem_of_union. split.
  - intros Heq%elem_of_singleton. apply Hv, list_elem_of_fmap. by exists w.
  - apply Hfresh. by right.
Qed.

Lemma first_of_cons_true {A} (f : A → bool) a l : f a = true → first_of f (a :: l) = [a].
Proof. intros H. unfold first_of. cbn [find]. by rewrite H. Qed.

Lemma first_of_cons_false {A} (f : A → bool) a l :
  f a = false → first_of f (a :: l) = first_of f l.
Proof. intros H. unfold first_of. cbn [find]. by rewrite H. Qed.

(** Of the findings that share a key, the loop keeps the first, unless the
    key was seen before. *)
Lemma dedup_loop_key k vs : ∀ seen,
  List.filter (has_key k) (dedup_loop seen [] vs)
  = if decide (k ∈ seen) then [] else first_of (has_key k) vs.
Proof.
  induction vs as [|v vs IH]; intros seen.
  - cbn. by case_decide.
  - destruct (decide (dedup_key v ∈ seen)) as [Hin|Hout].
    + rewrite dedup_loop_seen, IH by done.
      case_decide as Hk; [done|].
      rewrite first_of_cons_false; [done|].
      apply bool_decide_eq_false. intros Heq. by subst k.
    + rewrite dedup_loop_unseen by done. cbn [List.filter].
      rewrite IH. destruct (has_key k v) eqn:Hv.
      * apply bool_decide_eq_true in Hv. subst k.
        rewrite decide_True by (apply elem_of_union_l, elem_of_singleton_2; done).
        rewrite decide_False by done.
        rewrite first_of_cons_true; [done|]. by apply bool_decide_eq_true.
      * rewrite first_of_cons_false by done.
        apply bool_decide_eq_false in Hv.
        destruct (decide (k ∈ seen)).
        -- rewrite decide_True by (by apply elem_of_union_r). done.
        -- rewrite decide_False; [done|].
           intros [Hin%elem_of_singleton_1|Hin]%elem_of_union; [|done].
           by subst k.
Qed.

Lemma dedup_loop_sublist vs : ∀ seen, sublist (dedup_loop seen [] vs) vs.
Proof.
  induction vs as [|v vs IH]; intros seen; [done|].
  destruct (decide (dedup_key v ∈ seen)).
  - rewrite dedup_loop_seen by done. by apply sublist_cons.
  - rewrite dedup_loop_unseen by done. by apply sublist_skip.
Qed.

(** The findings of the result that carry a key: the first finding of
    the input that carries it, if there is one. *)
Lemma deduplicate_by_key xs k :
  List.filter (has_key k) (deduplicate xs) = first_of (has_key k) xs.
Proof.
  unfold deduplicate. rewrite dedup_loop_key.
  by rewrite decide_False by apply not_elem_of_empty.
Qed.

(** C7. [deduplicate] is idempotent; for every key, the findings of the
    result that carry it are exactly the first finding of the input that
    carries it (so of two findings sharing a key one survives, the first);
    the result keeps the input order. *)
Theorem deduplicate_idempotent_keeps_first (xs : list (gmap string Scalar))
    (k : Scalar * Scalar * Scalar) :
  deduplicate (deduplicate xs) = deduplicate xs
  ∧ List.filter (has_key k) (deduplicate xs) = first_of (has_key k) xs
  ∧ NoDup (dedup_key <$> deduplicate xs)
  ∧ sublist (deduplicate xs) xs.
Proof.
  unfold deduplicate.
  destruct (dedup_loop_fresh xs ∅) as [Hfresh Hnodup].
  split; [|split; [|split]].
  - apply dedup_loop_fixed; [|done]. intros v _. apply not_elem_of_empty.
  - apply (deduplicate_by_key xs k).
  - done.
  - apply dedup_loop_sublist.
Qed.

(** Two findings of the input that share a key: only the earlier one is in
    the result. *)
Corollary deduplicate_two_sharing xs (i j : nat) a b :
  (i < j)%nat → xs !! i = Some a → xs !! j = Some b →
  dedup_key a = dedup_key b →
  ∃ first, first_of (has_key (dedup_key a)) xs = [first]
    ∧ List.filter (has_key (dedup_key a)) (deduplicate xs) = [first].
Proof.
  intros _ Ha _ _.
  rewrite deduplicate_by_key. unfold first_of.
  destruct (find (has_key (dedup_key a)) xs) as [v|] eqn:E; [by exists v|].
  apply list_elem_of_lookup_2, list_elem_of_In in Ha.
  eapply find_none in E; [|done].
  unfold has_key in E. by rewrite bool_decide_eq_false in E.
Qed.

(** ** Confidence filter *)

(** Membership of a literal in a list of other literals is absurd. *)
Ltac elem_of_absurd H :=
  repeat (apply elem_of_cons in H as [H|H]; [discriminate H|]);
  by apply elem_of_nil in H.

Lemma index_of_None x l : index_of x l = None ↔ x ∉ l.
Proof.
  induction l as [|y l IH]; cbn [index_of].
  - split; [intros _; apply not_elem_of_nil | done].
  - destruct (String.eqb_spec x y) as [->|Hne].
    + split; [done|]. intros []. left.
    + rewrite not_elem_of_cons. destruct (index_of x l); cbn; [|tauto].
      split; [done|]. intros [_ H]. by apply IH in H.
Qed.

Lemma py_in_strs_spec v l : py_in_strs v l = true ↔ v ∈ (PStr <$> l).
Proof.
  unfold py_in_strs. rewrite existsb_exists, list_elem_of_fmap.
  split.
  - intros (s & Hs & Heq). exists s. split; [|by apply list_elem_of_In].
    apply bool_decide_eq_true in Heq. by destruct v; simplify_eq/=.
  - intros (s & -> & Hs). exists s. split; [by apply list_elem_of_In|].
    by apply bool_decide_eq_true.
Qed.

Lemma elem_of_filter_bool {A} (f : A → bool) (l : list A) x :
  x ∈ List.filter f l ↔ x ∈ l ∧ f x = true.
Proof. rewrite !list_elem_of_In. apply filter_In. Qed.

Lemma filter_by_confidence_elem xs v t (i : nat) :
  index_of t confidence_order = Some i →
  v ∈ filter_by_confidence xs t
  ↔ v ∈ xs ∧ effective_confidence v ∈ (PStr <$> drop i confidence_order).
Proof.
  intros Hi. unfold filter_by_confidence. rewrite Hi.
  rewrite elem_of_filter_bool, py_in_strs_spec. done.
Qed.

(** C8. With [min_confidence = 'medium'] a finding is kept exactly when its
    confidence is [medium], [high] or [confirmed]; of the four ordered
    tiers only [low] is removed; a [false_positive] finding is kept by no
    threshold of the ordering, and is kept when the threshold is
    [false_positive] itself, which filters nothing. *)
Theorem filter_by_confidence_medium (xs : list (gmap string Scalar))
    (v : gmap string Scalar) (t : string) :
  v ∈ xs →
  t ∈ confidence_order →
  filter_by_confidence xs "medium"
    = List.filter
        (fun w => py_in_strs (effective_confidence w) ["medium"; "high"; "confirmed"]) xs
  ∧ (v ∈ filter_by_confidence xs "medium"
     ↔ effective_confidence v ∈ [PStr "medium"; PStr "high"; PStr "confirmed"])
  ∧ (v ∉ filter_by_confidence xs "medium" →
     effective_confidence v ∈ (PStr <$> confidence_order) →
     effective_confidence v = PStr "low")
  ∧ (effective_confidence v = PStr "false_positive" →
     v ∉ filter_by_confidence xs t)
  ∧ filter_by_confidence xs "false_positive" = xs.
Proof.
  intros Hv Ht.
  assert (Hmed : v ∈ filter_by_confidence xs "medium"
     ↔ effective_confidence v ∈ [PStr "medium"; PStr "high"; PStr "confirmed"]).
  { rewrite (filter_by_confidence_elem xs v "medium" 1) by done.
    cbn [drop confidence_order fmap list_fmap]. tauto. }
  split; [done|]. split; [done|]. split; [|split; [|done]].
  - rewrite Hmed. intros Hnot Hin. cbn in Hin.
    apply elem_of_cons in Hin as [->|Hin]; [done|]. done.
  - intros Hfp. unfold confidence_order in Ht.
    cases_of_elem Ht.
    + rewrite (filter_by_confidence_elem xs v "low" 0) by done.
      rewrite Hfp. intros [_ H]. cbn in H. elem_of_absurd H.
    + rewrite (filter_by_confidence_elem xs v "medium" 1) by done.
      rewrite Hfp. intros [_ H]. cbn in H. elem_of_absurd H.
    + rewrite (filter_by_confidence_elem xs v "high" 2) by done.
      rewrite Hfp. intros [_ H]. cbn in H. elem_of_absurd H.
    + rewrite (filter_by_confidence_elem xs v "confirmed" 3) by done.
      rewrite Hfp. intros [_ H]. cbn in H. elem_of_absurd H.
Qed.

(** C10. A [min_confidence] outside the ordering returns the input list
    unchanged. *)
Theorem filter_by_confidence_unordered (xs : list (gmap string Scalar))
    (min_confidence : string) :
  min_confidence ∉ confidence_order →
  filter_by_confidence xs min_confidence = xs.
Proof.
  intros H. apply index_of_None in H.
  unfold filter_by_confidence. by rewrite H.
Qed.

Lemma effective_confidence_finding c :
  effective_confidence (finding_with_confidence c) = PStr c.
Proof.
  unfold effective_confidence, dict_get, finding_with_confidence.
  by rewrite lookup_singleton_eq.
Qed.

Lemma filter_by_confidence_medium_witness :
  finding_with_confidence "high" ∈ filter_by_confidence sample_findings "medium"
  ∧ finding_with_confidence "false_positive" ∉ filter_by_confidence sample_findings "high".
Proof.
  assert (Hhigh : finding_with_confidence "high" ∈ sample_findings).
  { apply list_elem_of_further, list_elem_of_here. }
  assert (Hfp : finding_with_confidence "false_positive" ∈ sample_findings).
  { apply list_elem_of_further, list_elem_of_further, list_elem_of_here. }
  assert (Ht : "high" ∈ confidence_order).
  { apply list_elem_of_further, list_elem_of_further, list_elem_of_here. }
  split.
  - apply (filter_by_confidence_medium sample_findings _ "high" Hhigh Ht).
    rewrite effective_confidence_finding.
    apply list_elem_of_further, list_elem_of_here.
  - apply (filter_by_confidence_medium sample_findings _ "high" Hfp Ht).
    apply effective_confidence_finding.
Defined.

Lemma filter_by_confidence_unordered_witness :
  filter_by_confidence sample_findings "false_positive" = sample_findings
  ∧ filter_by_confidence sample_findings "certain" = sample_findings.
Proof.
  split; apply filter_by_confidence_unordered; apply index_of_None; reflexivity.
Defined.

(** Three findings, the first and the last sharing their key: the last one
    is dropped. *)
Example deduplicate_sample :
  deduplicate [finding_at "XSS" "/a" "first"; finding_at "SQLi" "/a" "";
               finding_at "XSS" "/a" "second"]
  = [finding_at "XSS" "/a" "first"; finding_at "SQLi" "/a" ""].
Proof. compute_eq. Qed.

(** * Program logic of the scanner monad *)

Lemma bind_eq {A B} (m : M A) (f : A → M B) s :
  (m ≫= f) s =
  match m s with
  | Some (Ok a, s') => f a s'
  | Some (Raise e, s') => Some (Raise e, s')
  | None => None
  end.
Proof. reflexivity. Qed.

Lemma bind_ok {A B} (m : M A) (f : A → M B) s a s1 :
  m s = Some (Ok a, s1) → (m ≫= f) s = f a s1.
Proof. intros H. by rewrite bind_eq, H. Qed.

Lemma bind_raise {A B} (m : M A) (f : A → M B) s e s1 :
  m s = Some (Raise e, s1) → (m ≫= f) s = Some (Raise e, s1).
Proof. intros H. by rewrite bind_eq, H. Qed.

(** A bind that returns normally ran both of its parts. *)
Lemma bind_inv_ok {A B} (m : M A) (f : A → M B) s b s' :
  (m ≫= f) s = Some (Ok b, s') →
  ∃ a s1, m s = Some (Ok a, s1) ∧ f a s1 = Some (Ok b, s').
Proof.
  rewrite bind_eq. destruct (m s) as [[[a|e] s1]|]; [|done..].
  intros H. by exists a, s1.
Qed.

(** ** Frames *)

Lemma frame_refl api c ks kr s : frame api c ks kr s s.
Proof.
  unfold frame. split; [by exists []|]. repeat split; try done; lia.
Qed.

Lemma frame_trans api c ks kr s1 s2 s3 :
  frame api c ks kr s1 s2 → frame api c ks kr s2 s3 → frame api c ks kr s1 s3.
Proof.
  intros ((e1 & He1 & Ha1) & Hn1 & Ht1 & Hs1 & Hr1)
         ((e2 & He2 & Ha2) & Hn2 & Ht2 & Hs2 & Hr2).
  split; [|repeat split].
  - exists (e2 ++ e1)%list. rewrite He2, He1, app_assoc. split; [done|].
    rewrite forallb_app. by rewrite Ha1, Ha2.
  - lia.
  - lia.
  - intros H. by rewrite Hs2, Hs1.
  - intros H. by rewrite Hr2, Hr1.
Qed.

#[global] Instance frame_preorder api c ks kr : PreOrder (frame api c ks kr).
Proof.
  split; [intros s; apply frame_refl | intros s1 s2 s3; apply frame_trans].
Qed.

Lemma allowed_weaken (api api' : string → bool) (c c' : bool) ev :
  (∀ ep, api ep = true → api' ep = true) → (c = true → c' = true) →
  allowed api c ev = true → allowed api' c' ev = true.
Proof. intros Ha Hc. destruct ev as [[]| | |]; cbn; auto. Qed.

Lemma frame_weaken api api' c c' ks ks' kr kr' s s' :
  (∀ ep, api ep = true → api' ep = true) → (c = true → c' = true) →
  (ks' = true → ks = true) → (kr' = true → kr = true) →
  frame api c ks kr s s' → frame api' c' ks' kr' s s'.
Proof.
  intros Ha Hc Hks Hkr ((evs & He & Hall) & Hn & Ht & Hs & Hr).
  split; [|repeat split; auto].
  exists evs. split; [done|].
  rewrite forallb_forall in Hall |- *. intros ev Hev.
  eapply allowed_weaken; eauto.
Qed.

Lemma frame_now api c ks kr s s' : frame api c ks kr s s' → now s ≤ now s'.
Proof. by intros (_ & H & _). Qed.

Lemma frame_scanner api c kr s s' : frame api c true kr s s' → scanner s' = scanner s.
Proof. intros (_ & _ & _ & H & _). by apply H. Qed.

Lemma frame_results api c ks s s' :
  frame api c ks true s s' → scan_results s' = scan_results s.
Proof. intros (_ & _ & _ & _ & H). by apply H. Qed.

Lemma frame_trace api c ks kr s s' :
  frame api c ks kr s s' →
  ∃ evs, trace s' = (evs ++ trace s)%list ∧ forallb (allowed api c) evs = true.
Proof. by intros (H & _). Qed.

Lemma frame_ready api c kr s s' : frame api c true kr s s' → ready s → ready s'.
Proof. intros H (z & u & Hz & Hu). exists z, u. by rewrite (frame_scanner _ _ _ _ _ H). Qed.

(** ** Rules for termination within a relation *)

Section SatRules.
Context (R : State → State → Prop) `{!PreOrder R}.

Lemma sat_ret {A} (a : A) : sat R (mret a).
Proof. intros s. by exists (Ok a), s. Qed.

Lemma sat_raise {A} e : sat R (@raise A e).
Proof. intros s. by exists (Raise e), s. Qed.

Lemma sat_lift_res {A} (r : Res A) : sat R (lift_res r).
Proof. intros s. by exists r, s. Qed.

Lemma sat_bind {A B} (m : M A) (f : A → M B) :
  sat R m → (∀ a, sat R (f a)) → sat R (m ≫= f).
Proof.
  intros Hm Hf s. destruct (Hm s) as ([a|e] & s1 & Hs & HR).
  - destruct (Hf a s1) as (r & s2 & Hs2 & HR2).
    exists r, s2. rewrite (bind_ok _ _ _ _ _ Hs). split; [done|]. by etrans.
  - exists (Raise e), s1. by rewrite (bind_raise _ _ _ _ _ Hs).
Qed.

Lemma sat_try_except {A} (m : M A) (h : Exn → M A) :
  sat R m → (∀ e, sat R (h e)) → sat R (try_except m h).
Proof.
  intros Hm Hh s. unfold try_except.
  destruct (Hm s) as ([a|e] & s1 & -> & HR).
  - by exists (Ok a), s1.
  - destruct (Hh e s1) as (r & s2 & Hs2 & HR2).
    exists r, s2. split; [done|]. by etrans.
Qed.

Lemma sat_try_except_class {A} cls (m : M A) (h : M A) :
  sat R m → sat R h → sat R (try_except_class cls m h).
Proof.
  intros Hm Hh. apply sat_try_except; [done|].
  intros e. case_decide; [done|apply sat_raise].
Qed.

Lemma sat_try_finally {A} (m : M A) (f : M unit) :
  sat R m → sat R f → sat R (try_finally m f).
Proof.
  intros Hm Hf s. unfold try_finally.
  destruct (Hm s) as (r & s1 & -> & HR).
  destruct (Hf s1) as ([[]|e] & s2 & -> & HR2).
  - exists r, s2. split; [done|]. by etrans.
  - exists (Raise e), s2. split; [done|]. by etrans.
Qed.

Lemma sat_time_time : sat R time_time.
Proof. intros s. by exists (Ok (now s)), s. Qed.

Lemma sat_get_scanner : sat R get_scanner.
Proof. intros s. by exists (Ok (scanner s)), s. Qed.

Lemma sat_get_results : sat R get_results.
Proof. intros s. by exists (Ok (scan_results s)), s. Qed.

Lemma sat_iteration {A} (attempt : M (option A)) interval :
  sat R attempt → sat R (sleep interval) → sat R (iteration attempt interval).
Proof.
  intros Ha Hs. apply sat_bind; [done|].
  intros [a|]; [apply sat_ret|].
  apply sat_bind; [done|]. intros _. apply sat_ret.
Qed.

(** An iteration that goes round slept, so the clock moved on. *)
Lemma iteration_progress {A} (attempt : M (option A)) interval s s' :
  (∀ s1 s2, R s1 s2 → now s1 ≤ now s2) →
  sat R attempt →
  iteration attempt interval s = Some (Ok None, s') →
  now s + interval ≤ now s'.
Proof.
  intros Hmono Ha. unfold iteration. rewrite bind_eq.
  destruct (Ha s) as (r & s1 & Hs1 & HR). rewrite Hs1.
  destruct r as [[a|]|e]; [done| |done].
  cbn. intros [= <-]. cbn. apply Hmono in HR. lia.
Qed.

Lemma sat_while {A} (attempt : M (option A)) interval start_time timeout :
  (∀ s1 s2, R s1 s2 → now s1 ≤ now s2) →
  1 ≤ interval →
  sat R attempt → sat R (sleep interval) →
  ∀ fuel s, timeout - (now s - start_time) ≤ Z.of_nat fuel →
    ∃ r s', while_deadline fuel start_time timeout (iteration attempt interval) s
            = Some (r, s') ∧ R s s'.
Proof.
  intros Hmono Hint Ha Hs fuel.
  induction fuel as [|fuel IH]; intros s Hfuel; cbn [while_deadline].
  - rewrite (proj2 (Z.ltb_ge _ _)) by lia. by exists (Ok None), s.
  - destruct (Z.ltb_spec (now s - start_time) timeout) as [Hlt|Hge];
      [|by exists (Ok None), s].
    destruct (sat_iteration attempt interval Ha Hs s) as (r & s1 & Hs1 & HR).
    rewrite Hs1. destruct r as [[a|]|e].
    + by exists (Ok (Some a)), s1.
    + pose proof (iteration_progress _ _ _ _ Hmono Ha Hs1).
      destruct (IH s1) as (r & s2 & Hs2 & HR2); [lia|].
      exists r, s2. split; [done|]. by etrans.
    + by exists (Raise e), s1.
Qed.

Lemma sat_poll_until {A} (attempt : M (option A)) interval timeout :
  (∀ s1 s2, R s1 s2 → now s1 ≤ now s2) →
  1 ≤ interval →
  sat R attempt → sat R (sleep interval) →
  sat R (poll_until timeout attempt interval).
Proof.
  intros Hmono Hint Ha Hs s. unfold poll_until. rewrite bind_eq. cbn [time_time].
  apply sat_while; try done. lia.
Qed.

End SatRules.

Lemma sat_weaken {A} (R R' : State → State → Prop) (m : M A) :
  (∀ s s', R s s' → R' s s') → sat R m → sat R' m.
Proof.
  intros HR Hm s. destruct (Hm s) as (r & s' & Hs & H). exists r, s'. auto.
Qed.

(** ** The primitive steps *)

Section Primitives.
Context (env : Env) (api : string → bool) (c ks kr : bool).

Lemma frame_cons ev s s' :
  allowed api c ev = true →
  trace s' = ev :: trace s → now s ≤ now s' → (tick s ≤ tick s')%nat →
  scanner s' = scanner s → scan_results s' = scan_results s →
  frame api c ks kr s s'.
Proof.
  intros Hev Ht Hn Hk Hs Hr. split; [|by repeat split].
  exists [ev]. split; [done|]. cbn. by rewrite Hev.
Qed.

Lemma sat_external {A} op (reply : Env → nat → A) :
  allowed api c (EvOp op) = true →
  sat (frame api c ks kr) (external env op reply).
Proof.
  intros Hop s. eexists _, _. split; [reflexivity|].
  apply (frame_cons (EvOp op)); cbn; try done; lia.
Qed.

Lemma sat_external_unit op reply :
  allowed api c (EvOp op) = true →
  sat (frame api c ks kr) (external_unit env op reply).
Proof.
  intros Hop. apply sat_bind; [apply _|by apply sat_external|].
  intros [e|]; [apply sat_raise|apply sat_ret]; apply _.
Qed.

Lemma sat_external_res {A} op (reply : Env → nat → Res A) :
  allowed api c (EvOp op) = true →
  sat (frame api c ks kr) (external_res env op reply).
Proof.
  intros Hop. apply sat_bind; [apply _|by apply sat_external|].
  intros r. apply sat_lift_res. apply _.
Qed.

Lemma sat_emit ev :
  allowed api c ev = true → sat (frame api c ks kr) (emit ev).
Proof.
  intros Hev s. eexists _, _. split; [reflexivity|].
  apply (frame_cons ev); cbn; try done; lia.
Qed.

Lemma sat_log lvl msg : sat (frame api c ks kr) (log lvl msg).
Proof. by apply sat_emit. Qed.

Lemma sat_sleep n : 0 ≤ n → sat (frame api c ks kr) (sleep n).
Proof.
  intros Hn s. eexists _, _. split; [reflexivity|].
  apply (frame_cons (EvSleep n)); cbn; try done; lia.
Qed.

Lemma sat_set_scanner z : sat (frame api c false kr) (set_scanner z).
Proof.
  intros s. eexists _, _. split; [reflexivity|].
  split; [by exists []|]. cbn. repeat split; try done; lia.
Qed.

Lemma sat_update_results f : sat (frame api c ks false) (update_results f).
Proof.
  intros s. eexists _, _. split; [reflexivity|].
  split; [by exists []|]. cbn. repeat split; try done; lia.
Qed.

End Primitives.

(** * Every method terminates, and what it may touch *)

(** Applies the rules of [sat] along the shape of a monadic term. *)
Ltac sat_go :=
  repeat match goal with
    | |- sat _ (mret _) => apply sat_ret; apply _
    | |- sat _ (raise _) => apply sat_raise; apply _
    | |- sat _ no_scanner => apply sat_raise; apply _
    | |- sat _ (lift_res _) => apply sat_lift_res; apply _
    | |- sat _ time_time => apply sat_time_time; apply _
    | |- sat _ get_scanner => apply sat_get_scanner; apply _
    | |- sat _ get_results => apply sat_get_results; apply _
    | |- sat _ (log _ _) => apply sat_log
    | |- sat _ (poll_until _ _ _) =>
        apply sat_poll_until; [apply _ | apply frame_now | lia | | apply sat_sleep; lia ]
    | |- sat _ (_ ≫= _) => apply sat_bind; [apply _ | | intros ?]
    | |- sat _ (try_except_class _ _ _) => apply sat_try_except_class; [apply _ | | ]
    | |- sat _ (try_except _ _) => apply sat_try_except; [apply _ | | intros ?]
    | |- sat _ (try_finally _ _) => apply sat_try_finally; [apply _ | | ]
    | |- sat _ (external_unit _ _ _) => apply sat_external_unit; done
    | |- sat _ (external_res _ _ _) => apply sat_external_res; done
    | |- sat _ (external _ _ _) => apply sat_external; done
    | |- sat _ (sleep _) => apply sat_sleep; lia
    | |- sat _ (emit _) => apply sat_emit; done
    | |- sat _ (update_results _) => apply sat_update_results
    | |- sat _ (set_scanner _) => apply sat_set_scanner
    | |- sat _ (match ?x with _ => _ end) => destruct x
    | |- sat _ (if ?x then _ else _) => destruct x
    | |- sat _ (let '(_, _) := ?x in _) => destruct x
    end.

Section Total.
Context (env : Env) (api : string → bool) (c kr : bool).

Lemma sat_self_get {A} ks (f : ZAPScannerObj → A) :
  sat (frame api c ks kr) (self_get f).
Proof. unfold self_get, no_scanner. sat_go. Qed.

Lemma sat_self_set f : sat (frame api c false kr) (self_set f).
Proof. unfold self_set, no_scanner. sat_go. Qed.

Lemma sat_requests_get ks op :
  allowed api c (EvOp op) = true →
  sat (frame api c ks kr) (requests_get env op).
Proof. intros H. unfold requests_get. sat_go. Qed.

Lemma sat_init ks : sat (frame api c ks kr) (__init__ env).
Proof. unfold __init__. sat_go. Qed.

Lemma sat_probe_version ks : sat (frame api c ks kr) (probe_version env).
Proof.
  unfold probe_version. sat_go.
  all: try by apply sat_requests_get.
Qed.

Lemma sat_wait_for_zap ks timeout : sat (frame api c ks kr) (_wait_for_zap env timeout).
Proof. unfold _wait_for_zap. sat_go. all: try apply sat_probe_version. Qed.

Lemma sat_start_container scan_id :
  sat (frame api c false kr) (start_container env scan_id).
Proof.
  unfold start_container. sat_go.
  all: try first [apply sat_self_set | apply sat_wait_for_zap].
Qed.

Lemma sat_api_call ks endpoint :
  api endpoint = true →
  sat (frame api c ks kr) (_api_call env endpoint).
Proof.
  intros H. unfold _api_call. sat_go.
  all: try first [apply sat_self_get | by apply sat_requests_get].
Qed.

Lemma sat_spider_scan ks target_url max_depth max_children :
  api "spider/action/setOptionMaxDepth/" = true →
  api "spider/action/setOptionMaxChildren/" = true →
  api "spider/action/scan/" = true →
  sat (frame api c ks kr) (spider_scan env target_url max_depth max_children).
Proof. intros. unfold spider_scan. sat_go. all: try by apply sat_api_call. Qed.

Lemma sat_ajax_spider_scan ks target_url max_duration :
  api "ajaxSpider/action/setOptionMaxDuration/" = true →
  api "ajaxSpider/action/scan/" = true →
  sat (frame api c ks kr) (ajax_spider_scan env target_url max_duration).
Proof. intros. unfold ajax_spider_scan. sat_go. all: try by apply sat_api_call. Qed.

Lemma sat_active_scan ks target_url :
  api "ascan/action/scan/" = true →
  sat (frame api c ks kr) (active_scan env target_url).
Proof. intros. unfold active_scan. sat_go. all: try by apply sat_api_call. Qed.

Lemma sat_poll_status ks endpoint :
  api endpoint = true →
  sat (frame api c ks kr) (poll_status env endpoint).
Proof. intros. unfold poll_status. sat_go. all: try by apply sat_api_call. Qed.

Lemma sat_wait_for_spider ks scan_id timeout :
  api "spider/view/status/" = true →
  sat (frame api c ks kr) (wait_for_spider env scan_id timeout).
Proof. intros. unfold wait_for_spider. sat_go. all: try by apply sat_poll_status. Qed.

Lemma sat_wait_for_active_scan ks scan_id timeout :
  api "ascan/view/status/" = true →
  sat (frame api c ks kr) (wait_for_active_scan env scan_id timeout).
Proof. intros. unfold wait_for_active_scan. sat_go. all: try by apply sat_poll_status. Qed.

Lemma sat_get_alerts ks base_url :
  api "core/view/alerts/" = true →
  sat (frame api c ks kr) (get_alerts env base_url).
Proof. intros. unfold get_alerts. sat_go. all: try by apply sat_api_call. Qed.

Lemma sat_shutdown ks :
  api "core/action/shutdown/" = true →
  sat (frame api c ks kr) (shutdown env).
Proof. intros. unfold shutdown. sat_go. all: try by apply sat_api_call. Qed.

Lemma sat_stop_container : sat (frame api c false kr) (stop_container env).
Proof.
  unfold stop_container. sat_go.
  all: try first [apply sat_self_get | apply sat_self_set].
Qed.

Lemma sat_get_scan_progress ks :
  api "pscan/view/recordsToScan/" = true →
  sat (frame api c ks kr) (get_scan_progress env).
Proof. intros. unfold get_scan_progress. sat_go. all: try by apply sat_api_call. Qed.

Lemma sat_get_container_logs ks : sat (frame api c ks kr) (get_container_logs env).
Proof. unfold get_container_logs. sat_go. all: try apply sat_self_get. Qed.

Lemma sat_on_scanner {A} ks (m : M A) :
  sat (frame api c ks kr) m → sat (frame api c ks kr) (on_scanner m).
Proof. intros. unfold on_scanner, no_scanner. sat_go. all: try done. Qed.

End Total.

(** ** Rules for normal return *)

Section SucceedsRules.
Context (I : State → Prop) (R : State → State → Prop) `{!PreOrder R}.
Context (HI : ∀ s s', I s → R s s' → I s').

Lemma succeeds_ret {A} (a : A) (Q : A → Prop) : Q a → succeeds I R (mret a) Q.
Proof. intros HQ s _. by exists a, s. Qed.

Lemma succeeds_bind {A B} (m : M A) (f : A → M B) Q1 Q2 :
  succeeds I R m Q1 → (∀ a, Q1 a → succeeds I R (f a) Q2) →
  succeeds I R (m ≫= f) Q2.
Proof.
  intros Hm Hf s Hs. destruct (Hm s Hs) as (a & s1 & Hs1 & Ha & HR).
  destruct (Hf a Ha s1) as (b & s2 & Hs2 & Hb & HR2); [by eapply HI|].
  exists b, s2. rewrite (bind_ok _ _ _ _ _ Hs1). split; [done|].
  split; [done|]. by etrans.
Qed.

Lemma succeeds_try_except {A} (m : M A) (h : Exn → M A) Q :
  succeeds I R m Q → succeeds I R (try_except m h) Q.
Proof.
  intros Hm s Hs. destruct (Hm s Hs) as (a & s1 & Hs1 & Ha & HR).
  exists a, s1. unfold try_except. by rewrite Hs1.
Qed.

Lemma succeeds_weaken {A} (m : M A) (Q Q' : A → Prop) :
  (∀ a, Q a → Q' a) → succeeds I R m Q → succeeds I R m Q'.
Proof.
  intros HQ Hm s Hs. destruct (Hm s Hs) as (a & s1 & Hs1 & Ha & HR).
  exists a, s1. auto.
Qed.

End SucceedsRules.

(** A [try] whose handler returns normally returns normally. *)
Lemma succeeds_handled {A} (R : State → State → Prop) `{!PreOrder R}
    (m : M A) (h : Exn → M A) :
  sat R m →
  (∀ e, succeeds (λ _, True) R (h e) (λ _, True)) →
  succeeds (λ _, True) R (try_except m h) (λ _, True).
Proof.
  intros Hm Hh s _. unfold try_except.
  destruct (Hm s) as ([a|e] & s1 & -> & HR).
  - by exists a, s1.
  - destruct (Hh e s1 I) as (b & s2 & Hs2 & _ & HR2).
    exists b, s2. split; [done|]. split; [done|]. by etrans.
Qed.

Lemma succeeds_log api c ks kr lvl msg :
  succeeds (λ _, True) (frame api c ks kr) (log lvl msg) (λ _, True).
Proof.
  intros s _. destruct (sat_log api c ks kr lvl msg s) as (r & s' & Hs & HR).
  exists tt, s'. split; [|done]. rewrite Hs. by injection Hs as <- _.
Qed.

(** * The executor's methods *)

Section TotalExecutor.
Context (env : Env) (scan_id : string) (config : Config).
Context (api : string → bool) (c : bool).

Lemma sat_initialize_scanner kr :
  sat (frame api c false kr) (_initialize_scanner env scan_id).
Proof.
  unfold _initialize_scanner. sat_go.
  all: try first [apply sat_init | apply sat_on_scanner, sat_start_container].
Qed.

Lemma sat_run_spider_scan ks target_url :
  forallb api spider_endpoints = true →
  sat (frame api c ks false) (_run_spider_scan env config target_url).
Proof.
  intros H. cbn in H. repeat (apply andb_prop in H as [? H]).
  unfold _run_spider_scan. sat_go.
  all: try first [ by apply sat_on_scanner, sat_spider_scan
                 | by apply sat_on_scanner, sat_wait_for_spider ].
Qed.

Lemma sat_run_ajax_spider_scan ks kr target_url :
  forallb api later_phase_endpoints = true →
  sat (frame api c ks kr) (_run_ajax_spider_scan env config target_url).
Proof.
  intros H. cbn in H. repeat (apply andb_prop in H as [? H]).
  unfold _run_ajax_spider_scan. sat_go.
  all: try by apply sat_on_scanner, sat_ajax_spider_scan.
Qed.

Lemma sat_poll_passive ks kr :
  forallb api later_phase_endpoints = true →
  sat (frame api c ks kr) (poll_passive env).
Proof.
  intros H. cbn in H. repeat (apply andb_prop in H as [? H]).
  unfold poll_passive. sat_go.
  all: try by apply sat_on_scanner, sat_get_scan_progress.
Qed.

Lemma sat_wait_for_passive_scan ks kr timeout :
  forallb api later_phase_endpoints = true →
  sat (frame api c ks kr) (_wait_for_passive_scan env timeout).
Proof.
  intros H. unfold _wait_for_passive_scan. sat_go.
  all: try by apply sat_poll_passive.
Qed.

Lemma sat_run_active_scan ks target_url :
  forallb api later_phase_endpoints = true →
  sat (frame api c ks false) (_run_active_scan env config target_url).
Proof.
  intros H. cbn in H. repeat (apply andb_prop in H as [? H]).
  unfold _run_active_scan. sat_go.
  all: try first [ by apply sat_on_scanner, sat_active_scan
                 | by apply sat_on_scanner, sat_wait_for_active_scan ].
Qed.

Lemma sat_collect ks kr target_url :
  forallb api later_phase_endpoints = true →
  sat (frame api c ks kr) (on_scanner (get_alerts env target_url)).
Proof.
  intros H. cbn in H. repeat (apply andb_prop in H as [? H]).
  by apply sat_on_scanner, sat_get_alerts.
Qed.

Lemma sat_execute_scan_try :
  (default true (cfg_spider_enabled config) = true →
   forallb api spider_endpoints = true) →
  forallb api later_phase_endpoints = true →
  sat (frame api c false false) (execute_scan_try env scan_id config).
Proof.
  intros Hsp Hph. unfold execute_scan_try.
  apply sat_bind; [apply _|apply sat_initialize_scanner|]. intros _.
  destruct (cfg_url config) as [[|ch url]|]; [apply sat_raise; apply _| |apply sat_raise; apply _].
  apply sat_bind; [apply _|apply sat_time_time; apply _|]. intros start_time.
  apply sat_bind; [apply _|apply sat_update_results|]. intros _.
  apply sat_bind; [apply _| |intros _].
  { destruct (default true (cfg_spider_enabled config));
      [apply sat_run_spider_scan; auto | apply sat_ret; apply _]. }
  apply sat_bind; [apply _| |intros _].
  { destruct (default false (cfg_ajax_enabled config));
      [by apply sat_run_ajax_spider_scan | apply sat_ret; apply _]. }
  apply sat_bind; [apply _|by apply sat_wait_for_passive_scan|]. intros _.
  apply sat_bind; [apply _| |intros _].
  { destruct (default true (cfg_active_enabled config));
      [by apply sat_run_active_scan | apply sat_ret; apply _]. }
  apply sat_bind; [apply _|by apply sat_collect|]. intros alerts.
  sat_go.
Qed.

Lemma sat_execute_scan_except ks e :
  sat (frame api c ks false) (execute_scan_except e).
Proof. unfold execute_scan_except. sat_go. Qed.

Lemma sat_execute_scan_primary :
  (default true (cfg_spider_enabled config) = true →
   forallb api spider_endpoints = true) →
  forallb api later_phase_endpoints = true →
  sat (frame api c false false) (execute_scan_primary env scan_id config).
Proof.
  intros Hsp Hph. apply sat_try_except; [apply _| |].
  - by apply sat_execute_scan_try.
  - intros e. apply sat_execute_scan_except.
Qed.

End TotalExecutor.

(** What [_cleanup] does after its entry: it returns normally, calls no
    engine endpoint but the shutdown request, and leaves the result record
    alone. *)
Lemma cleanup_steps env s :
  ∃ s' after,
    _cleanup env s = Some (Ok tt, s')
    ∧ trace s' = (after ++ EvCleanup :: trace s)%list
    ∧ forallb (allowed cleanup_api false) after = true
    ∧ scan_results s' = scan_results s
    ∧ now s ≤ now s'.
Proof.
  set (R := frame cleanup_api false false true).
  assert (Hrest : succeeds (λ _, True) R
            (z ← get_scanner;
             match z with
             | Some _ =>
                 try_except (save_logs env) (fun e => log ERROR (ErrorSavingLogs e));;
                 try_except
                   (on_scanner (shutdown env);; on_scanner (stop_container env))
                   (fun e => log ERROR (ErrorStoppingScanner e))
             | None => mret tt
             end) (λ _, True)).
  { intros s0 _. rewrite bind_eq. cbn [get_scanner].
    destruct (scanner s0) as [z|]; [|by exists tt, s0].
    apply (succeeds_bind (λ _, True) R (λ _ _ _ _, I) _ _ (λ _, True)); [| |done].
    - apply succeeds_handled; [apply _| |intros e; apply succeeds_log].
      unfold save_logs. sat_go.
      all: try apply sat_on_scanner, sat_get_container_logs.
    - intros _ _. apply succeeds_handled; [apply _| |intros e; apply succeeds_log].
      sat_go.
      all: try first [ by apply sat_on_scanner, sat_shutdown
                     | apply sat_on_scanner, sat_stop_container ]. }
  set (s1 := mkState (now s) (tick s) (EvCleanup :: trace s) (scanner s) (scan_results s)).
  unfold _cleanup. rewrite (bind_ok _ _ s tt s1) by reflexivity.
  destruct (Hrest s1 I) as ([] & s' & Hs' & _ & HR).
  destruct (frame_trace _ _ _ _ _ _ HR) as (after & Ht & Hall).
  exists s', after. repeat split; try done.
  - by rewrite (frame_results _ _ _ _ _ HR).
  - apply frame_now in HR. done.
Qed.

Lemma no_cleanup_allowed api evs :
  forallb (allowed api false) evs = true → List.filter is_cleanup evs = [].
Proof.
  induction evs as [|ev evs IH]; [done|]. cbn [forallb List.filter].
  intros [Hev Hall]%andb_prop. destruct ev; cbn in *; try done; by apply IH.
Qed.

(** C2. Whatever the environment and the configuration, [execute_scan]
    terminates; [_cleanup] is entered exactly once, after the primary
    outcome [r] of the scan (normal return or exception) is settled;
    [_cleanup] itself returns normally, so the outcome of [execute_scan] is
    [r], and the result record is the one the scan left. *)
Theorem execute_scan_cleanup_exactly_once (env : Env) (scan_id : string)
    (config : Config) (s : State) :
  ∃ r s1 s' before after,
    execute_scan_primary env scan_id config s = Some (r, s1)
    ∧ _cleanup env s1 = Some (Ok tt, s')
    ∧ execute_scan env scan_id config s = Some (r, s')
    ∧ get_scan_results s' = get_scan_results s1
    ∧ trace s1 = (before ++ trace s)%list
    ∧ trace s' = (after ++ EvCleanup :: before ++ trace s)%list
    ∧ List.filter is_cleanup (after ++ EvCleanup :: before) = [EvCleanup]
    ∧ forallb (allowed cleanup_api false) after = true.
Proof.
  destruct (sat_execute_scan_primary env scan_id config any_api false
              (λ _, eq_refl) eq_refl s) as (r & s1 & Hs1 & HR).
  destruct (frame_trace _ _ _ _ _ _ HR) as (before & Hb & Hball).
  destruct (cleanup_steps env s1) as (s' & after & Hc & Ha & Haall & Hres & _).
  exists r, s1, s', before, after.
  split; [done|]. split; [done|]. split.
  { change (execute_scan env scan_id config)
      with (try_finally (execute_scan_primary env scan_id config) (_cleanup env)).
    unfold try_finally. by rewrite Hs1, Hc. }
  split; [done|]. split; [done|]. split; [by rewrite Ha, Hb|].
  split; [|done].
  rewrite List.filter_app. cbn [List.filter is_cleanup].
  by rewrite (no_cleanup_allowed _ _ Haall), (no_cleanup_allowed _ _ Hball).
Qed.

(** * Poll loops against the engine's replies *)

Lemma elapsed_nonneg env interval t0 k : 0 ≤ interval → 0 ≤ elapsed env interval t0 k.
Proof.
  intros Hi. revert t0. induction k as [|k IH]; intros t0; cbn [elapsed]; [lia|].
  specialize (IH (S t0)). lia.
Qed.

Lemma elapsed_ge env interval t0 k : 1 ≤ interval → Z.of_nat k ≤ elapsed env interval t0 k.
Proof.
  intros Hi. revert t0. induction k as [|k IH]; intros t0; cbn [elapsed]; [lia|].
  specialize (IH (S t0)). lia.
Qed.

Lemma elapsed_mono env interval t0 j k :
  0 ≤ interval → (j ≤ k)%nat → elapsed env interval t0 j ≤ elapsed env interval t0 k.
Proof.
  intros Hi. revert t0 j. induction k as [|k IH]; intros t0 j Hjk.
  - assert (j = 0%nat) as -> by lia. done.
  - destruct j as [|j]; cbn [elapsed].
    + pose proof (elapsed_nonneg env interval (S t0) k Hi). lia.
    + specialize (IH (S t0) j). lia.
Qed.

Section PollLoop.
Context (env : Env) {A : Type} (attempt : M (option A)) (interval : Z).
Context (outcome : HttpReply → Res (option A)).
Context (I : State → Prop) (R : State → State → Prop) `{!PreOrder R}.
Context (Hinterval : 1 ≤ interval).
Context (Hattempt : ∀ s, I s →
  ∃ s', attempt s = Some (outcome (env_http env (tick s)), s')
        ∧ I s' ∧ R s s' ∧ after_call env s s').
Context (Hsleep : ∀ s s', I s → sleep interval s = Some (Ok tt, s') → I s' ∧ R s s').

(** An iteration whose attempt says "not yet". *)
Lemma iteration_round s :
  I s → outcome (env_http env (tick s)) = Ok None →
  ∃ s', iteration attempt interval s = Some (Ok None, s')
        ∧ I s' ∧ R s s'
        ∧ tick s' = S (tick s)
        ∧ now s' = now s + Z.of_nat (env_latency env (tick s)) + interval.
Proof.
  intros Hs Ho. destruct (Hattempt s Hs) as (s1 & Hs1 & HI1 & HR1 & Ht & Hn & _).
  rewrite Ho in Hs1.
  destruct (Hsleep s1 _ HI1 eq_refl) as [HI2 HR2].
  eexists. split; [|split; [exact HI2|split; [by etrans|]]].
  - unfold iteration. rewrite (bind_ok _ _ _ _ _ Hs1). reflexivity.
  - cbn. split; [done|]. lia.
Qed.

(** An iteration whose attempt leaves the loop, by a value or an
    exception. *)
Lemma iteration_leave s :
  I s → outcome (env_http env (tick s)) ≠ Ok None →
  ∃ s', attempt s = Some (outcome (env_http env (tick s)), s')
        ∧ iteration attempt interval s = Some (outcome (env_http env (tick s)), s')
        ∧ I s' ∧ R s s' ∧ after_call env s s'.
Proof.
  intros Hs Ho. destruct (Hattempt s Hs) as (s1 & Hs1 & HI1 & HR1 & Hac).
  exists s1. split; [done|]. split; [|done].
  unfold iteration. rewrite bind_eq, Hs1.
  by destruct (outcome (env_http env (tick s))) as [[a|]|e].
Qed.

(** The loop leaves at the first attempt that does not say "not yet",
    however many said so before, provided the deadline has not passed
    when that attempt starts. [sk] is the state in which it starts. *)
Lemma loop_first_leave (k : nat) : ∀ fuel s start_time timeout,
  I s → (k < fuel)%nat →
  (∀ j, (j < k)%nat → outcome (env_http env (tick s + j)) = Ok None) →
  outcome (env_http env (tick s + k)) ≠ Ok None →
  now s - start_time + elapsed env interval (tick s) k < timeout →
  ∃ sk s',
    while_deadline fuel start_time timeout (iteration attempt interval) s
      = Some (outcome (env_http env (tick s + k)), s')
    ∧ attempt sk = Some (outcome (env_http env (tick s + k)), s')
    ∧ I sk ∧ R s sk
    ∧ tick sk = (tick s + k)%nat
    ∧ now sk = now s + elapsed env interval (tick s) k
    ∧ I s' ∧ R s s' ∧ after_call env sk s'.
Proof.
  induction k as [|k IH]; intros fuel s start_time timeout Hs Hfuel Hbefore Hk Htime.
  - rewrite Nat.add_0_r in Hk |- *. cbn [elapsed] in Htime.
    destruct fuel as [|fuel]; [lia|]. cbn [while_deadline].
    rewrite (proj2 (Z.ltb_lt _ _)) by lia.
    destruct (iteration_leave s Hs Hk) as (s' & Ha & Hit & HI' & HR' & Hac).
    exists s, s'. rewrite Hit. cbn [elapsed].
    split; [by destruct (outcome _) as [[?|]|?]|].
    repeat split; try done; try lia. all: apply Hac.
  - destruct fuel as [|fuel]; [lia|]. cbn [while_deadline].
    pose proof (elapsed_nonneg env interval (tick s) (S k)) as Hnn.
    rewrite (proj2 (Z.ltb_lt _ _)) by lia.
    assert (H0 : outcome (env_http env (tick s)) = Ok None).
    { rewrite <- (Nat.add_0_r (tick s)). apply Hbefore. lia. }
    destruct (iteration_round s Hs H0) as (s1 & Hit & HI1 & HR1 & Ht1 & Hn1).
    rewrite Hit.
    cbn [elapsed] in Htime.
    destruct (IH fuel s1 start_time timeout HI1) as (sk & s' & Hw & Ha & HIk & HRk & Htk & Hnk & HI' & HR' & Hac).
    + lia.
    + intros j Hj. rewrite Ht1.
      replace (S (tick s) + j)%nat with (tick s + S j)%nat by lia.
      apply Hbefore. lia.
    + rewrite Ht1. by replace (S (tick s) + k)%nat with (tick s + S k)%nat by lia.
    + rewrite Hn1, Ht1. lia.
    + rewrite Ht1 in Hw, Ha, Htk, Hnk.
      replace (S (tick s) + k)%nat with (tick s + S k)%nat in * by lia.
      exists sk, s'. rewrite Hw.
      repeat split; try done.
      * by etrans.
      * cbn [elapsed]. lia.
      * by etrans.
      * apply Hac.
      * apply Hac.
      * apply Hac.
      * apply Hac.
Qed.

(** When every attempt made before the deadline says "not yet", the loop
    ends by its condition, after [k] iterations, the deadline passed. *)
Lemma loop_deadline : ∀ fuel s start_time timeout,
  I s →
  (∀ j, now s - start_time + elapsed env interval (tick s) j < timeout →
        outcome (env_http env (tick s + j)) = Ok None) →
  timeout - (now s - start_time) ≤ Z.of_nat fuel →
  ∃ s' k,
    while_deadline fuel start_time timeout (iteration attempt interval) s
      = Some (Ok None, s')
    ∧ I s' ∧ R s s'
    ∧ timeout ≤ now s' - start_time
    ∧ tick s' = (tick s + k)%nat
    ∧ now s' = now s + elapsed env interval (tick s) k
    ∧ (∀ j, (j < k)%nat →
         now s - start_time + elapsed env interval (tick s) j < timeout).
Proof.
  induction fuel as [|fuel IH]; intros s start_time timeout Hs Hnever Hfuel;
    cbn [while_deadline].
  - rewrite (proj2 (Z.ltb_ge _ _)) by lia.
    exists s, 0%nat. cbn [elapsed]. split_and!; try done; lia.
  - destruct (Z.ltb_spec (now s - start_time) timeout) as [Hlt|Hge].
    + assert (H0 : outcome (env_http env (tick s)) = Ok None).
      { rewrite <- (Nat.add_0_r (tick s)). apply Hnever. cbn [elapsed]. lia. }
      destruct (iteration_round s Hs H0) as (s1 & Hit & HI1 & HR1 & Ht1 & Hn1).
      rewrite Hit.
      destruct (IH s1 start_time timeout HI1)
        as (s' & k & Hw & HI' & HR' & Hend & Htk & Hnk & Hlast).
      * intros j Hj. rewrite Ht1.
        replace (S (tick s) + j)%nat with (tick s + S j)%nat by lia.
        apply Hnever. cbn [elapsed]. rewrite Hn1, Ht1 in Hj. lia.
      * rewrite Hn1. lia.
      * exists s', (S k). rewrite Hw. split_and!; try done.
        -- by etrans.
        -- rewrite Htk, Ht1. lia.
        -- cbn [elapsed]. rewrite Hnk, Hn1, Ht1. lia.
        -- intros [|j] Hj; cbn [elapsed]; [lia|].
           specialize (Hlast j ltac:(lia)). rewrite Hn1, Ht1 in Hlast. lia.
    + exists s, 0%nat. cbn [elapsed]. split_and!; try done; lia.
Qed.

(** When no reply makes the attempt raise, the loop returns normally. *)
Lemma loop_returns : ∀ fuel s start_time timeout,
  (∀ h, ∃ o, outcome h = Ok o) →
  I s →
  timeout - (now s - start_time) ≤ Z.of_nat fuel →
  ∃ o s',
    while_deadline fuel start_time timeout (iteration attempt interval) s
      = Some (Ok o, s')
    ∧ I s' ∧ R s s'.
Proof.
  intros fuel s start_time timeout Hok. revert s.
  induction fuel as [|fuel IH]; intros s Hs Hfuel; cbn [while_deadline].
  - rewrite (proj2 (Z.ltb_ge _ _)) by lia. by exists None, s.
  - destruct (Z.ltb_spec (now s - start_time) timeout) as [Hlt|Hge];
      [|by exists None, s].
    destruct (Hok (env_http env (tick s))) as ([a|] & Ho).
    + destruct (iteration_leave s Hs) as (s' & _ & Hit & HI' & HR' & _);
        [by rewrite Ho|].
      rewrite Hit, Ho. by exists (Some a), s'.
    + destruct (iteration_round s Hs Ho) as (s1 & Hit & HI1 & HR1 & Ht1 & Hn1).
      rewrite Hit.
      destruct (IH s1 HI1) as (o & s' & Hw & HI' & HR'); [lia|].
      exists o, s'. split_and!; try done. by etrans.
Qed.

(** The same for [poll_until], which reads the start time itself. *)
Lemma poll_first_leave (k : nat) s timeout :
  I s →
  (∀ j, (j < k)%nat → outcome (env_http env (tick s + j)) = Ok None) →
  outcome (env_http env (tick s + k)) ≠ Ok None →
  elapsed env interval (tick s) k < timeout →
  ∃ sk s',
    poll_until timeout attempt interval s
      = Some (outcome (env_http env (tick s + k)), s')
    ∧ attempt sk = Some (outcome (env_http env (tick s + k)), s')
    ∧ I sk ∧ R s sk
    ∧ tick sk = (tick s + k)%nat
    ∧ now sk = now s + elapsed env interval (tick s) k
    ∧ I s' ∧ R s s' ∧ after_call env sk s'.
Proof.
  intros Hs Hbefore Hk Htime.
  unfold poll_until. rewrite bind_eq. cbn [time_time].
  apply loop_first_leave; try done.
  - pose proof (elapsed_ge env interval (tick s) k Hinterval). lia.
  - lia.
Qed.

Lemma poll_deadline s timeout :
  I s →
  (∀ j, elapsed env interval (tick s) j < timeout →
        outcome (env_http env (tick s + j)) = Ok None) →
  ∃ s' k,
    poll_until timeout attempt interval s = Some (Ok None, s')
    ∧ I s' ∧ R s s'
    ∧ timeout ≤ now s' - now s
    ∧ tick s' = (tick s + k)%nat
    ∧ now s' = now s + elapsed env interval (tick s) k
    ∧ (∀ j, (j < k)%nat → elapsed env interval (tick s) j < timeout).
Proof.
  intros Hs Hnever.
  unfold poll_until. rewrite bind_eq. cbn [time_time].
  destruct (loop_deadline (Z.to_nat timeout) s (now s) timeout Hs)
    as (s' & k & Hw & HI' & HR' & Hend & Htk & Hnk & Hlast).
  - intros j Hj. apply Hnever. lia.
  - lia.
  - exists s', k. split_and!; try done.
    intros j Hj. specialize (Hlast j Hj). lia.
Qed.

Lemma poll_returns s timeout :
  (∀ h, ∃ o, outcome h = Ok o) →
  I s →
  ∃ o s', poll_until timeout attempt interval s = Some (Ok o, s') ∧ I s' ∧ R s s'.
Proof.
  intros Hok Hs. unfold poll_until. rewrite bind_eq. cbn [time_time].
  apply loop_returns; try done. lia.
Qed.

End PollLoop.

(** * One poll, as a function of the engine's reply *)

Lemma self_get_ready {A} (f : ZAPScannerObj → A) s z :
  scanner s = Some z → self_get f s = Some (Ok (f z), s).
Proof. intros Hz. unfold self_get. rewrite bind_eq. cbn [get_scanner]. by rewrite Hz. Qed.

Lemma on_scanner_ready {A} (m : M A) s : ready s → on_scanner m s = m s.
Proof.
  intros (z & u & Hz & _). unfold on_scanner. rewrite bind_eq. cbn [get_scanner].
  by rewrite Hz.
Qed.

Lemma sleep_ready api c n s s' :
  0 ≤ n → ready s → sleep n s = Some (Ok tt, s') →
  ready s' ∧ frame api c true true s s'.
Proof.
  intros Hn Hs Hsl.
  destruct (sat_sleep api c true true n Hn s) as (r & s1 & H1 & HR).
  rewrite Hsl in H1. injection H1 as <- <-.
  split; [by eapply frame_ready|done].
Qed.

Section Steps.
Context (env : Env) (api : string → bool) (c : bool).

Lemma called_after op s : after_call env s (called env op s).
Proof. by repeat split. Qed.

Lemma called_frame op s :
  allowed api c (EvOp op) = true → frame api c true true s (called env op s).
Proof.
  intros H. apply (frame_cons api c true true (EvOp op)); cbn; try done; lia.
Qed.

Lemma called_ready op s : ready s → ready (called env op s).
Proof. intros (z & u & Hz & Hu). by exists z, u. Qed.

Lemma api_call_step endpoint s :
  ready s → is_substring "/other/" endpoint = false →
  _api_call env endpoint s
  = Some (api_outcome (env_http env (tick s)), called env (HttpApi endpoint) s).
Proof.
  intros (z & u & Hz & Hu & Hne) Hother. unfold _api_call.
  rewrite (bind_ok _ _ _ _ _ (self_get_ready zap_url s z Hz)).
  rewrite Hu. cbn [from_option py_truthy].
  apply String.eqb_neq in Hne. rewrite Hne. cbn [negb]. rewrite Hother.
  unfold requests_get, api_outcome. rewrite !bind_eq. cbn [external].
  destruct (env_http env (tick s)) as [e|status_code text json]; [done|].
  cbn. destruct (raise_for_status status_code); [|done].
  cbn. by destruct json.
Qed.

Lemma poll_status_step endpoint s :
  ready s → is_substring "/other/" endpoint = false →
  poll_status env endpoint s
  = Some (status_outcome (env_http env (tick s)), called env (HttpApi endpoint) s).
Proof.
  intros Hs Hother. unfold poll_status, status_outcome.
  rewrite bind_eq, (api_call_step _ _ Hs Hother).
  destruct (api_outcome (env_http env (tick s))) as [response|e]; [|done].
  cbn. rewrite bind_eq. cbn [lift_res].
  destruct (response_get response "status" (JS (PInt 0))) as [x|e]; [|done].
  cbn. rewrite bind_eq. cbn [lift_res].
  destruct (jval_int x) as [n|e]; [|done].
  cbn. by destruct (n >=? 100).
Qed.

Lemma probe_version_step s :
  probe_version env s
  = Some (probe_outcome (env_http env (tick s)), called env HttpProbe s).
Proof.
  unfold probe_version, try_except_class, try_except, requests_get, probe_outcome.
  rewrite !bind_eq. cbn [external].
  destruct (env_http env (tick s)) as [e|status_code text json].
  - cbn. by case_decide.
  - cbn. destruct (status_code =? 200); [|done].
    rewrite bind_eq. cbn [lift_res]. destruct json as [body|e]; [done|].
    by case_decide.
Qed.

(** [get_scan_progress] never raises: a failed call, or a count that is
    not a number, gives the record [(0, False)] and an error record. *)
Lemma get_scan_progress_step s :
  ready s →
  ∃ logs,
    get_scan_progress env s
    = Some (Ok (progress_of_reply (env_http env (tick s))),
            mkState (now s + Z.of_nat (env_latency env (tick s))) (S (tick s))
              (logs ++ EvOp (HttpApi "pscan/view/recordsToScan/") :: trace s)%list
              (scanner s) (scan_results s))
    ∧ (passive_scan_complete (progress_of_reply (env_http env (tick s))) = true →
       logs = [])
    ∧ (api_fails (env_http env (tick s)) = true →
       progress_of_reply (env_http env (tick s)) = mkProgress 0 false
       ∧ ∃ e, api_outcome (env_http env (tick s)) = Raise e
              ∧ logs = [EvLog ERROR (ErrorGettingProgress e)])
    ∧ forallb (allowed api c) logs = true.
Proof.
  intros Hs. unfold get_scan_progress, try_except.
  rewrite bind_eq, (api_call_step "pscan/view/recordsToScan/" s Hs eq_refl).
  unfold api_outcome, progress_of_reply, api_fails.
  destruct (env_http env (tick s)) as [e|status_code text json].
  - exists [EvLog ERROR (ErrorGettingProgress e)]. cbn.
    repeat split; try done. by exists e.
  - destruct (raise_for_status status_code) as [[]|e].
    + destruct json as [body|e].
      * cbn. rewrite bind_eq. cbn [lift_res response_get].
        destruct (jval_int (dict_get body "recordsToScan" (JS (PInt 0)))) as [n|e].
        -- exists []. cbn. repeat split; try done.
        -- exists [EvLog ERROR (ErrorGettingProgress e)]. cbn.
           repeat split; try done.
      * exists [EvLog ERROR (ErrorGettingProgress e)]. cbn.
        repeat split; try done. by exists e.
    + exists [EvLog ERROR (ErrorGettingProgress e)]. cbn.
      repeat split; try done. by exists e.
Qed.

Lemma poll_passive_step s :
  api "pscan/view/recordsToScan/" = true →
  ready s →
  ∃ s', poll_passive env s = Some (passive_outcome (env_http env (tick s)), s')
        ∧ ready s' ∧ frame api c true true s s' ∧ after_call env s s'
        ∧ (passive_scan_complete (progress_of_reply (env_http env (tick s))) = true →
           trace s' = EvOp (HttpApi "pscan/view/recordsToScan/") :: trace s).
Proof.
  intros Hapi Hs. destruct (get_scan_progress_step s Hs) as (logs & Hg & Hzero & _ & Hall).
  eexists. split; [|split; [|split; [|split]]].
  - unfold poll_passive. rewrite bind_eq, (on_scanner_ready _ _ Hs), Hg.
    unfold passive_outcome.
    by destruct (passive_scan_complete (progress_of_reply (env_http env (tick s)))).
  - destruct Hs as (z & u & Hz & Hu). by exists z, u.
  - split; [|cbn; repeat split; try done; lia].
    exists (logs ++ [EvOp (HttpApi "pscan/view/recordsToScan/")])%list. cbn [trace].
    split; [by rewrite <- app_assoc|].
    rewrite forallb_app, Hall. cbn. by rewrite Hapi.
  - by repeat split.
  - intros Hc. cbn [trace]. by rewrite (Hzero Hc).
Qed.

End Steps.

(** * The passive wait *)

Section PassiveWait.
Context (env : Env).

Let R := frame any_api true true true.

Lemma passive_outcome_round h :
  passive_scan_complete (progress_of_reply h) = false → passive_outcome h = Ok None.
Proof. intros H. unfold passive_outcome. by rewrite H. Qed.

Lemma passive_outcome_leave h :
  passive_scan_complete (progress_of_reply h) = true →
  passive_outcome h = Ok (Some tt).
Proof. intros H. unfold passive_outcome. by rewrite H. Qed.

Lemma poll_passive_attempt s :
  ready s →
  ∃ s', poll_passive env s = Some (passive_outcome (env_http env (tick s)), s')
        ∧ ready s' ∧ R s s' ∧ after_call env s s'.
Proof.
  intros Hs. destruct (poll_passive_step env any_api true s eq_refl Hs)
    as (s' & H1 & H2 & H3 & H4 & _).
  by exists s'.
Qed.

Lemma passive_sleep s s' :
  ready s → sleep 5 s = Some (Ok tt, s') → ready s' ∧ R s s'.
Proof. apply sleep_ready. lia. Qed.

(** The wait returns at the first poll that reads zero; [sk] is the state
    in which that poll is made, [s'] the state it leaves, in which the
    wait returns: nothing is done after the poll. *)
Lemma passive_wait_first_zero s (k : nat) timeout :
  ready s →
  (∀ j, (j < k)%nat →
     passive_scan_complete (progress_of_reply (env_http env (tick s + j))) = false) →
  passive_scan_complete (progress_of_reply (env_http env (tick s + k))) = true →
  elapsed env 5 (tick s) k < timeout →
  ∃ sk s',
    _wait_for_passive_scan env timeout s = Some (Ok tt, s')
    ∧ tick sk = (tick s + k)%nat
    ∧ now sk = now s + elapsed env 5 (tick s) k
    ∧ trace s' = EvOp (HttpApi "pscan/view/recordsToScan/") :: trace sk
    ∧ after_call env sk s'
    ∧ ready s' ∧ R s sk ∧ R s s'.
Proof.
  intros Hs Hbefore Hzero Htime.
  destruct (poll_first_leave env (poll_passive env) 5 passive_outcome ready R
              ltac:(lia) poll_passive_attempt passive_sleep k s timeout Hs)
    as (sk & s' & Hp & Ha & HIk & HRk & Htk & Hnk & HI' & HR' & Hac); try done.
  - intros j Hj. by apply passive_outcome_round, Hbefore.
  - by rewrite (passive_outcome_leave _ Hzero).
  - rewrite (passive_outcome_leave _ Hzero) in Hp, Ha.
    exists sk, s'. split_and!; try done.
    + unfold _wait_for_passive_scan. by rewrite (bind_ok _ _ _ _ _ Hp).
    + destruct (poll_passive_step env any_api true sk eq_refl HIk)
        as (s2 & H1 & _ & _ & _ & Htr).
      rewrite Ha in H1. injection H1 as _ <-. apply Htr. by rewrite Htk.
Qed.

(** When no poll made before the deadline reads zero, the wait ends with
    the timeout warning and returns normally. *)
Lemma passive_wait_deadline s timeout :
  ready s →
  (∀ j, elapsed env 5 (tick s) j < timeout →
     passive_scan_complete (progress_of_reply (env_http env (tick s + j))) = false) →
  ∃ s1 s' k,
    _wait_for_passive_scan env timeout s = Some (Ok tt, s')
    ∧ trace s' = EvLog WARNING PassiveScanTimeout :: trace s1
    ∧ timeout ≤ now s' - now s
    ∧ tick s' = (tick s + k)%nat
    ∧ now s' = now s + elapsed env 5 (tick s) k
    ∧ (∀ j, (j < k)%nat → elapsed env 5 (tick s) j < timeout)
    ∧ ready s' ∧ R s s1 ∧ R s s'.
Proof.
  intros Hs Hnever.
  destruct (poll_deadline env (poll_passive env) 5 passive_outcome ready R
              ltac:(lia) poll_passive_attempt passive_sleep s timeout Hs)
    as (s1 & k & Hp & HI1 & HR1 & Hend & Htk & Hnk & Hlast).
  { intros j Hj. by apply passive_outcome_round, Hnever. }
  destruct (sat_log any_api true true true WARNING PassiveScanTimeout s1)
    as (r & s' & Hl & HRl).
  assert (r = Ok tt ∧ s' = mkState (now s1) (tick s1)
            (EvLog WARNING PassiveScanTimeout :: trace s1) (scanner s1) (scan_results s1))
    as [-> ->] by (by injection Hl as <- <-).
  exists s1, (mkState (now s1) (tick s1)
               (EvLog WARNING PassiveScanTimeout :: trace s1) (scanner s1) (scan_results s1)), k.
  split_and!; try done.
  - unfold _wait_for_passive_scan. rewrite (bind_ok _ _ _ _ _ Hp). exact Hl.
  - by etrans.
Qed.

End PassiveWait.

Lemma api_fails_progress h :
  api_fails h = true → progress_of_reply h = mkProgress 0 false.
Proof.
  unfold api_fails, progress_of_reply. destruct h as [e|st text json]; [done|].
  destruct (raise_for_status st); [|done]. by destruct json.
Qed.

Lemma elapsed_before_deadline env interval t0 j k timeout :
  0 ≤ interval → timeout ≤ elapsed env interval t0 k →
  elapsed env interval t0 j < timeout → (j < k)%nat.
Proof.
  intros Hi Hk Hj. destruct (decide (j < k)%nat); [done|].
  pose proof (elapsed_mono env interval t0 k j Hi). lia.
Qed.

(** C9. When the engine call of [get_scan_progress] raises, the method
    returns [(0, False)], with an error record, and does not raise.  So in
    the passive wait [k] failed polls in a row end nothing: if the next
    poll is a successful zero reading made before the deadline, the wait
    returns right after that poll, the [k + 1]st; and if the [k] failures
    fill the timeout, the wait ends with the timeout warning, never as
    completed. *)
Theorem passive_wait_ignores_api_failure (env : Env) (s : State) (k : nat) :
  ready s →
  (∀ j, (j < k)%nat → api_fails (env_http env (tick s + j)) = true) →
  (∀ s0 e s1, ready s0 →
     _api_call env "pscan/view/recordsToScan/" s0 = Some (Raise e, s1) →
     get_scan_progress env s0
     = Some (Ok (mkProgress 0 false),
             mkState (now s1) (tick s1)
               (EvLog ERROR (ErrorGettingProgress e) :: trace s1)
               (scanner s1) (scan_results s1)))
  ∧ (passive_scan_complete (progress_of_reply (env_http env (tick s + k))) = true →
     elapsed env 5 (tick s) k < 300 →
     ∃ sk s',
       _wait_for_passive_scan env 300 s = Some (Ok tt, s')
       ∧ tick sk = (tick s + k)%nat
       ∧ tick s' = S (tick s + k)
       ∧ trace s' = EvOp (HttpApi "pscan/view/recordsToScan/") :: trace sk)
  ∧ (300 ≤ elapsed env 5 (tick s) k →
     ∃ s1 s' n,
       _wait_for_passive_scan env 300 s = Some (Ok tt, s')
       ∧ trace s' = EvLog WARNING PassiveScanTimeout :: trace s1
       ∧ (n ≤ k)%nat ∧ tick s' = (tick s + n)%nat
       ∧ 300 ≤ now s' - now s).
Proof.
  intros Hs Hfail. split; [|split].
  - intros s0 e s1 Hs0 Hcall.
    unfold get_scan_progress, try_except. by rewrite (bind_raise _ _ _ _ _ Hcall).
  - intros Hzero Htime.
    destruct (passive_wait_first_zero env s k 300 Hs) as (sk & s' & Hw & Htk & _ & Htr & Hac & _);
      try done.
    { intros j Hj. by rewrite (api_fails_progress _ (Hfail j Hj)). }
    exists sk, s'. split_and!; try done.
    destruct Hac as (Ht & _). by rewrite Ht, Htk.
  - intros Hfull.
    destruct (passive_wait_deadline env s 300 Hs)
      as (s1 & s' & n & Hw & Htr & Hend & Htk & Hnk & Hlast & _).
    { intros j Hj. rewrite (api_fails_progress _); [done|].
      apply Hfail. eapply elapsed_before_deadline; [|done..]. lia. }
    exists s1, s', n. split_and!; try done.
    destruct (decide (n ≤ k)%nat); [done|].
    specialize (Hlast k ltac:(lia)). lia.
Qed.

(** * Starting the scanner *)

Lemma try_except_ok {A} (m : M A) (h : Exn → M A) s a s1 :
  m s = Some (Ok a, s1) → try_except m h s = Some (Ok a, s1).
Proof. intros H. unfold try_except. by rewrite H. Qed.

Lemma try_except_raise {A} (m : M A) (h : Exn → M A) s e s1 :
  m s = Some (Raise e, s1) → try_except m h s = h e s1.
Proof. intros H. unfold try_except. by rewrite H. Qed.

(** The first step of a [try] body returned normally: the [try] goes on
    with the rest. *)
Lemma try_except_bind_ok {A B} (m : M A) (f : A → M B) (h : Exn → M B) s a s1 :
  m s = Some (Ok a, s1) → try_except (m ≫= f) h s = try_except (f a) h s1.
Proof. intros H. unfold try_except. by rewrite (bind_ok _ _ _ _ _ H). Qed.

Section Externals.
Context (env : Env).

Lemma external_unit_ok op reply s :
  reply env (tick s) = None →
  external_unit env op reply s = Some (Ok tt, called env op s).
Proof. intros H. unfold external_unit. rewrite bind_eq. cbn [external]. by rewrite H. Qed.

Lemma external_unit_raise op reply s e :
  reply env (tick s) = Some e →
  external_unit env op reply s = Some (Raise e, called env op s).
Proof. intros H. unfold external_unit. rewrite bind_eq. cbn [external]. by rewrite H. Qed.

Lemma external_res_eq {A} op (reply : Env → nat → Res A) s :
  external_res env op reply s = Some (reply env (tick s), called env op s).
Proof. unfold external_res. rewrite bind_eq. by cbn [external]. Qed.

End Externals.

Lemma probe_refused_outcome h : probe_refused h = true → probe_outcome h = Ok None.
Proof.
  unfold probe_refused, probe_outcome. destruct h as [e|st text json].
  - intros H%bool_decide_eq_true. by rewrite decide_True.
  - intros H%negb_true_iff. by rewrite H.
Qed.

Section Readiness.
Context (env : Env).

Let R := frame no_api false true true.

Lemma probe_attempt s :
  True →
  ∃ s', probe_version env s = Some (probe_outcome (env_http env (tick s)), s')
        ∧ True ∧ R s s' ∧ after_call env s s'.
Proof.
  intros _. exists (called env HttpProbe s).
  split; [apply probe_version_step|]. split; [done|].
  split; [by apply called_frame|apply called_after].
Qed.

Lemma probe_sleep s s' : True → sleep 2 s = Some (Ok tt, s') → True ∧ R s s'.
Proof.
  intros _ Hsl. split; [done|].
  destruct (sat_sleep no_api false true true 2 ltac:(lia) s) as (r & s1 & H1 & HR).
  rewrite Hsl in H1. by injection H1 as <- <-.
Qed.

(** No probe answered before the deadline: the wait raises the timeout
    error, having made no engine call. *)
Lemma wait_for_zap_refused s :
  (∀ j, elapsed env 2 (tick s) j < 120 →
        probe_refused (env_http env (tick s + j)) = true) →
  ∃ s', _wait_for_zap env 120 s = Some (Raise readiness_timeout_error, s')
        ∧ R s s' ∧ 120 ≤ now s' - now s.
Proof.
  intros Hrefused.
  destruct (poll_deadline env (probe_version env) 2 probe_outcome (λ _, True) R
              ltac:(lia) probe_attempt probe_sleep s 120 I)
    as (s' & k & Hp & _ & HR & Hend & _).
  { intros j Hj. by apply probe_refused_outcome, Hrefused. }
  exists s'. split; [|done].
  unfold _wait_for_zap. by rewrite (bind_ok _ _ _ _ _ Hp).
Qed.

(** The first probe is answered: the wait returns at once. *)
Lemma wait_for_zap_ready s :
  probe_outcome (env_http env (tick s)) = Ok (Some tt) →
  _wait_for_zap env 120 s = Some (Ok tt, called env HttpProbe s).
Proof.
  intros Hready.
  destruct (poll_first_leave env (probe_version env) 2 probe_outcome (λ _, True) R
              ltac:(lia) probe_attempt probe_sleep 0 s 120 I)
    as (sk & s' & Hp & Ha & _ & _ & Htk & Hnk & _).
  - intros j Hj. lia.
  - rewrite Nat.add_0_r, Hready. done.
  - cbn. lia.
  - rewrite Nat.add_0_r, Hready in Hp.
    unfold _wait_for_zap. rewrite (bind_ok _ _ _ _ _ Hp).
    unfold poll_until in Hp. rewrite bind_eq in Hp. cbn [time_time] in Hp.
    change (Z.to_nat 120) with (S (Z.to_nat 119)) in Hp.
    cbn [while_deadline] in Hp.
    rewrite (proj2 (Z.ltb_lt _ _)) in Hp by lia.
    unfold iteration in Hp. rewrite bind_eq, probe_version_step, Hready in Hp.
    cbn in Hp. by injection Hp as <-.
Qed.

End Readiness.

Section Initialize.
Context (env : Env) (scan_id : string).

(** The [except] clause of [start_container]. *)
Let start_failed (e : Exn) : M string :=
  log ERROR (FailedToStartContainer e);; raise e.

(** The look-up and removal of an old container, when it does not fail. *)
Lemma old_container_removed s w :
  container_start env (tick s) = Some w →
  ∃ s1, try_except_class DockerNotFound
          (external_unit env (ContainersGet ("amtd-zap-" ++ scan_id)) env_containers_get;;
           external_unit env (ContainerRemove true) env_remove)
          (mret tt) s = Some (Ok tt, s1)
        ∧ is_ok (env_containers_run env (tick s1)) = true
        ∧ w = S (tick s1)
        ∧ frame no_api false true true s s1.
Proof.
  unfold container_start, try_except_class. intros Hw.
  set (get := ContainersGet ("amtd-zap-" ++ scan_id)).
  destruct (env_containers_get env (tick s)) as [e|] eqn:Hget.
  - case_decide as Hcls; [|done].
    exists (called env get s).
    rewrite (try_except_raise _ _ s e (called env get s)).
    2:{ apply bind_raise. by apply external_unit_raise. }
    rewrite decide_True by done.
    destruct (is_ok (env_containers_run env (S (tick s)))) eqn:Hrun; [|done].
    injection Hw as <-. split_and!; try done. by apply called_frame.
  - assert (Hg : external_unit env get env_containers_get s
                 = Some (Ok tt, called env get s)) by (by apply external_unit_ok).
    assert (Hf : frame no_api false true true s
                   (called env (ContainerRemove true) (called env get s))).
    { etrans; by apply called_frame. }
    exists (called env (ContainerRemove true) (called env get s)).
    destruct (env_remove env (S (tick s))) as [e|] eqn:Hrm.
    + case_decide as Hcls; [|done].
      rewrite (try_except_raise _ _ s e
                 (called env (ContainerRemove true) (called env get s))).
      2:{ rewrite (bind_ok _ _ _ _ _ Hg). by apply external_unit_raise. }
      rewrite decide_True by done.
      destruct (is_ok (env_containers_run env (S (S (tick s))))) eqn:Hrun; [|done].
      injection Hw as <-. by split_and!.
    + rewrite (try_except_ok _ _ s tt
                 (called env (ContainerRemove true) (called env get s))).
      2:{ rewrite (bind_ok _ _ _ _ _ Hg). by apply external_unit_ok. }
      destruct (is_ok (env_containers_run env (S (S (tick s))))) eqn:Hrun; [|done].
      injection Hw as <-. by split_and!.
Qed.

(** When the Docker steps succeed, [start_container] comes to its
    readiness wait in a state [s1] where the scanner knows its address. *)
Lemma start_container_run s z w :
  scanner s = Some z →
  container_start env (tick s) = Some w →
  ∃ s1 container_id,
    start_container env scan_id s
    = try_except (_wait_for_zap env 120;; mret container_id) start_failed s1
    ∧ tick s1 = w ∧ ready s1
    ∧ frame no_api false false true s s1.
Proof.
  intros Hz Hw.
  destruct (old_container_removed s w Hw) as (sa & Hold & Hrun & -> & Hfa).
  destruct (env_containers_run env (tick sa)) as [cid|e] eqn:Hcid; [|done].
  set (name := "amtd-zap-" ++ scan_id).
  set (url := "http://" ++ name ++ ":" ++ pretty zap_port).
  set (sb := called env (ContainersRun name) sa).
  set (sc := mkState (now sb) (tick sb) (trace sb)
               (Some (mkZAPScannerObj (Some cid) (Some url))) (scan_results sb)).
  exists sc, cid.
  assert (Hza : scanner sa = Some z) by (by rewrite (frame_scanner _ _ _ _ _ Hfa)).
  split; [|split_and!].
  - unfold start_container. fold name. fold start_failed.
    rewrite (try_except_bind_ok _ _ _ s tt sa Hold).
    rewrite (try_except_bind_ok _ _ _ sa cid sb).
    2:{ rewrite external_res_eq. by rewrite Hcid. }
    rewrite (try_except_bind_ok _ _ _ sb tt
               (mkState (now sb) (tick sb) (trace sb)
                  (Some (mkZAPScannerObj (Some cid) (zap_url z))) (scan_results sb))).
    2:{ unfold self_set. rewrite bind_eq. cbn [get_scanner]. cbn [sb called scanner].
        by rewrite Hza. }
    rewrite (try_except_bind_ok _ _ _ _ tt sc); [done|].
    unfold self_set. rewrite bind_eq. by cbn.
  - done.
  - exists (mkZAPScannerObj (Some cid) (Some url)), url. by split_and!.
  - eapply (frame_trans _ _ _ _ _ sa).
    { eapply frame_weaken; [..|exact Hfa]; done. }
    eapply (frame_trans _ _ _ _ _ sb).
    { eapply frame_weaken; [..|by apply (called_frame env no_api false)]; done. }
    split; [by exists []|]. cbn. split_and!; try done; lia.
Qed.

(** The same from the start of [_initialize_scanner]. *)
Lemma initialize_scanner_run s w :
  readiness_start env (tick s) = Some w →
  ∃ s1 container_id,
    _initialize_scanner env scan_id s
    = (try_except (_wait_for_zap env 120;; mret container_id) start_failed
         ≫= λ _, mret tt) s1
    ∧ tick s1 = w ∧ ready s1
    ∧ frame no_api false false true s s1.
Proof.
  unfold readiness_start. intros Hw.
  destruct (env_from_env env (tick s)) as [e|] eqn:Hfrom; [done|].
  set (sa := called env DockerFromEnv s).
  set (sb := mkState (now sa) (tick sa) (trace sa)
               (Some (mkZAPScannerObj None None)) (scan_results sa)).
  destruct (start_container_run sb (mkZAPScannerObj None None) w eq_refl Hw)
    as (s1 & cid & Hstart & Htick & Hready & Hframe).
  exists s1, cid. split; [|split_and!; try done].
  - unfold _initialize_scanner.
    rewrite (bind_ok _ _ s (mkZAPScannerObj None None) sa).
    2:{ unfold __init__. by rewrite (bind_ok _ _ _ _ _ (external_unit_ok env _ _ s Hfrom)). }
    rewrite (bind_ok _ _ sa tt sb) by done.
    rewrite bind_eq. unfold on_scanner at 1. rewrite bind_eq. cbn [get_scanner sb scanner].
    fold sb. rewrite Hstart. by rewrite bind_eq.
  - eapply (frame_trans _ _ _ _ _ sa).
    { eapply frame_weaken; [..|by apply (called_frame env no_api false)]; done. }
    eapply (frame_trans _ _ _ _ _ sb); [|done].
    split; [by exists []|]. cbn. split_and!; try done; lia.
Qed.

(** Docker worked and no probe was answered in time: initialisation
    raises the timeout error. *)
Lemma initialize_scanner_timeout s w :
  readiness_start env (tick s) = Some w →
  (∀ j, elapsed env 2 w j < 120 → probe_refused (env_http env (w + j)) = true) →
  ∃ s',
    _initialize_scanner env scan_id s = Some (Raise readiness_timeout_error, s')
    ∧ frame no_api false false true s s'.
Proof.
  intros Hw Hrefused.
  destruct (initialize_scanner_run s w Hw) as (s1 & cid & Hinit & <- & Hready & Hf1).
  destruct (wait_for_zap_refused env s1 Hrefused) as (s2 & Hwait & Hf2 & _).
  exists (logged ERROR (FailedToStartContainer readiness_timeout_error) s2).
  split.
  - rewrite Hinit. apply bind_raise.
    rewrite (try_except_raise _ _ s1 readiness_timeout_error s2).
    2:{ by apply bind_raise. }
    done.
  - etrans; [exact Hf1|]. etrans.
    { eapply frame_weaken; [..|exact Hf2]; done. }
    apply (frame_cons _ _ _ _ (EvLog ERROR (FailedToStartContainer readiness_timeout_error)));
      done.
Qed.

(** Docker worked and the first probe was answered: initialisation
    returns, the scanner is ready. *)
Lemma initialize_scanner_ready s w :
  readiness_start env (tick s) = Some w →
  probe_outcome (env_http env w) = Ok (Some tt) →
  ∃ s',
    _initialize_scanner env scan_id s = Some (Ok tt, s')
    ∧ ready s' ∧ tick s' = S w
    ∧ frame no_api false false true s s'.
Proof.
  intros Hw Hprobe.
  destruct (initialize_scanner_run s w Hw) as (s1 & cid & Hinit & <- & Hready & Hf1).
  exists (called env HttpProbe s1). split; [|split_and!].
  - rewrite Hinit.
    rewrite (bind_ok _ _ s1 cid (called env HttpProbe s1)); [done|].
    apply try_except_ok.
    by rewrite (bind_ok _ _ _ _ _ (wait_for_zap_ready env s1 Hprobe)).
  - by apply called_ready.
  - done.
  - etrans; [exact Hf1|].
    eapply frame_weaken; [..|by apply (called_frame env no_api false)]; done.
Qed.

End Initialize.

(** * A scanner that never becomes ready *)

Lemma start_container_timeout env scan_id s z w :
  scanner s = Some z →
  container_start env (tick s) = Some w →
  (∀ j, elapsed env 2 w j < 120 → probe_refused (env_http env (w + j)) = true) →
  ∃ s', start_container env scan_id s = Some (Raise readiness_timeout_error, s').
Proof.
  intros Hz Hw Hrefused.
  destruct (start_container_run env scan_id s z w Hz Hw) as (s1 & cid & Hstart & <- & _).
  destruct (wait_for_zap_refused env s1 Hrefused) as (s2 & Hwait & _).
  exists (logged ERROR (FailedToStartContainer readiness_timeout_error) s2).
  rewrite Hstart.
  rewrite (try_except_raise _ _ s1 readiness_timeout_error s2); [done|].
  by apply bind_raise.
Qed.

(** When initialisation raises, the scan fails with that exception: the
    record says [failed] with the message, [_cleanup] runs, and nothing
    else is done. *)
Lemma execute_scan_init_raises env scan_id config s e s2 :
  _initialize_scanner env scan_id s = Some (Raise e, s2) →
  ∃ s' after,
    execute_scan env scan_id config s = Some (Raise e, s')
    ∧ status (scan_results s') = Some "failed"
    ∧ error (scan_results s') = Some (exn_msg e)
    ∧ trace s' = (after ++ EvCleanup :: EvLog ERROR (ScanExecutionFailed e) :: trace s2)%list
    ∧ forallb (allowed cleanup_api false) after = true.
Proof.
  intros Hinit.
  set (r2 := scan_results s2).
  set (s3 := mkState (now s2) (tick s2) (EvLog ERROR (ScanExecutionFailed e) :: trace s2)
               (scanner s2)
               (mkScanResults (started_at r2) (target_url r2) (scan_type r2)
                  (spider_scan_id r2) (active_scan_id r2) (completed_at r2) (duration r2)
                  (Some "failed") (Some (exn_msg e))
                  (result_vulnerabilities r2) (result_statistics r2))).
  assert (Hprimary : execute_scan_primary env scan_id config s = Some (Raise e, s3)).
  { unfold execute_scan_primary.
    rewrite (try_except_raise _ _ s e s2); [done|].
    unfold execute_scan_try. by apply bind_raise. }
  destruct (cleanup_steps env s3) as (s' & after & Hc & Ht & Hall & Hres & _).
  exists s', after. split_and!; try done.
  - change (execute_scan env scan_id config)
      with (try_finally (execute_scan_primary env scan_id config) (_cleanup env)).
    unfold try_finally. by rewrite Hprimary, Hc.
  - by rewrite Hres.
  - by rewrite Hres.
Qed.

Lemma no_phase_allowed api c evs :
  (∀ ep, api ep = true → cleanup_api ep = true) →
  forallb (allowed api c) evs = true →
  forallb (λ ev, negb (is_phase_op ev)) evs = true.
Proof.
  intros Hapi. rewrite !forallb_forall. intros Hall ev Hev.
  specialize (Hall ev Hev). destruct ev as [[]| | |]; try done.
  cbn in *. apply Hapi in Hall. unfold cleanup_api in Hall. by rewrite Hall.
Qed.

(** C3. The Docker steps of the start succeed and no readiness probe made
    within the 120 seconds of the wait is answered with 200 (another
    status, or a request error). Then [start_container] raises the timeout
    error; [execute_scan] raises it too, having called no phase operation,
    neither before nor after; and the result record the executor holds
    says [failed], with the message of the error. *)
Theorem readiness_timeout_is_fatal (env : Env) (scan_id : string) (config : Config)
    (s : State) (w : nat) :
  readiness_start env (tick s) = Some w →
  (∀ j, elapsed env 2 w j < 120 → probe_refused (env_http env (w + j)) = true) →
  ∃ s0 s1 s' evs,
    tick s0 = S (tick s)
    ∧ start_container env scan_id s0 = Some (Raise readiness_timeout_error, s1)
    ∧ execute_scan env scan_id config s = Some (Raise readiness_timeout_error, s')
    ∧ trace s' = (evs ++ trace s)%list
    ∧ forallb (λ ev, negb (is_phase_op ev)) evs = true
    ∧ List.filter is_cleanup evs = [EvCleanup]
    ∧ status (get_scan_results s') = Some "failed"
    ∧ error (get_scan_results s') = Some "ZAP failed to start within 120 seconds".
Proof.
  intros Hw Hrefused.
  destruct (initialize_scanner_timeout env scan_id s w Hw Hrefused) as (s2 & Hinit & Hf).
  destruct (execute_scan_init_raises env scan_id config s _ s2 Hinit)
    as (s' & after & Hexec & Hstatus & Herror & Htrace & Hafter).
  destruct (frame_trace _ _ _ _ _ _ Hf) as (before & Hbefore & Hball).
  unfold readiness_start in Hw.
  destruct (env_from_env env (tick s)) as [e|] eqn:Hfrom; [done|].
  set (sa := called env DockerFromEnv s).
  set (s0 := mkState (now sa) (tick sa) (trace sa)
               (Some (mkZAPScannerObj None None)) (scan_results sa)).
  destruct (start_container_timeout env scan_id s0 _ w eq_refl Hw Hrefused) as (s1 & Hstart).
  exists s0, s1, s',
    (after ++ EvCleanup :: EvLog ERROR (ScanExecutionFailed readiness_timeout_error) :: before)%list.
  split_and!; try done.
  - rewrite Htrace, Hbefore. by rewrite <- app_assoc.
  - rewrite forallb_app. cbn [forallb is_phase_op negb andb].
    rewrite (no_phase_allowed cleanup_api false after) by done.
    by rewrite (no_phase_allowed no_api false before).
  - rewrite List.filter_app. cbn [List.filter is_cleanup].
    by rewrite (no_cleanup_allowed _ _ Hafter), (no_cleanup_allowed _ _ Hball).
Qed.

(** * The phases against a slow engine *)

(** The passive wait of a ready scanner returns normally, whatever the
    engine answers, and the first thing it does is a poll. *)
Lemma passive_wait_polls env s :
  ready s →
  ∃ s' evs,
    _wait_for_passive_scan env 300 s = Some (Ok tt, s')
    ∧ ready s'
    ∧ trace s' = (evs ++ EvOp (HttpApi "pscan/view/recordsToScan/") :: trace s)%list
    ∧ frame any_api true true true s s'.
Proof.
  intros Hs.
  destruct (get_scan_progress_step env any_api true s Hs) as (logs & Hg & _ & _ & Hlogs).
  set (s1 := mkState (now s + Z.of_nat (env_latency env (tick s))) (S (tick s))
               (logs ++ EvOp (HttpApi "pscan/view/recordsToScan/") :: trace s)%list
               (scanner s) (scan_results s)) in *.
  assert (Hs1 : ready s1) by (destruct Hs as (z & u & ?); by exists z, u).
  assert (Hf1 : frame any_api true true true s s1).
  { split; [|cbn; split_and!; try done; lia].
    exists (logs ++ [EvOp (HttpApi "pscan/view/recordsToScan/")])%list.
    cbn [trace s1]. rewrite <- app_assoc. split; [done|].
    by rewrite forallb_app, Hlogs. }
  assert (Hpoll : poll_passive env s
          = Some (passive_outcome (env_http env (tick s)), s1)).
  { unfold poll_passive. rewrite bind_eq, (on_scanner_ready _ _ Hs), Hg.
    unfold passive_outcome.
    by destruct (passive_scan_complete (progress_of_reply (env_http env (tick s)))). }
  unfold _wait_for_passive_scan, poll_until. rewrite !bind_eq. cbn [time_time].
  change (Z.to_nat 300) with (S (Z.to_nat 299)). cbn [while_deadline].
  rewrite (proj2 (Z.ltb_lt _ _)) by lia.
  unfold iteration at 1. rewrite bind_eq, Hpoll.
  unfold passive_outcome.
  destruct (passive_scan_complete (progress_of_reply (env_http env (tick s)))).
  - exists s1, logs. by split_and!.
  - set (s2 := mkState (now s1 + 5) (tick s1) (EvSleep 5 :: trace s1)
                 (scanner s1) (scan_results s1)).
    change ((sleep 5 ≫= λ _ : (), mret None) s1)
      with (Some (Ok (@None unit), s2)).
    cbn match.
    assert (Hs2 : ready s2) by (destruct Hs as (z & u & ?); by exists z, u).
    assert (Hf2 : frame any_api true true true s1 s2).
    { apply (frame_cons _ _ _ _ (EvSleep 5)); cbn; try done; lia. }
    destruct (loop_returns env (poll_passive env) 5 passive_outcome ready
                (frame any_api true true true) ltac:(lia)
                (poll_passive_attempt env) passive_sleep
                (Z.to_nat 299) s2 (now s) 300)
      as (o & s3 & Hloop & Hs3 & Hf3); try done.
    { intros h. unfold passive_outcome. eauto. }
    { cbn. lia. }
    rewrite Hloop.
    destruct (frame_trace _ _ _ _ _ _ Hf3) as (evs3 & Ht3 & _).
    destruct o as [[]|].
    + exists s3, (evs3 ++ EvSleep 5 :: logs)%list.
      split; [done|]. split; [done|]. split.
      * rewrite Ht3. cbn [trace s2 s1]. by rewrite <- app_assoc.
      * etrans; [exact Hf1|]. by etrans.
    + assert (Hs4 : ready (logged WARNING PassiveScanTimeout s3)).
      { destruct Hs3 as (z & u & ?). by exists z, u. }
      assert (Hf4 : frame any_api true true true s (logged WARNING PassiveScanTimeout s3)).
      { etrans; [exact Hf1|]. etrans; [exact Hf2|]. etrans; [exact Hf3|].
        by apply (frame_cons _ _ _ _ (EvLog WARNING PassiveScanTimeout)). }
      exists (logged WARNING PassiveScanTimeout s3),
        (EvLog WARNING PassiveScanTimeout :: evs3 ++ EvSleep 5 :: logs)%list.
      split; [done|]. split; [done|]. split; [|done].
      cbn [logged trace]. rewrite Ht3. cbn [trace s2 s1].
      by rewrite <- app_comm_cons, <- app_assoc.
Qed.

Section StatusWait.
Context (env : Env) (endpoint : string).
Context (Hjson : is_substring "/other/" endpoint = false).

Let R := frame any_api true true true.

Lemma status_attempt s :
  ready s →
  ∃ s', poll_status env endpoint s = Some (status_outcome (env_http env (tick s)), s')
        ∧ ready s' ∧ R s s' ∧ after_call env s s'.
Proof.
  intros Hs. exists (called env (HttpApi endpoint) s).
  split; [by apply poll_status_step|]. split; [by apply called_ready|].
  split; [by apply called_frame|apply called_after].
Qed.

Lemma status_sleep interval s s' :
  0 ≤ interval → ready s → sleep interval s = Some (Ok tt, s') → ready s' ∧ R s s'.
Proof. apply sleep_ready. Qed.

(** Every status poll made before the deadline reads a status below 100:
    the poll loop ends by its condition. *)
Lemma status_wait_deadline interval timeout s :
  1 ≤ interval →
  ready s →
  (∀ j, elapsed env interval (tick s) j < timeout →
        status_outcome (env_http env (tick s + j)) = Ok None) →
  ∃ s1, poll_until timeout (poll_status env endpoint) interval s = Some (Ok None, s1)
        ∧ ready s1 ∧ R s s1 ∧ timeout ≤ now s1 - now s.
Proof.
  intros Hi Hs Hslow.
  destruct (poll_deadline env (poll_status env endpoint) interval status_outcome ready R
              Hi status_attempt (λ s0 s1, status_sleep interval s0 s1 ltac:(lia))
              s timeout Hs Hslow)
    as (s1 & k & Hp & Hs1 & HR & Hend & _).
  by exists s1.
Qed.

End StatusWait.

(** A spider wait whose polls, as long as the deadline has not passed, all
    read a status below 100 returns [False] and does not raise; the last
    thing it does is to log that the spider timed out. *)
Lemma wait_for_spider_timeout env scan_id timeout s :
  ready s →
  (∀ j, elapsed env 5 (tick s) j < timeout →
        status_outcome (env_http env (tick s + j)) = Ok None) →
  ∃ s1,
    wait_for_spider env scan_id timeout s
    = Some (Ok false, logged ERROR (SpiderTimedOut scan_id) s1)
    ∧ ready s1 ∧ frame any_api true true true s s1 ∧ timeout ≤ now s1 - now s.
Proof.
  intros Hs Hslow.
  destruct (status_wait_deadline env "spider/view/status/" eq_refl 5 timeout s
              ltac:(lia) Hs Hslow) as (s1 & Hp & Hs1 & HR & Hend).
  exists s1. split; [|done].
  unfold wait_for_spider. by rewrite (bind_ok _ _ _ _ _ Hp).
Qed.

Lemma wait_for_active_scan_timeout env scan_id timeout s :
  ready s →
  (∀ j, elapsed env 10 (tick s) j < timeout →
        status_outcome (env_http env (tick s + j)) = Ok None) →
  ∃ s1,
    wait_for_active_scan env scan_id timeout s
    = Some (Ok false, logged ERROR (ActiveScanTimedOut scan_id) s1)
    ∧ ready s1 ∧ frame any_api true true true s s1 ∧ timeout ≤ now s1 - now s.
Proof.
  intros Hs Hslow.
  destruct (status_wait_deadline env "ascan/view/status/" eq_refl 10 timeout s
              ltac:(lia) Hs Hslow) as (s1 & Hp & Hs1 & HR & Hend).
  exists s1. split; [|done].
  unfold wait_for_active_scan. by rewrite (bind_ok _ _ _ _ _ Hp).
Qed.

Lemma logged_ready lvl msg s : ready s → ready (logged lvl msg s).
Proof. intros (z & u & ?). by exists z, u. Qed.

Lemma logged_frame api c lvl msg s : frame api c true true s (logged lvl msg s).
Proof. by apply (frame_cons _ _ _ _ (EvLog lvl msg)). Qed.

(** * Replies, as the phases read them *)

Lemma api_outcome_ok h : api_fails h = false → ∃ body, api_outcome h = Ok (ApiJson body).
Proof.
  unfold api_fails, api_outcome. destruct h as [e|st text json]; [done|].
  destruct (raise_for_status st) as [[]|e]; [|done].
  destruct json as [body|e]; [|done]. by exists body.
Qed.

Lemma status_outcome_below h n :
  status_of_reply h = Some n → n < 100 → status_outcome h = Ok None.
Proof.
  unfold status_of_reply, status_outcome, api_outcome.
  destruct h as [e|st text json]; [done|].
  destruct (raise_for_status st) as [[]|e]; [|done].
  destruct json as [body|e]; [|done]. cbn.
  destruct (jval_int (dict_get body "status" (JS (PInt 0)))) as [m|e]; [|done].
  intros [= ->] Hn. cbn. destruct (n >=? 100) eqn:E; [apply Z.geb_le in E; lia|done].
Qed.

Lemma probe_ready_outcome h : probe_ready h = true → probe_outcome h = Ok (Some tt).
Proof.
  unfold probe_ready, probe_outcome. destruct h as [e|st text [body|e]]; try done.
  by intros ->.
Qed.

Lemma slow_reply_inv h :
  slow_reply h = true →
  ∃ text body,
    h = HttpResp 200 text (Ok body)
    ∧ (∃ n, jval_int (dict_get body "status" (JS (PInt 0))) = Ok n ∧ n < 100)
    ∧ is_ok (jval_len (dict_get body "alerts" (JArr []))) = true.
Proof.
  unfold slow_reply. destruct h as [e|st text [body|e]]; try done.
  intros [[Hst Hn]%andb_prop Hlen]%andb_prop.
  apply Z.eqb_eq in Hst as ->. exists text, body. split; [done|]. split; [|done].
  destruct (jval_int (dict_get body "status" (JS (PInt 0)))) as [n|e]; [|done].
  exists n. split; [done|]. by apply Z.ltb_lt.
Qed.

Lemma slow_reply_api h : slow_reply h = true → api_fails h = false.
Proof. intros (text & body & -> & _)%slow_reply_inv. done. Qed.

Lemma slow_reply_status h : slow_reply h = true → status_outcome h = Ok None.
Proof.
  intros (text & body & -> & (n & Hn & Hlt) & _)%slow_reply_inv.
  apply (status_outcome_below _ n); [|done]. cbn. by rewrite Hn.
Qed.

Lemma slow_reply_probe h : slow_reply h = true → probe_ready h = true.
Proof. intros (text & body & -> & _)%slow_reply_inv. done. Qed.

(** * The spider phase when the spider does not finish in time *)

Section SpiderPhase.
Context (env : Env) (config : Config) (target_url : string).

(** One engine call that succeeds, made through [self.scanner]. *)
Lemma api_call_ok endpoint s :
  ready s → is_substring "/other/" endpoint = false →
  api_fails (env_http env (tick s)) = false →
  ∃ body, _api_call env endpoint s
          = Some (Ok (ApiJson body), called env (HttpApi endpoint) s).
Proof.
  intros Hs Hother (body & Hbody)%api_outcome_ok. exists body.
  by rewrite (api_call_step env endpoint s Hs Hother), Hbody.
Qed.

Lemma spider_scan_ok max_depth max_children s :
  ready s →
  (∀ i, (i < 3)%nat → api_fails (env_http env (tick s + i)) = false) →
  ∃ spider_id s',
    spider_scan env target_url max_depth max_children s = Some (Ok spider_id, s')
    ∧ ready s' ∧ tick s' = (tick s + 3)%nat
    ∧ frame any_api false true true s s'.
Proof.
  intros Hs Hok.
  set (s1 := called env (HttpApi "spider/action/setOptionMaxDepth/") s).
  set (s2 := called env (HttpApi "spider/action/setOptionMaxChildren/") s1).
  set (s3 := called env (HttpApi "spider/action/scan/") s2).
  assert (Hs1 : ready s1) by by apply called_ready.
  assert (Hs2 : ready s2) by by apply called_ready.
  destruct (api_call_ok "spider/action/setOptionMaxDepth/" s Hs eq_refl) as (b1 & H1).
  { specialize (Hok 0%nat ltac:(lia)). by rewrite Nat.add_0_r in Hok. }
  destruct (api_call_ok "spider/action/setOptionMaxChildren/" s1 Hs1 eq_refl) as (b2 & H2).
  { specialize (Hok 1%nat ltac:(lia)). by rewrite Nat.add_1_r in Hok. }
  destruct (api_call_ok "spider/action/scan/" s2 Hs2 eq_refl) as (b3 & H3).
  { specialize (Hok 2%nat ltac:(lia)). cbn [s2 s1 called tick].
    by replace (S (S (tick s))) with (tick s + 2)%nat by lia. }
  exists (dict_get b3 "scan" (JS (PStr ""))), s3. split_and!.
  - unfold spider_scan.
    rewrite (bind_ok _ _ _ _ _ H1), (bind_ok _ _ _ _ _ H2), (bind_ok _ _ _ _ _ H3).
    done.
  - by apply called_ready.
  - cbn. lia.
  - apply (frame_trans _ _ _ _ _ s1); [by apply (called_frame env any_api false)|].
    apply (frame_trans _ _ _ _ _ s2); by apply (called_frame env any_api false).
Qed.

(** The spider is started, and every status read before the 1800 seconds
    are over is below 100: the wait returns [False], and the phase
    returns normally after a warning. [s0] is the state in which the wait
    begins, [s1] the one in which its loop ends. *)
Lemma run_spider_scan_soft s :
  ready s →
  (∀ i, (i < 3)%nat → api_fails (env_http env (tick s + i)) = false) →
  (∀ j, elapsed env 5 (tick s + 3) j < 1800 →
        status_outcome (env_http env (tick s + 3 + j)) = Ok None) →
  ∃ spider_id s0 s1 s',
    spider_scan env target_url (default 5 (cfg_spider_max_depth config))
      (default 10 (cfg_spider_max_children config)) s = Some (Ok spider_id, s0)
    ∧ wait_for_spider env spider_id 1800 s0
      = Some (Ok false, logged ERROR (SpiderTimedOut spider_id) s1)
    ∧ 1800 ≤ now s1 - now s0
    ∧ _run_spider_scan env config target_url s = Some (Ok tt, s')
    ∧ ready s'
    ∧ trace s' = EvLog WARNING SpiderDidNotComplete
                 :: EvLog ERROR (SpiderTimedOut spider_id) :: trace s1
    ∧ frame any_api true true true s s1
    ∧ now s' = now s1 ∧ tick s' = tick s1
    ∧ spider_scan_id (scan_results s') = Some spider_id.
Proof.
  intros Hs Hok Hslow.
  destruct (spider_scan_ok (default 5 (cfg_spider_max_depth config))
              (default 10 (cfg_spider_max_children config)) s Hs Hok)
    as (spider_id & s0 & Hscan & Hs0 & Ht0 & Hf0).
  destruct (wait_for_spider_timeout env spider_id 1800 s0 Hs0)
    as (s1 & Hwait & Hs1 & Hf1 & Hend).
  { by rewrite Ht0. }
  set (s2 := logged WARNING SpiderDidNotComplete (logged ERROR (SpiderTimedOut spider_id) s1)).
  set (r2 := scan_results s2).
  set (s' := mkState (now s2) (tick s2) (trace s2) (scanner s2)
               (mkScanResults (started_at r2) (Runtime.target_url r2) (scan_type r2)
                  (Some spider_id) (active_scan_id r2) (completed_at r2) (duration r2)
                  (status r2) (error r2) (result_vulnerabilities r2)
                  (result_statistics r2))).
  assert (Hrun : _run_spider_scan env config target_url s = Some (Ok tt, s')).
  { unfold _run_spider_scan.
    rewrite (bind_ok _ _ s spider_id s0) by (by rewrite (on_scanner_ready _ _ Hs)).
    rewrite (bind_ok _ _ s0 false (logged ERROR (SpiderTimedOut spider_id) s1))
      by (by rewrite (on_scanner_ready _ _ Hs0)).
    cbn [negb]. by rewrite (bind_ok _ _ _ tt s2). }
  assert (Hs' : ready s') by (destruct Hs1 as (z & u & ?); by exists z, u).
  assert (Hf : frame any_api true true true s s1).
  { etrans; [|exact Hf1]. eapply frame_weaken; [..|exact Hf0]; done. }
  by exists spider_id, s0, s1, s'.
Qed.

(** The AJAX spider phase when the engine answers its two calls. *)
Lemma run_ajax_spider_scan_ok s :
  ready s →
  api_fails (env_http env (tick s)) = false →
  api_fails (env_http env (S (tick s))) = false →
  ∃ s',
    _run_ajax_spider_scan env config target_url s = Some (Ok tt, s')
    ∧ ready s'
    ∧ trace s' = EvOp (HttpApi "ajaxSpider/action/scan/")
                 :: EvOp (HttpApi "ajaxSpider/action/setOptionMaxDuration/") :: trace s
    ∧ tick s' = S (S (tick s)).
Proof.
  intros Hs Hok1 Hok2.
  set (s1 := called env (HttpApi "ajaxSpider/action/setOptionMaxDuration/") s).
  assert (Hs1 : ready s1) by by apply called_ready.
  destruct (api_call_ok "ajaxSpider/action/setOptionMaxDuration/" s Hs eq_refl Hok1)
    as (b1 & H1).
  destruct (api_call_ok "ajaxSpider/action/scan/" s1 Hs1 eq_refl Hok2) as (b2 & H2).
  exists (called env (HttpApi "ajaxSpider/action/scan/") s1). split_and!.
  - unfold _run_ajax_spider_scan. rewrite bind_eq, (on_scanner_ready _ _ Hs).
    unfold ajax_spider_scan.
    by rewrite (bind_ok _ _ _ _ _ H1), (bind_ok _ _ _ _ _ H2).
  - by apply called_ready.
  - done.
  - done.
Qed.

End SpiderPhase.

(** * The later phases against an engine that is up but slow *)

Lemma frame_tick api c ks kr s s' : frame api c ks kr s s' → (tick s ≤ tick s')%nat.
Proof. by intros (_ & _ & H & _). Qed.

Section SlowEngine.
Context (env : Env) (config : Config) (target_url : string).
Context (t0 : nat).
Context (Hslow : ∀ t, (t0 ≤ t)%nat → slow_reply (env_http env t) = true).

Lemma run_active_scan_slow s :
  ready s → (t0 ≤ tick s)%nat →
  ∃ s', _run_active_scan env config target_url s = Some (Ok tt, s') ∧ ready s'
        ∧ (tick s ≤ tick s')%nat.
Proof.
  intros Hs Ht.
  destruct (api_call_ok env "ascan/action/scan/" s Hs eq_refl) as (body & Hcall).
  { by apply slow_reply_api, Hslow. }
  set (s0 := called env (HttpApi "ascan/action/scan/") s).
  set (active_id := dict_get body "scan" (JS (PStr ""))).
  assert (Hs0 : ready s0) by by apply called_ready.
  destruct (wait_for_active_scan_timeout env active_id
              (default 7200 (cfg_timeout config)) s0 Hs0)
    as (s1 & Hwait & Hs1 & Hf1 & _).
  { intros j _. apply slow_reply_status, Hslow. cbn [s0 called tick]. lia. }
  set (s2 := logged WARNING ActiveScanDidNotComplete
               (logged ERROR (ActiveScanTimedOut active_id) s1)).
  set (r2 := scan_results s2).
  exists (mkState (now s2) (tick s2) (trace s2) (scanner s2)
            (mkScanResults (started_at r2) (Runtime.target_url r2) (scan_type r2)
               (spider_scan_id r2) (Some active_id) (completed_at r2) (duration r2)
               (status r2) (error r2) (result_vulnerabilities r2)
               (result_statistics r2))).
  split; [|split].
  - unfold _run_active_scan.
    rewrite (bind_ok _ _ s active_id s0).
    2:{ rewrite (on_scanner_ready _ _ Hs). unfold active_scan.
        by rewrite (bind_ok _ _ _ _ _ Hcall). }
    rewrite (bind_ok _ _ s0 false (logged ERROR (ActiveScanTimedOut active_id) s1))
      by (by rewrite (on_scanner_ready _ _ Hs0)).
    cbn [negb]. by rewrite (bind_ok _ _ _ tt s2).
  - destruct Hs1 as (z & u & ?). by exists z, u.
  - apply frame_tick in Hf1. cbn [s0 called tick s2 logged] in *. lia.
Qed.

Lemma collect_slow s :
  ready s → (t0 ≤ tick s)%nat →
  ∃ alerts,
    on_scanner (get_alerts env (Some target_url)) s
    = Some (Ok alerts, called env (HttpApi "core/view/alerts/") s).
Proof.
  intros Hs Ht. rewrite (on_scanner_ready _ _ Hs). unfold get_alerts.
  rewrite bind_eq, (api_call_step env "core/view/alerts/" s Hs eq_refl).
  destruct (slow_reply_inv _ (Hslow (tick s) Ht)) as (text & body & -> & _ & Hlen).
  exists (dict_get body "alerts" (JArr [])).
  cbn. rewrite bind_eq. cbn [lift_res].
  by destruct (jval_len (dict_get body "alerts" (JArr []))).
Qed.

Lemma execute_scan_finish_slow start_time s :
  ready s → (t0 ≤ tick s)%nat →
  ∃ r s',
    execute_scan_finish env config target_url start_time s = Some (Ok r, s')
    ∧ status r = Some "completed" ∧ scan_results s' = r.
Proof.
  intros Hs Ht.
  assert (∃ s1, (if default true (cfg_active_enabled config)
                 then _run_active_scan env config target_url else mret tt) s
                = Some (Ok tt, s1) ∧ ready s1 ∧ (tick s ≤ tick s1)%nat)
    as (s1 & Hactive & Hs1 & Ht1).
  { destruct (default true (cfg_active_enabled config)).
    - by apply run_active_scan_slow.
    - by exists s. }
  destruct (collect_slow s1 Hs1 ltac:(lia)) as (alerts & Hcollect).
  unfold execute_scan_finish.
  rewrite (bind_ok _ _ _ _ _ Hactive), (bind_ok _ _ _ _ _ Hcollect).
  by eexists _, _.
Qed.

End SlowEngine.

Lemma sat_execute_scan_finish env config target_url start_time :
  sat (frame any_api false true false)
    (execute_scan_finish env config target_url start_time).
Proof.
  unfold execute_scan_finish.
  apply sat_bind; [apply _| |intros _].
  { destruct (default true (cfg_active_enabled config));
      [by apply sat_run_active_scan | apply sat_ret; apply _]. }
  apply sat_bind; [apply _|by apply sat_collect|]. intros alerts.
  sat_go.
Qed.

(** * Scans that return normally *)

(** Programs are functions: the state a terminating program leaves is the
    one its frame speaks of. *)
Lemma sat_frame {A} (R : State → State → Prop) (m : M A) s r s' :
  sat R m → m s = Some (r, s') → R s s'.
Proof.
  intros Hsat H. destruct (Hsat s) as (r0 & s0 & H0 & HR).
  rewrite H in H0. by injection H0 as _ <-.
Qed.

Lemma try_except_inv_ok {A} (m : M A) (h : Exn → M A) s a s' :
  try_except m h s = Some (Ok a, s') →
  m s = Some (Ok a, s')
  ∨ ∃ e s1, m s = Some (Raise e, s1) ∧ h e s1 = Some (Ok a, s').
Proof.
  unfold try_except. destruct (m s) as [[[a0|e] s1]|]; [by left| |done].
  right. by exists e, s1.
Qed.

Lemma self_set_some f s z s' :
  scanner s = Some z → self_set f s = Some (Ok tt, s') →
  scanner s' = Some (f z).
Proof.
  intros Hz. unfold self_set. rewrite bind_eq. cbn [get_scanner]. rewrite Hz.
  by intros [= <-].
Qed.

(** When [start_container] returns, the scanner knows the engine's
    address. *)
Lemma start_container_ok_ready env scan_id s z container_id s' :
  scanner s = Some z →
  start_container env scan_id s = Some (Ok container_id, s') → ready s'.
Proof.
  intros Hz Hstart. unfold start_container in Hstart.
  apply try_except_inv_ok in Hstart as [Hbody|(e & s1 & _ & Hh)]; [|done].
  apply bind_inv_ok in Hbody as ([] & sa & Hold & Hbody).
  apply bind_inv_ok in Hbody as (cid & sb & Hrun & Hbody).
  apply bind_inv_ok in Hbody as ([] & sc & Hset1 & Hbody).
  apply bind_inv_ok in Hbody as ([] & sd & Hset2 & Hbody).
  apply bind_inv_ok in Hbody as ([] & se & Hwait & Hbody).
  injection Hbody as _ <-.
  assert (Hfa : frame no_api false true true s sa).
  { eapply sat_frame; [|exact Hold]. sat_go. }
  assert (Hfb : frame no_api false true true sa sb).
  { eapply sat_frame; [|exact Hrun]. sat_go. }
  assert (Hfe : frame no_api false true true sd se).
  { eapply sat_frame; [|exact Hwait]. apply sat_wait_for_zap. }
  assert (Hzb : scanner sb = Some z).
  { by rewrite (frame_scanner _ _ _ _ _ Hfb), (frame_scanner _ _ _ _ _ Hfa). }
  pose proof (self_set_some _ _ _ _ Hzb Hset1) as Hzc.
  pose proof (self_set_some _ _ _ _ Hzc Hset2) as Hzd.
  eexists _, _. split; [|split].
  - rewrite (frame_scanner _ _ _ _ _ Hfe). exact Hzd.
  - done.
  - done.
Qed.

Lemma initialize_scanner_ok_ready env scan_id s s' :
  _initialize_scanner env scan_id s = Some (Ok tt, s') → ready s'.
Proof.
  unfold _initialize_scanner. intros H.
  apply bind_inv_ok in H as (z & sa & _ & H).
  apply bind_inv_ok in H as ([] & sb & Hset & H).
  apply bind_inv_ok in H as (cid & sc & Hstart & H).
  injection H as <-. injection Hset as <-.
  unfold on_scanner in Hstart. rewrite bind_eq in Hstart. cbn [get_scanner scanner] in Hstart.
  eapply start_container_ok_ready; [|exact Hstart]. done.
Qed.

(** Every scan that returns normally went through the passive wait: the
    poll of the records left to scan is among the calls it made. *)
Lemma execute_scan_ok_polls env scan_id config s r s' :
  execute_scan env scan_id config s = Some (Ok r, s') →
  ∃ before after,
    trace s' = (after ++ EvOp (HttpApi "pscan/view/recordsToScan/")
                  :: before ++ trace s)%list.
Proof.
  intros H. unfold execute_scan, try_finally in H.
  destruct (try_except (execute_scan_try env scan_id config) execute_scan_except s)
    as [[o s4]|] eqn:Hprimary; [|done].
  destruct (cleanup_steps env s4) as (s5 & after & Hc & Ht5 & _).
  rewrite Hc in H. injection H as -> ->.
  apply try_except_inv_ok in Hprimary as [Htry|(e & s1 & _ & Hh)]; [|done].
  unfold execute_scan_try in Htry.
  apply bind_inv_ok in Htry as ([] & si & Hinit & Htry).
  destruct (cfg_url config) as [[|ch url]|]; [done| |done].
  apply bind_inv_ok in Htry as (start_time & st & Htime & Htry).
  injection Htime as <- <-.
  apply bind_inv_ok in Htry as ([] & su & Hupd & Htry).
  apply bind_inv_ok in Htry as ([] & ssp & Hsp & Htry).
  apply bind_inv_ok in Htry as ([] & saj & Haj & Htry).
  apply bind_inv_ok in Htry as ([] & s3 & Hpw & Htry).
  assert (Hfi : frame any_api true false false s si).
  { eapply sat_frame; [|exact Hinit]. apply sat_initialize_scanner. }
  assert (Hfu : frame any_api true true false si su).
  { eapply sat_frame; [|exact Hupd]. apply sat_update_results. }
  assert (Hfsp : frame any_api true true false su ssp).
  { eapply sat_frame; [|exact Hsp].
    destruct (default true (cfg_spider_enabled config));
      [by apply sat_run_spider_scan | apply sat_ret; apply _]. }
  assert (Hfaj : frame any_api true true false ssp saj).
  { eapply sat_frame; [|exact Haj].
    destruct (default false (cfg_ajax_enabled config));
      [by apply sat_run_ajax_spider_scan | apply sat_ret; apply _]. }
  assert (Hsaj : ready saj).
  { eapply frame_ready; [exact Hfaj|]. eapply frame_ready; [exact Hfsp|].
    eapply frame_ready; [exact Hfu|]. by eapply initialize_scanner_ok_ready. }
  destruct (passive_wait_polls env saj Hsaj) as (s3' & mid & Hpw' & _ & Ht3 & _).
  rewrite Hpw in Hpw'. injection Hpw' as <-.
  assert (Hf4 : frame any_api false true false s3 s4).
  { eapply sat_frame; [|exact Htry].
    apply (sat_execute_scan_finish env config (String ch url) (now si)). }
  assert (Hf : frame any_api true false false s saj).
  { etrans; [exact Hfi|].
    apply (frame_weaken any_api any_api true true true false false false); try done.
    etrans; [exact Hfu|]. by etrans. }
  destruct (frame_trace _ _ _ _ _ _ Hf) as (before & Hbefore & _).
  destruct (frame_trace _ _ _ _ _ _ Hf4) as (ev4 & Hev4 & _).
  exists before, (after ++ EvCleanup :: ev4 ++ mid)%list.
  rewrite Ht5, Hev4, Ht3, Hbefore.
  rewrite <- !app_assoc. cbn [app]. by rewrite <- !app_assoc.
Qed.
(** * The scan from the start of its phases *)

Lemma bind_first {A B} (m : M A) (f : A → M B) s r s1 :
  m s = Some (r, s1) → (m ≫= f) s = (lift_res r ≫= f) s1.
Proof. intros H. rewrite !bind_eq, H. by destruct r. Qed.

Lemma phases_begin_ready config url s : ready s → ready (phases_begin config url s).
Proof. intros (z & u & ?). by exists z, u. Qed.

Section Phases.
Context (env : Env) (scan_id : string) (config : Config).

(** The phases as [execute_scan_try] runs them for the target [url],
    after the scanner is initialised and the start is recorded. *)
Let phases (url : string) (start_time : Z) : M ScanResults :=
  (if default true (cfg_spider_enabled config)
   then _run_spider_scan env config url else mret tt);;
  (if default false (cfg_ajax_enabled config)
   then _run_ajax_spider_scan env config url else mret tt);;
  _wait_for_passive_scan env 300;;
  execute_scan_finish env config url start_time.

(** The scanner is initialised, in the state [si]: the phases begin
    there, with the start of the scan recorded. *)
Lemma execute_scan_try_begin url s si :
  _initialize_scanner env scan_id s = Some (Ok tt, si) →
  cfg_url config = Some url → url ≠ "" →
  execute_scan_try env scan_id config s
  = phases url (now si) (phases_begin config url si).
Proof.
  intros Hinit Hurl Hne.
  unfold execute_scan_try. rewrite (bind_ok _ _ _ _ _ Hinit), Hurl.
  destruct url as [|ch url]; [done|].
  rewrite (bind_ok _ _ si (now si) si) by done.
  by rewrite (bind_ok _ _ si tt (phases_begin config (String ch url) si)).
Qed.

(** A scan that goes on as [m] from the state [s3] ends as [m] and the
    [except] and [finally] clauses make it end. *)
Lemma execute_scan_from (m : M ScanResults) s s3 :
  execute_scan_try env scan_id config s = m s3 →
  execute_scan env scan_id config s
  = try_finally (try_except m execute_scan_except) (_cleanup env) s3.
Proof. intros H. unfold execute_scan, try_finally, try_except. by rewrite H. Qed.

(** From the state [s3] after the passive wait the scan always ends; it
    ends as completed when the engine answers every later call. *)
Lemma execute_scan_finish_ends url start_time s3 :
  ∃ o s' after,
    try_finally (try_except (execute_scan_finish env config url start_time)
                   execute_scan_except) (_cleanup env) s3 = Some (o, s')
    ∧ trace s' = (after ++ trace s3)%list
    ∧ (∀ t0, (∀ t, (t0 ≤ t)%nat → slow_reply (env_http env t) = true) →
       ready s3 → (t0 ≤ tick s3)%nat →
       ∃ r, o = Ok r ∧ status r = Some "completed" ∧ get_scan_results s' = r).
Proof.
  destruct (sat_try_except (frame any_api false true false) _ execute_scan_except
              (sat_execute_scan_finish env config url start_time)
              (λ e, sat_execute_scan_except any_api false true e) s3)
    as (o & s4 & Hprimary & Hf4).
  destruct (frame_trace _ _ _ _ _ _ Hf4) as (evs4 & Ht4 & _).
  destruct (cleanup_steps env s4) as (s' & evs & Hc & Ht & _ & Hres & _).
  exists o, s', (evs ++ EvCleanup :: evs4)%list. split_and!.
  - unfold try_finally. by rewrite Hprimary, Hc.
  - rewrite Ht, Ht4. by rewrite <- app_assoc.
  - intros t0 Hslow Hs3 Ht3.
    destruct (execute_scan_finish_slow env config url t0 Hslow start_time s3 Hs3 Ht3)
      as (r & s5 & Hfin & Hstatus & Hr).
    rewrite (try_except_ok _ _ _ _ _ Hfin) in Hprimary. injection Hprimary as <- <-.
    exists r. split_and!; try done. unfold get_scan_results. by rewrite Hres.
Qed.

(** A scan that comes to the passive wait in a ready state [sa] polls
    the engine next, and ends. *)
Lemma execute_scan_passive_ends url start_time sa :
  ready sa →
  ∃ o s' after,
    try_finally (try_except (_wait_for_passive_scan env 300;;
                             execute_scan_finish env config url start_time)
                   execute_scan_except) (_cleanup env) sa = Some (o, s')
    ∧ trace s' = (after ++ EvOp (HttpApi "pscan/view/recordsToScan/") :: trace sa)%list
    ∧ (∀ t0, (∀ t, (t0 ≤ t)%nat → slow_reply (env_http env t) = true) →
       (t0 ≤ tick sa)%nat →
       ∃ r, o = Ok r ∧ status r = Some "completed" ∧ get_scan_results s' = r).
Proof.
  intros Hsa.
  destruct (passive_wait_polls env sa Hsa) as (s3 & mid & Hpassive & Hs3 & Ht3 & Hf3).
  destruct (execute_scan_finish_ends url start_time s3)
    as (o & s' & after & Hexec & Ht' & Hcompleted).
  exists o, s', (after ++ mid)%list. split_and!.
  - unfold try_finally, try_except in *. by rewrite (bind_ok _ _ _ _ _ Hpassive).
  - rewrite Ht', Ht3. by rewrite <- app_assoc.
  - intros t0 Hslow Ht0. apply (Hcompleted t0 Hslow Hs3).
    apply frame_tick in Hf3. lia.
Qed.

(** The first thing the AJAX spider phase does is its first request,
    whatever the engine answers. *)
Lemma run_ajax_spider_scan_first url s :
  ready s →
  ∃ r s' evs,
    _run_ajax_spider_scan env config url s = Some (r, s')
    ∧ trace s' = (evs ++ EvOp (HttpApi "ajaxSpider/action/setOptionMaxDuration/")
                    :: trace s)%list
    ∧ (r = Ok tt → ready s' ∧ (tick s ≤ tick s')%nat).
Proof.
  intros Hs.
  set (s1 := called env (HttpApi "ajaxSpider/action/setOptionMaxDuration/") s).
  assert (Hcall : _api_call env "ajaxSpider/action/setOptionMaxDuration/" s
                  = Some (api_outcome (env_http env (tick s)), s1))
    by (by apply api_call_step).
  set (m := (lift_res (api_outcome (env_http env (tick s)));;
             response ← _api_call env "ajaxSpider/action/scan/";
             lift_res (response_get response "Result" (JS (PStr "")))) : M JVal).
  assert (Hrun : _run_ajax_spider_scan env config url s = (m ≫= λ _, mret tt) s1).
  { unfold _run_ajax_spider_scan. rewrite bind_eq, (on_scanner_ready _ _ Hs).
    unfold ajax_spider_scan. rewrite (bind_first _ _ _ _ _ Hcall).
    symmetry. apply bind_eq. }
  assert (Hsat : sat (frame any_api false true true) (m ≫= λ _, mret tt)).
  { unfold m. sat_go. all: try by apply sat_api_call. }
  destruct (Hsat s1) as (r & s' & Hr & Hf).
  destruct (frame_trace _ _ _ _ _ _ Hf) as (evs & Ht & _).
  exists r, s', evs. split_and!.
  - by rewrite Hrun.
  - done.
  - intros _. split.
    + apply (frame_ready _ _ _ _ _ Hf). by apply called_ready.
    + apply frame_tick in Hf. cbn [s1 called tick] in Hf. lia.
Qed.

(** What follows a spider phase that leaves the ready state [s2]: the
    first request of the next phase, and the scan ends. *)
Lemma execute_scan_after_spider url start_time s2 :
  ready s2 →
  ∃ o s' after,
    try_finally
      (try_except
         ((if default false (cfg_ajax_enabled config)
           then _run_ajax_spider_scan env config url else mret tt);;
          _wait_for_passive_scan env 300;;
          execute_scan_finish env config url start_time)
         execute_scan_except) (_cleanup env) s2 = Some (o, s')
    ∧ trace s'
      = (after ++ EvOp (HttpApi (if default false (cfg_ajax_enabled config)
                                 then "ajaxSpider/action/setOptionMaxDuration/"
                                 else "pscan/view/recordsToScan/")) :: trace s2)%list
    ∧ (default false (cfg_ajax_enabled config) = true →
       api_fails (env_http env (tick s2)) = false →
       api_fails (env_http env (S (tick s2))) = false →
       ∃ after',
         trace s' = (after' ++ EvOp (HttpApi "pscan/view/recordsToScan/")
                       :: EvOp (HttpApi "ajaxSpider/action/scan/")
                       :: EvOp (HttpApi "ajaxSpider/action/setOptionMaxDuration/")
                       :: trace s2)%list)
    ∧ (∀ t0, (∀ t, (t0 ≤ t)%nat → slow_reply (env_http env t) = true) →
       (t0 ≤ tick s2)%nat →
       ∃ r, o = Ok r ∧ status r = Some "completed" ∧ get_scan_results s' = r).
Proof.
  intros Hs2. destruct (default false (cfg_ajax_enabled config)).
  - destruct (run_ajax_spider_scan_first url s2 Hs2) as (r & sa & evs & Hajax & Hta & Hok).
    destruct r as [[]|e].
    + destruct (Hok eq_refl) as (Hsa & Htick).
      destruct (execute_scan_passive_ends url start_time sa Hsa)
        as (o & s' & after & Hexec & Ht' & Hcompleted).
      exists o, s', (after ++ EvOp (HttpApi "pscan/view/recordsToScan/") :: evs)%list.
      split_and!.
      * unfold try_finally, try_except in *. by rewrite (bind_ok _ _ _ _ _ Hajax).
      * rewrite Ht', Hta. rewrite <- app_assoc. by rewrite <- app_comm_cons.
      * intros _ Hok1 Hok2.
        destruct (run_ajax_spider_scan_ok env config url s2 Hs2 Hok1 Hok2)
          as (sa' & Hajax' & _ & Hta' & _).
        rewrite Hajax in Hajax'. injection Hajax' as <-.
        exists after. by rewrite Ht', Hta'.
      * intros t0 Hslow Ht0. apply (Hcompleted t0 Hslow). lia.
    + destruct (sat_execute_scan_except any_api false true e sa)
        as (r1 & s4 & Hexc & Hf4).
      destruct (frame_trace _ _ _ _ _ _ Hf4) as (evs4 & Ht4 & _).
      destruct (cleanup_steps env s4) as (s' & evc & Hc & Ht & _).
      exists r1, s', (evc ++ EvCleanup :: evs4 ++ evs)%list. split_and!.
      * unfold try_finally.
        rewrite (try_except_raise _ _ s2 e sa) by (by rewrite (bind_raise _ _ _ _ _ Hajax)).
        by rewrite Hexc, Hc.
      * rewrite Ht, Ht4, Hta. rewrite <- !app_assoc. cbn [app]. by rewrite <- !app_assoc.
      * intros _ Hok1 Hok2.
        destruct (run_ajax_spider_scan_ok env config url s2 Hs2 Hok1 Hok2)
          as (sa' & Hajax' & _).
        by rewrite Hajax in Hajax'.
      * intros t0 Hslow Ht0.
        destruct (run_ajax_spider_scan_ok env config url s2 Hs2)
          as (sa' & Hajax' & _).
        { apply slow_reply_api, Hslow. lia. }
        { apply slow_reply_api, Hslow. lia. }
        by rewrite Hajax in Hajax'.
  - destruct (execute_scan_passive_ends url start_time s2 Hs2)
      as (o & s' & after & Hexec & Ht' & Hcompleted).
    exists o, s', after. split_and!; try done.
Qed.

End Phases.

(** C4. The scan comes to its spider phase (the scanner is initialised,
    in the state [si], after however many readiness probes; there is a
    target; the spider is enabled and the engine accepts its start), and
    every status that [wait_for_spider] reads in the 1800 seconds it has
    is below 100.  Then [wait_for_spider] returns [False], having logged
    that the spider timed out, and does not raise; [_run_spider_scan]
    logs the warning and returns, in the state [s2]; and the scan goes on
    with the next phase: its next request is the first poll of the
    passive wait or, when the AJAX spider is enabled, the first request
    of that phase, after which the passive wait follows when the engine
    accepts the two AJAX requests.  The scan always ends, and when the
    engine goes on answering, it ends as [completed]. *)
Theorem spider_timeout_is_soft (env : Env) (scan_id : string) (config : Config)
    (url : string) (s si : State) :
  _initialize_scanner env scan_id s = Some (Ok tt, si) →
  cfg_url config = Some url → url ≠ "" →
  default true (cfg_spider_enabled config) = true →
  (∀ i, (i < 3)%nat → api_fails (env_http env (tick si + i)) = false) →
  (∀ j, elapsed env 5 (tick si + 3) j < 1800 →
     ∃ n, status_of_reply (env_http env (tick si + 3 + j)) = Some n ∧ n < 100) →
  ∃ spider_id s0 s1 s2 o s' before after,
    tick s0 = (tick si + 3)%nat
    ∧ wait_for_spider env spider_id 1800 s0
      = Some (Ok false, logged ERROR (SpiderTimedOut spider_id) s1)
    ∧ 1800 ≤ now s1 - now s0
    ∧ trace s1 = (before ++ trace s)%list
    ∧ _run_spider_scan env config url (phases_begin config url si) = Some (Ok tt, s2)
    ∧ trace s2 = EvLog WARNING SpiderDidNotComplete
                 :: EvLog ERROR (SpiderTimedOut spider_id) :: trace s1
    ∧ (tick si ≤ tick s2)%nat
    ∧ execute_scan env scan_id config s = Some (o, s')
    ∧ trace s'
      = (after ++ EvOp (HttpApi (if default false (cfg_ajax_enabled config)
                                 then "ajaxSpider/action/setOptionMaxDuration/"
                                 else "pscan/view/recordsToScan/")) :: trace s2)%list
    ∧ (default false (cfg_ajax_enabled config) = true →
       api_fails (env_http env (tick s2)) = false →
       api_fails (env_http env (S (tick s2))) = false →
       ∃ after',
         trace s' = (after' ++ EvOp (HttpApi "pscan/view/recordsToScan/")
                       :: EvOp (HttpApi "ajaxSpider/action/scan/")
                       :: EvOp (HttpApi "ajaxSpider/action/setOptionMaxDuration/")
                       :: trace s2)%list)
    ∧ ((∀ t, (tick s2 ≤ t)%nat → slow_reply (env_http env t) = true) →
       ∃ r, o = Ok r ∧ status r = Some "completed"
            ∧ status (get_scan_results s') = Some "completed").
Proof.
  intros Hinit Hurl Hne Hspider Hsetup Hbelow.
  pose proof (initialize_scanner_ok_ready env scan_id s si Hinit) as Hsi.
  pose proof (phases_begin_ready config url si Hsi) as Hsu.
  pose proof (execute_scan_try_begin env scan_id config url s si Hinit Hurl Hne) as Htry.
  rewrite Hspider in Htry.
  destruct (run_spider_scan_soft env config url (phases_begin config url si) Hsu)
    as (spider_id & s0 & s1 & s2 & Hscan & Hwait & Hend & Hrun & Hs2 & Ht2 & Hf1
        & _ & Htk2 & _).
  { exact Hsetup. }
  { intros j Hj. destruct (Hbelow j Hj) as (n & Hn & Hlt).
    by apply (status_outcome_below _ n). }
  rewrite (bind_ok _ _ _ _ _ Hrun) in Htry.
  destruct (execute_scan_after_spider env config url (now si) s2 Hs2)
    as (o & s' & after & Hexec & Ht' & Hajax & Hcompleted).
  assert (Hfi : frame any_api false false true s si).
  { eapply sat_frame; [|exact Hinit]. apply sat_initialize_scanner. }
  destruct (frame_trace _ _ _ _ _ _ Hfi) as (evi & Hevi & _).
  destruct (frame_trace _ _ _ _ _ _ Hf1) as (ev1 & Hev1 & _).
  destruct (spider_scan_ok env url (default 5 (cfg_spider_max_depth config))
              (default 10 (cfg_spider_max_children config))
              (phases_begin config url si) Hsu Hsetup)
    as (id' & s0' & Hscan' & _ & Ht0 & _).
  rewrite Hscan in Hscan'. injection Hscan' as <- <-.
  exists spider_id, s0, s1, s2, o, s', (ev1 ++ evi)%list, after.
  split_and!; try done.
  - rewrite Hev1. cbn [phases_begin trace]. rewrite Hevi. by rewrite <- app_assoc.
  - apply frame_tick in Hf1. rewrite Htk2. exact Hf1.
  - by rewrite (execute_scan_from env scan_id config _ s s2 Htry).
  - intros Hslow. destruct (Hcompleted (tick s2) Hslow ltac:(lia)) as (r & -> & Hstatus & Hr).
    exists r. split_and!; try done. by rewrite Hr.
Qed.
(** * The passive wait of a scan *)

Section ToPassive.
Context (env : Env) (scan_id : string) (config : Config).

(** The [try] block is its part up to the passive wait, then the
    passive wait and the rest. *)
Lemma execute_scan_try_to_passive s :
  execute_scan_try env scan_id config s
  = ('(url, start_time) ← execute_scan_to_passive env scan_id config;
     _wait_for_passive_scan env 300;;
     execute_scan_finish env config url start_time) s.
Proof.
  unfold execute_scan_try, execute_scan_to_passive, execute_scan_finish.
  rewrite !bind_eq.
  destruct (_initialize_scanner env scan_id s) as [[[[]|e] si]|]; [|done..].
  destruct (cfg_url config) as [[|ch url]|]; [done| |done].
  rewrite !bind_eq. cbn [time_time]. rewrite !bind_eq. cbn [update_results].
  rewrite !bind_eq.
  destruct ((if default true (cfg_spider_enabled config)
             then _run_spider_scan env config (String ch url) else mret ()) _)
    as [[[[]|e] ssp]|]; [|done..].
  rewrite !bind_eq.
  by destruct ((if default false (cfg_ajax_enabled config)
                then _run_ajax_spider_scan env config (String ch url) else mret ()) ssp)
    as [[[[]|e] saj]|].
Qed.

(** A scan that comes to the passive wait comes to it in a ready state,
    after the initialisation and the spider phases that are enabled. *)
Lemma execute_scan_to_passive_ok s url start_time sp :
  execute_scan_to_passive env scan_id config s = Some (Ok (url, start_time), sp) →
  ready sp
  ∧ ∃ si, _initialize_scanner env scan_id s = Some (Ok tt, si)
          ∧ cfg_url config = Some url ∧ url ≠ ""
          ∧ (default true (cfg_spider_enabled config) = false →
             default false (cfg_ajax_enabled config) = false →
             sp = phases_begin config url si).
Proof.
  unfold execute_scan_to_passive. intros H.
  apply bind_inv_ok in H as ([] & si & Hinit & H).
  destruct (cfg_url config) as [[|ch u]|]; [done| |done].
  apply bind_inv_ok in H as (t & st & Htime & H). injection Htime as <- <-.
  apply bind_inv_ok in H as ([] & su & Hupd & H).
  apply bind_inv_ok in H as ([] & ssp & Hsp & H).
  apply bind_inv_ok in H as ([] & saj & Haj & H).
  injection H as <- <- <-.
  assert (su = phases_begin config (String ch u) si) as -> by (by injection Hupd as <-).
  assert (Hfsp : frame any_api true true false (phases_begin config (String ch u) si) ssp).
  { eapply sat_frame; [|exact Hsp].
    destruct (default true (cfg_spider_enabled config));
      [by apply sat_run_spider_scan | apply sat_ret; apply _]. }
  assert (Hfaj : frame any_api true true false ssp saj).
  { eapply sat_frame; [|exact Haj].
    destruct (default false (cfg_ajax_enabled config));
      [by apply sat_run_ajax_spider_scan | apply sat_ret; apply _]. }
  split.
  { eapply frame_ready; [exact Hfaj|]. eapply frame_ready; [exact Hfsp|].
    apply phases_begin_ready. by eapply initialize_scanner_ok_ready. }
  exists si. split_and!; try done.
  intros Hspider Hajax. rewrite Hspider in Hsp. rewrite Hajax in Haj.
  injection Hsp as <-. by injection Haj as <-.
Qed.

End ToPassive.

(** C5. No configuration switches the passive wait off.  Every scan
    that returns normally, whatever its configuration, made the poll of
    the passive wait; and a scan that comes to the passive wait, in the
    state [sp] (after the initialisation and those of the spider phases
    that are enabled), makes its first poll there and ends.  With both
    spider phases disabled, that poll is the first request the scan sends
    to the engine.  When the first [k] polls do not read zero and the next
    one, made before the 300 seconds are over, does, the wait returns
    right after that poll, the [k + 1]st; when the [k] polls fill the 300
    seconds, the wait logs the timeout warning and returns normally. *)
Theorem passive_wait_runs_until_first_zero (env : Env) (scan_id : string)
    (config : Config) (url : string) (start_time : Z) (s sp : State) (k : nat) :
  execute_scan_to_passive env scan_id config s = Some (Ok (url, start_time), sp) →
  (∀ j, (j < k)%nat →
     passive_scan_complete (progress_of_reply (env_http env (tick sp + j))) = false) →
  (∀ config0 s0 r s0',
     execute_scan env scan_id config0 s0 = Some (Ok r, s0') →
     ∃ before after,
       trace s0' = (after ++ EvOp (HttpApi "pscan/view/recordsToScan/")
                      :: before ++ trace s0)%list)
  ∧ (∃ o s' after,
       execute_scan env scan_id config s = Some (o, s')
       ∧ trace s' = (after ++ EvOp (HttpApi "pscan/view/recordsToScan/")
                       :: trace sp)%list)
  ∧ (default true (cfg_spider_enabled config) = false →
     default false (cfg_ajax_enabled config) = false →
     ∃ before,
       trace sp = (before ++ trace s)%list
       ∧ forallb (λ ev, negb (is_phase_op ev)) before = true)
  ∧ (passive_scan_complete (progress_of_reply (env_http env (tick sp + k))) = true →
     elapsed env 5 (tick sp) k < 300 →
     ∃ sk s3,
       _wait_for_passive_scan env 300 sp = Some (Ok tt, s3)
       ∧ tick sk = (tick sp + k)%nat
       ∧ tick s3 = S (tick sp + k)
       ∧ trace s3 = EvOp (HttpApi "pscan/view/recordsToScan/") :: trace sk)
  ∧ (300 ≤ elapsed env 5 (tick sp) k →
     ∃ s1 s3,
       _wait_for_passive_scan env 300 sp = Some (Ok tt, s3)
       ∧ trace s3 = EvLog WARNING PassiveScanTimeout :: trace s1
       ∧ 300 ≤ now s3 - now sp).
Proof.
  intros Hto Hbefore.
  destruct (execute_scan_to_passive_ok env scan_id config s url start_time sp Hto)
    as (Hsp & si & Hinit & Hurl & Hne & Hdisabled).
  split; [intros config0 s0 r s0'; apply execute_scan_ok_polls|].
  split; [|split; [|split]].
  - destruct (execute_scan_passive_ends env config url start_time sp Hsp)
      as (o & s' & after & Hexec & Ht' & _).
    exists o, s', after. split; [|done].
    rewrite (execute_scan_from env scan_id config
               (_wait_for_passive_scan env 300;;
                execute_scan_finish env config url start_time) s sp); [done|].
    by rewrite execute_scan_try_to_passive, (bind_ok _ _ _ _ _ Hto).
  - intros Hspider Hajax. rewrite (Hdisabled Hspider Hajax).
    assert (Hfi : frame no_api false false true s si).
    { eapply sat_frame; [|exact Hinit]. apply sat_initialize_scanner. }
    destruct (frame_trace _ _ _ _ _ _ Hfi) as (before & Htb & Hball).
    exists before. split; [done|]. by apply (no_phase_allowed no_api false).
  - intros Hzero Htime.
    destruct (passive_wait_first_zero env sp k 300 Hsp Hbefore Hzero Htime)
      as (sk & s4 & Hwait & Htk & _ & Htr & (Hts & _) & _).
    exists sk, s4. split_and!; try done. by rewrite Hts, Htk.
  - intros Hfull.
    destruct (passive_wait_deadline env sp 300 Hsp)
      as (s1 & s4 & n & Hwait & Htr & Hend & _).
    { intros j Hj. apply Hbefore. eapply elapsed_before_deadline; [|done..]. lia. }
    by exists s1, s4.
Qed.

(** * The theorems on sample runs *)

Lemma started_state_ready : ready started_state.
Proof. eexists _, _. split; [reflexivity|]. split; [reflexivity|]. discriminate. Qed.

(** The engine never comes up: the scan fails with the timeout error, and
    the record says so. *)
Lemma readiness_timeout_is_fatal_witness :
  ∃ s',
    execute_scan refusing_env "job" sample_config (initial_state 0)
    = Some (Raise readiness_timeout_error, s')
    ∧ status (get_scan_results s') = Some "failed"
    ∧ error (get_scan_results s') = Some "ZAP failed to start within 120 seconds".
Proof.
  destruct (readiness_timeout_is_fatal refusing_env "job" sample_config
              (initial_state 0) 3)
    as (s0 & s1 & s' & evs & _ & _ & Hexec & _ & _ & _ & Hstatus & Herror).
  - reflexivity.
  - intros j _. reflexivity.
  - exists s'. split; [exact Hexec|]. split; [exact Hstatus|exact Herror].
Defined.

(** The first readiness probe is refused, the second is answered, and
    the spider never reports 100: the scan ends as completed. *)
Lemma spider_timeout_is_soft_witness :
  ∃ r s',
    probe_refused (env_http late_env 3) = true
    ∧ execute_scan late_env "job" sample_config (initial_state 0) = Some (Ok r, s')
    ∧ status r = Some "completed".
Proof.
  destruct (_initialize_scanner late_env "job" (initial_state 0))
    as [[[[]|e] si]|] eqn:Hinit.
  - assert (Htick : tick si = 5%nat).
    { pose proof Hinit as Hi. vm_compute in Hi. by injection Hi as <-. }
    destruct (spider_timeout_is_soft late_env "job" sample_config
                "http://target.example" (initial_state 0) si Hinit)
      as (spider_id & s0 & s1 & s2 & o & s' & before & after
          & _ & _ & _ & _ & _ & _ & Htick2 & Hexec & _ & _ & Hcompleted).
    + reflexivity.
    + discriminate.
    + reflexivity.
    + intros i _. rewrite Htick. reflexivity.
    + intros j _. rewrite Htick. exists 0. split; [reflexivity|lia].
    + destruct Hcompleted as (r & Ho & Hstatus & _).
      * intros t Ht. rewrite Htick in Htick2.
        destruct t as [|[|[|[|t]]]]; [lia..|reflexivity].
      * exists r, s'. split; [reflexivity|]. split; [|exact Hstatus].
        rewrite Hexec. by rewrite Ho.
  - exfalso. vm_compute in Hinit. discriminate Hinit.
  - exfalso. vm_compute in Hinit. discriminate Hinit.
Defined.

(** The default configuration, the first readiness probe refused: the
    scan comes to the passive wait after the spider, at call 9.  Seven
    records left, then two, then none: the third poll ends the wait.
    With the spider disabled, nothing is sent to the engine before the
    passive wait. *)
Lemma passive_wait_runs_until_first_zero_witness :
  (∃ url start_time sp sk s3,
     execute_scan_to_passive late_draining_env "job" sample_config (initial_state 0)
     = Some (Ok (url, start_time), sp)
     ∧ tick sp = 9%nat
     ∧ _wait_for_passive_scan late_draining_env 300 sp = Some (Ok tt, s3)
     ∧ tick sk = 11%nat ∧ tick s3 = 12%nat
     ∧ trace s3 = EvOp (HttpApi "pscan/view/recordsToScan/") :: trace sk)
  ∧ (∃ url start_time sp before,
       execute_scan_to_passive draining_env "job" passive_only_config (initial_state 0)
       = Some (Ok (url, start_time), sp)
       ∧ trace sp = (before ++ [])%list
       ∧ forallb (λ ev, negb (is_phase_op ev)) before = true).
Proof.
  split.
  - destruct (execute_scan_to_passive late_draining_env "job" sample_config
                (initial_state 0)) as [[[[url start_time]|e] sp]|] eqn:Hto.
    + assert (Htick : tick sp = 9%nat).
      { pose proof Hto as Hi. vm_compute in Hi. by injection Hi as _ _ <-. }
      destruct (passive_wait_runs_until_first_zero late_draining_env "job" sample_config
                  url start_time (initial_state 0) sp 2 Hto)
        as (_ & _ & _ & Hzero & _).
      * rewrite Htick. intros [|[|j]] Hj; [vm_compute; reflexivity..|lia].
      * destruct Hzero as (sk & s3 & Hwait & Hsk & Hs3 & Htrace).
        -- rewrite Htick. vm_compute. reflexivity.
        -- rewrite Htick. vm_compute. reflexivity.
        -- rewrite Htick in Hsk, Hs3.
           exists url, start_time, sp, sk, s3.
           split; [reflexivity|]. split; [exact Htick|]. split; [exact Hwait|].
           split; [exact Hsk|]. split; [exact Hs3|exact Htrace].
    + exfalso. vm_compute in Hto. discriminate Hto.
    + exfalso. vm_compute in Hto. discriminate Hto.
  - destruct (execute_scan_to_passive draining_env "job" passive_only_config
                (initial_state 0)) as [[[[url start_time]|e] sp]|] eqn:Hto.
    + destruct (passive_wait_runs_until_first_zero draining_env "job" passive_only_config
                  url start_time (initial_state 0) sp 0 Hto)
        as (_ & _ & Hdisabled & _).
      * intros j Hj. lia.
      * destruct Hdisabled as (before & Hbefore & Hquiet); [reflexivity..|].
        exists url, start_time, sp, before.
        split; [reflexivity|]. split; [exact Hbefore|exact Hquiet].
    + exfalso. vm_compute in Hto. discriminate Hto.
    + exfalso. vm_compute in Hto. discriminate Hto.
Defined.

(** Two failed polls, then a zero reading: the third poll ends the
    wait. *)
Lemma passive_wait_ignores_api_failure_witness :
  ∃ sk s',
    _wait_for_passive_scan flaky_env 300 started_state = Some (Ok tt, s')
    ∧ tick sk = 2%nat ∧ tick s' = 3%nat
    ∧ trace s' = EvOp (HttpApi "pscan/view/recordsToScan/") :: trace sk.
Proof.
  destruct (passive_wait_ignores_api_failure flaky_env started_state 2)
    as (_ & Hzero & _).
  - exact started_state_ready.
  - intros [|[|j]] Hj; [reflexivity..|lia].
  - destruct Hzero as (sk & s' & Hwait & Hsk & Hs' & Htrace).
    + vm_compute. reflexivity.
    + vm_compute. reflexivity.
    + exists sk, s'. split; [exact Hwait|]. split; [exact Hsk|].
      split; [exact Hs'|exact Htrace].
Defined.

(** * More about the result parser *)

(** ** The findings and the counters of [parse_alerts] *)

Lemma parsed_findings_cons alert alerts :
  parsed_findings (alert :: alerts)
  = (parsed_findings [alert] ++ parsed_findings alerts)%list.
Proof. unfold parsed_findings. cbn [omap list_omap]. by destruct (_parse_alert alert). Qed.

Lemma parsed_findings_app a b :
  parsed_findings (a ++ b) = (parsed_findings a ++ parsed_findings b)%list.
Proof. apply omap_app. Qed.

Lemma parsed_findings_length alerts :
  (length (parsed_findings alerts) ≤ length alerts)%nat.
Proof.
  induction alerts as [|a alerts IH]; [done|].
  rewrite parsed_findings_cons, length_app. unfold parsed_findings at 1.
  cbn [omap list_omap length]. destruct (_parse_alert a); cbn [length]; lia.
Qed.

Lemma parse_step_findings acc alert :
  vulnerabilities (parse_step acc alert)
  = (vulnerabilities acc ++ parsed_findings [alert])%list.
Proof.
  unfold parse_step, parsed_findings. cbn [omap list_omap].
  destruct (_parse_alert alert) as [vuln|e]; [|by rewrite app_nil_r].
  cbn zeta. by destruct (_ !! PStr "total").
Qed.

Lemma foldl_parse_step_findings alerts : ∀ acc,
  vulnerabilities (foldl parse_step acc alerts)
  = (vulnerabilities acc ++ parsed_findings alerts)%list.
Proof.
  induction alerts as [|a alerts IH]; intros acc; cbn [foldl].
  - by rewrite app_nil_r.
  - by rewrite IH, parse_step_findings, (parsed_findings_cons a alerts), app_assoc.
Qed.

Lemma parse_alerts_findings alerts :
  vulnerabilities (parse_alerts alerts) = parsed_findings alerts.
Proof. unfold parse_alerts. by rewrite foldl_parse_step_findings. Qed.

(** A parsed finding carries one of the five severities. *)
Lemma parsed_severity alert vuln :
  _parse_alert alert = Ok vuln →
  ∃ sev, sev ∈ severities ∧ vuln !! "severity" = Some (PStr sev).
Proof.
  destruct alert as [d|v]; [|done]. intros [H _]%parse_alert_tiers.
  eexists. split; [apply severity_of_tier|exact H].
Qed.

Lemma has_severity_of k sev vuln :
  vuln !! "severity" = Some (PStr sev) →
  has_severity k vuln = bool_decide (sev = k).
Proof.
  intros H. unfold has_severity, py_eq, dict_get. rewrite H. cbn.
  apply bool_decide_ext. split; [by intros [= ->]|by intros ->].
Qed.

Lemma severity_not_total k : k ∈ severities → PStr "total" ≠ PStr k.
Proof. intros Hk [= <-]. unfold severities in Hk. elem_of_absurd Hk. Qed.


Lemma counts_ok_initial : counts_ok (mkParsed [] initial_statistics).
Proof.
  intros k Hk. cbn [statistics vulnerabilities List.filter length].
  unfold severities in Hk. unfold initial_statistics.
  cases_of_elem Hk; lookup_literal.
Qed.

Lemma parse_step_counts p alert :
  stats_ok p → counts_ok p → counts_ok (parse_step p alert).
Proof.
  intros Hp Hc. unfold parse_step.
  destruct (_parse_alert alert) as [vuln|e] eqn:E; [|done].
  destruct (parsed_severity _ _ E) as (sev & Hsev & Hv).
  assert (Hkey : dict_key (dict_get vuln "severity" (PStr "info")) = PStr sev).
  { unfold dict_get. by rewrite Hv. }
  rewrite Hkey. clear Hkey E.
  destruct Hp as (c & h & m & l & i & _ & _ & _ & _ & _ & Htot & _).
  rewrite lookup_insert_ne by (by apply not_eq_sym, severity_not_total).
  rewrite Htot. intros k Hk. cbn [statistics vulnerabilities].
  rewrite lookup_insert_ne by (by apply severity_not_total).
  rewrite List.filter_app, length_app. cbn [List.filter].
  rewrite (has_severity_of k sev vuln Hv).
  rewrite lookup_insert. case_decide as Hd.
  - injection Hd as ->. rewrite bool_decide_true by done.
    rewrite (Hc k Hk). cbn [default from_option id length]. f_equal. lia.
  - rewrite bool_decide_false by congruence.
    rewrite (Hc k Hk). cbn [length]. f_equal. lia.
Qed.

Lemma parse_alerts_counts alerts : counts_ok (parse_alerts alerts).
Proof.
  unfold parse_alerts.
  generalize stats_ok_initial counts_ok_initial.
  generalize (mkParsed [] initial_statistics).
  induction alerts as [|a alerts IH]; intros p Hp Hc; [done|].
  cbn [foldl]. apply IH; [by apply parse_step_ok|by apply parse_step_counts].
Qed.

Lemma stat_severity alerts k :
  k ∈ severities →
  stat (parse_alerts alerts) k
  = Z.of_nat (length (List.filter (has_severity k) (parsed_findings alerts))).
Proof.
  intros Hk. unfold stat. rewrite (parse_alerts_counts alerts k Hk).
  by rewrite parse_alerts_findings.
Qed.

Lemma stat_total alerts :
  stat (parse_alerts alerts) "total" = Z.of_nat (length (parsed_findings alerts)).
Proof.
  destruct (parse_alerts_ok alerts) as (c & h & m & l & i & _ & _ & _ & _ & _ & Htot & _ & Hlen).
  unfold stat. rewrite Htot. cbn [default from_option id].
  by rewrite Hlen, parse_alerts_findings.
Qed.

Lemma parsed_findings_tier alerts v :
  v ∈ parsed_findings alerts → ∃ k, k ∈ severities ∧ has_severity k v = true.
Proof.
  unfold parsed_findings. rewrite list_elem_of_omap. intros (a & _ & Ha).
  destruct (_parse_alert a) as [vuln|e] eqn:E; [|done]. injection Ha as ->.
  destruct (parsed_severity _ _ E) as (sev & Hsev & Hv).
  exists sev. split; [done|]. rewrite (has_severity_of _ _ _ Hv). by apply bool_decide_true.
Qed.

(** X1. The findings [parse_alerts] returns are the alerts that
    [_parse_alert] accepts, parsed, in input order, so never more than
    there are alerts; every finding has one of the five severities, and
    each severity counter is the number of findings of that severity. *)
Theorem parse_alerts_counts_findings (alerts : list PyObj) :
  let p := parse_alerts alerts in
  vulnerabilities p = parsed_findings alerts
  ∧ (length (vulnerabilities p) ≤ length alerts)%nat
  ∧ Forall (λ k, stat p k
                 = Z.of_nat (length (List.filter (has_severity k) (vulnerabilities p))))
      severities
  ∧ Forall (λ v, ∃ k, k ∈ severities ∧ has_severity k v = true) (vulnerabilities p).
Proof.
  intros p. unfold p. rewrite parse_alerts_findings. split_and!.
  - done.
  - apply parsed_findings_length.
  - apply Forall_forall. intros k Hk. by apply stat_severity.
  - apply Forall_forall. intros v Hv. by apply (parsed_findings_tier alerts).
Qed.

(** X2. Parsing a concatenation of two alert lists gives the findings of
    the first followed by those of the second, and each of the six
    counters is the sum of the counters of the two. *)
Theorem parse_alerts_app (a b : list PyObj) :
  vulnerabilities (parse_alerts (a ++ b))
  = (vulnerabilities (parse_alerts a) ++ vulnerabilities (parse_alerts b))%list
  ∧ Forall (λ k, stat (parse_alerts (a ++ b)) k
                 = stat (parse_alerts a) k + stat (parse_alerts b) k) counters.
Proof.
  split; [by rewrite !parse_alerts_findings, parsed_findings_app|].
  assert (Hsev : ∀ k, k ∈ severities →
    stat (parse_alerts (a ++ b)) k = stat (parse_alerts a) k + stat (parse_alerts b) k).
  { intros k Hk. rewrite !stat_severity by done.
    rewrite parsed_findings_app, List.filter_app, length_app. lia. }
  assert (Htot : stat (parse_alerts (a ++ b)) "total"
                 = stat (parse_alerts a) "total" + stat (parse_alerts b) "total").
  { rewrite !stat_total, parsed_findings_app, length_app. lia. }
  unfold counters.
  repeat (apply Forall_cons; split; [first [exact Htot|apply Hsev; unfold severities; repeat constructor]|]).
  apply Forall_nil_2.
Qed.

(** ** Grouping by severity *)

Lemma groups_ok_initial : groups_ok initial_groups [].
Proof.
  split.
  - intros k Hk. cbn [List.filter]. unfold severities in Hk. unfold initial_groups.
    cases_of_elem Hk; lookup_literal.
  - intros key [l Hl]. unfold initial_groups in Hl.
    apply elem_of_list_to_map_2 in Hl.
    repeat (apply elem_of_cons in Hl as [Hl|Hl];
            [injection Hl as -> _; eexists; split; [|reflexivity];
             unfold severities; repeat constructor|]).
    by apply elem_of_nil in Hl.
Qed.

Lemma has_severity_true k vuln :
  has_severity k vuln = true
  ↔ dict_key (dict_get vuln "severity" (PStr "info")) = PStr k.
Proof. unfold has_severity, py_eq. by rewrite bool_decide_eq_true. Qed.

Lemma group_step_ok grouped vs vuln :
  groups_ok grouped vs → groups_ok (group_step grouped vuln) (vs ++ [vuln]).
Proof.
  intros [Hg Hdom]. unfold group_step.
  set (sk := dict_key (dict_get vuln "severity" (PStr "info"))).
  destruct (grouped !! sk) as [group|] eqn:E.
  - destruct (Hdom sk) as (k0 & Hk0 & Hsk); [by eexists|].
    split.
    + intros k Hk. rewrite List.filter_app. cbn [List.filter].
      rewrite lookup_insert. case_decide as Hd.
      * rewrite Hsk in Hd. injection Hd as <-.
        rewrite (proj2 (has_severity_true k0 vuln)) by done.
        rewrite Hsk, (Hg k0 Hk) in E. by injection E as <-.
      * rewrite (Hg k Hk). destruct (has_severity k vuln) eqn:Hv.
        -- apply has_severity_true in Hv. fold sk in Hv. congruence.
        -- by rewrite app_nil_r.
    + intros key. rewrite lookup_insert. case_decide as Hd; [|apply Hdom].
      intros _. exists k0. by rewrite <- Hd.
  - split; [|done].
    intros k Hk. rewrite List.filter_app. cbn [List.filter].
    destruct (has_severity k vuln) eqn:Hv.
    + apply has_severity_true in Hv. fold sk in Hv.
      rewrite Hv, (Hg k Hk) in E. done.
    + by rewrite app_nil_r, (Hg k Hk).
Qed.

Lemma foldl_group_step_ok vs : ∀ grouped vs0,
  groups_ok grouped vs0 → groups_ok (foldl group_step grouped vs) (vs0 ++ vs).
Proof.
  induction vs as [|v vs IH]; intros grouped vs0 H; cbn [foldl].
  - by rewrite app_nil_r.
  - replace (vs0 ++ v :: vs)%list with ((vs0 ++ [v]) ++ vs)%list
      by (by rewrite <- app_assoc).
    by apply IH, group_step_ok.
Qed.

Lemma group_by_severity_ok vs : groups_ok (group_by_severity vs) vs.
Proof. apply (foldl_group_step_ok vs initial_groups []), groups_ok_initial. Qed.

(** X3. [group_by_severity] returns a dictionary with exactly the five
    severity keys; the group of a severity is the list of the findings
    whose [severity] field (default [info]) equals it, in input order.  A
    finding with any other severity is in no group. *)
Theorem group_by_severity_filters (vs : list (gmap string Scalar)) :
  Forall (λ k, group_by_severity vs !! PStr k
               = Some (List.filter (has_severity k) vs)) severities
  ∧ (∀ key, is_Some (group_by_severity vs !! key) ↔ key ∈ (PStr <$> severities))
  ∧ (∀ key group v,
       group_by_severity vs !! key = Some group → v ∈ group →
       v ∈ vs ∧ existsb (λ k, has_severity k v) severities = true).
Proof.
  destruct (group_by_severity_ok vs) as [Hg Hdom]. split_and!.
  - by apply Forall_forall.
  - intros key. split.
    + intros (k & Hk & ->)%Hdom. by apply list_elem_of_fmap_2.
    + intros (k & -> & Hk)%list_elem_of_fmap. rewrite (Hg k Hk). by eexists.
  - intros key group v Hkey Hv.
    destruct (Hdom key) as (k & Hk & ->); [by eexists|].
    rewrite (Hg k Hk) in Hkey. injection Hkey as <-.
    apply elem_of_filter_bool in Hv as [Hin Hsev]. split; [done|].
    apply existsb_exists. exists k. split; [by apply list_elem_of_In|done].
Qed.

(** X4. Grouping the findings of [parse_alerts] loses none: the size of
    each group is the counter of its severity, and the sizes add up to the
    total. *)
Theorem group_sizes_are_counters (alerts : list PyObj) :
  let p := parse_alerts alerts in
  let grouped := group_by_severity (vulnerabilities p) in
  let size k := Z.of_nat (length (default [] (grouped !! PStr k))) in
  Forall (λ k, size k = stat p k) severities
  ∧ size "critical" + size "high" + size "medium" + size "low" + size "info"
    = stat p "total"
  ∧ stat p "total" = Z.of_nat (length (vulnerabilities p)).
Proof.
  intros p grouped size.
  destruct (group_by_severity_ok (vulnerabilities p)) as [Hg _]. fold grouped in Hg.
  assert (Hsize : ∀ k, k ∈ severities → size k = stat p k).
  { intros k Hk. unfold size. rewrite (Hg k Hk). cbn [default from_option id].
    unfold p. rewrite parse_alerts_findings. by rewrite stat_severity. }
  destruct (parse_alerts_ok alerts)
    as (c & h & m & l & i & Hc & Hh & Hm & Hl & Hi & Htot & _ & Hlen).
  fold p in Hc, Hh, Hm, Hl, Hi, Htot, Hlen.
  split; [by apply Forall_forall|].
  rewrite !Hsize by (unfold severities; repeat constructor).
  unfold stat. rewrite Hc, Hh, Hm, Hl, Hi, Htot. cbn [default from_option id].
  split; [done|exact Hlen].
Qed.

(** ** The CVSS estimate *)

Section Cvss.
Import PrimFloat.

Lemma tier_score_of_risk (code : string) :
  dict_get cvss_scores code 0.0%float = tier_score (severity_table code).
Proof.
  unfold dict_get, cvss_scores, severity_table, tier_score.
  rewrite !list_to_map_cons, list_to_map_nil.
  destruct (String.eqb_spec code "0") as [->|H0]; [by vm_compute|].
  destruct (String.eqb_spec code "1") as [->|H1]; [by vm_compute|].
  destruct (String.eqb_spec code "2") as [->|H2]; [by vm_compute|].
  destruct (String.eqb_spec code "3") as [->|H3]; [by vm_compute|].
  destruct (String.eqb_spec code "4") as [->|H4]; [by vm_compute|].
  rewrite !lookup_insert_ne by congruence. by rewrite lookup_empty.
Qed.

Lemma tier_score_range k : score_in_range (tier_score k) = true.
Proof.
  unfold tier_score.
  repeat (destruct (String.eqb k _); [by vm_compute|]). by vm_compute.
Qed.

Lemma tier_score_mono k1 k2 :
  (severity_rank k1 < severity_rank k2)%nat →
  (tier_score k1 <? tier_score k2)%float = true.
Proof.
  unfold severity_rank, tier_score.
  destruct (String.eqb k1 "critical"), (String.eqb k1 "high"),
    (String.eqb k1 "medium"), (String.eqb k1 "low"),
    (String.eqb k2 "critical"), (String.eqb k2 "high"),
    (String.eqb k2 "medium"), (String.eqb k2 "low");
    intros H; first [lia | by vm_compute].
Qed.

(** X5. The CVSS estimate of an alert is the score of the severity tier
    that the parser gives the alert (critical 9.0, high 7.5, medium 5.0,
    low 3.0, info 0.0), so it lies between 0.0 and 10.0, is 0.0 when the
    risk is absent or not a code, and an alert of a higher tier has a
    strictly higher estimate. *)
Theorem calculate_cvss_score_by_tier (alert alert' : gmap string Scalar) :
  let tier a := severity_of (dict_get a "risk" (PStr "0")) in
  calculate_cvss_score alert = tier_score (tier alert)
  ∧ score_in_range (calculate_cvss_score alert) = true
  ∧ (tier alert = "info" → calculate_cvss_score alert = 0.0%float)
  ∧ ((severity_rank (tier alert) < severity_rank (tier alert'))%nat →
     (calculate_cvss_score alert <? calculate_cvss_score alert')%float = true).
Proof.
  intros tier.
  assert (H : ∀ a, calculate_cvss_score a = tier_score (tier a)).
  { intros a. unfold calculate_cvss_score, tier.
    by rewrite tier_score_of_risk, severity_of_table. }
  rewrite !H. split_and!.
  - done.
  - apply tier_score_range.
  - by intros ->.
  - apply tier_score_mono.
Qed.

End Cvss.

(** ** CWE identifiers and OWASP categories *)

Lemma prefix_app (p s : string) : String.prefix p (p ++ s) = true.
Proof.
  induction p as [|c p IH]; [by destruct s|].
  change (String c p ++ s) with (String c (p ++ s)).
  cbn [String.prefix]. by destruct (ascii_dec c c).
Qed.

Lemma dict_get_insert {V} (d : gmap string V) k v dflt :
  dict_get (<[k := v]> d) k dflt = v.
Proof. unfold dict_get. by rewrite lookup_insert_eq. Qed.

(** X6. The CWE identifier [_extract_cwe] returns is empty, exactly when
    the [cweid] field is absent or falsy, or begins with [CWE-]; and it is
    stable: an alert that already carries the returned identifier gets the
    same one.  *)
Theorem extract_cwe_normalises (alert : gmap string Scalar) (cwe : string) :
  _extract_cwe alert = Ok cwe →
  (cwe = "" ∨ String.prefix "CWE-" cwe = true)
  ∧ (cwe = "" ↔ py_truthy (dict_get alert "cweid" (PStr "")) = false)
  ∧ _extract_cwe (<["cweid" := PStr cwe]> alert) = Ok cwe.
Proof.
  unfold _extract_cwe. rewrite dict_get_insert.
  destruct (dict_get alert "cweid" (PStr "")) as [|b|z|s] eqn:E;
    cbn [py_truthy].
  - intros [= <-]. cbn. split_and!; [by left|done|done].
  - destruct b; [done|]. intros [= <-]. cbn. split_and!; [by left|done|done].
  - destruct (z =? 0); [|done]. intros [= <-]. cbn. split_and!; [by left|done|done].
  - destruct (String.eqb_spec s "") as [->|Hs]; cbn [negb].
    + intros [= <-]. cbn. split_and!; [by left|done|done].
    + destruct (String.prefix "CWE-" s) eqn:Hp; intros [= <-].
      * split_and!; [by right|done|].
        apply String.eqb_neq in Hs. by rewrite Hs, Hp.
      * assert (Hne : ("CWE-" ++ s) ≠ "") by done.
        split_and!; [right; apply prefix_app|done|].
        apply String.eqb_neq in Hne. rewrite Hne. cbn [negb].
        by rewrite prefix_app.
Qed.

Lemma lower_ascii_idem c : lower_ascii (lower_ascii c) = lower_ascii c.
Proof.
  unfold lower_ascii.
  destruct ((65 <=? nat_of_ascii c)%nat && (nat_of_ascii c <=? 90)%nat) eqn:E; [|by rewrite E].
  apply andb_prop in E as [H1%Nat.leb_le H2%Nat.leb_le].
  rewrite nat_ascii_embedding by lia.
  rewrite (proj2 (Nat.leb_gt (nat_of_ascii c + 32) 90)) by lia.
  by rewrite andb_false_r.
Qed.

Lemma lower_idem s : lower (lower s) = lower s.
Proof. induction s as [|c s IH]; [done|]. cbn [lower]. by rewrite lower_ascii_idem, IH. Qed.

(** [find] gives the first element that passes the test. *)
Lemma find_first {A} (f : A → bool) (l : list A) (i : nat) (x : A) :
  l !! i = Some x → f x = true →
  (∀ j y, (j < i)%nat → l !! j = Some y → f y = false) →
  find f l = Some x.
Proof.
  revert i. induction l as [|a l IH]; intros i Hi Hx Hbefore; [done|].
  cbn [find]. destruct i as [|i].
  - injection Hi as ->. by rewrite Hx.
  - rewrite (Hbefore 0%nat a) by (done || lia).
    apply (IH i); [done..|].
    intros j y Hj Hy. apply (Hbefore (S j) y); [lia|done].
Qed.

Lemma find_none_iff {A} (f : A → bool) (l : list A) :
  find f l = None ↔ ∀ x, x ∈ l → f x = false.
Proof.
  split.
  - intros H x Hx%list_elem_of_In. by apply (find_none f l).
  - intros H. induction l as [|a l IH]; [done|]. cbn [find].
    rewrite (H a) by left. apply IH. intros x Hx. apply H. by right.
Qed.

Lemma owasp_no_unknown kc : kc ∈ owasp_mappings → kc.2 ≠ "Unknown".
Proof.
  intros H. unfold owasp_mappings in H.
  repeat (apply elem_of_cons in H as [->|H]; [done|]).
  by apply elem_of_nil in H.
Qed.

(** X7. For an alert whose name is a string, the OWASP category is that
    of the first keyword of the table, in table order, that occurs in the
    lower-cased name, and [Unknown] exactly when none occurs; so a name
    that contains [injection], in any letter case, is an injection
    finding whatever else it contains, and the category does not depend on
    the letter case of the name. *)
Theorem map_owasp_category_first_keyword (alert : gmap string Scalar) (s : string) :
  dict_get alert "name" (PStr "") = PStr s →
  ∃ category,
    _map_owasp_category alert = Ok category
    ∧ (category = "Unknown" ∨ category ∈ (snd <$> owasp_mappings))
    ∧ (category = "Unknown"
       ↔ ∀ kc, kc ∈ owasp_mappings → is_substring kc.1 (lower s) = false)
    ∧ (∀ (i : nat) kw cat,
         owasp_mappings !! i = Some (kw, cat) →
         is_substring kw (lower s) = true →
         (∀ (j : nat) kc, (j < i)%nat → owasp_mappings !! j = Some kc →
                          is_substring kc.1 (lower s) = false) →
         category = cat)
    ∧ (is_substring "injection" (lower s) = true → category = "A03:2021 - Injection")
    ∧ _map_owasp_category (<["name" := PStr (lower s)]> alert) = Ok category.
Proof.
  intros Hname. unfold _map_owasp_category. rewrite Hname, dict_get_insert, lower_idem.
  set (f := λ kc : string * string, is_substring kc.1 (lower s)).
  assert (Hrule : ∀ category,
    match find f owasp_mappings with Some kc => kc.2 | None => "Unknown" end = category →
    ∀ (i : nat) kw cat,
      owasp_mappings !! i = Some (kw, cat) → is_substring kw (lower s) = true →
      (∀ (j : nat) kc, (j < i)%nat → owasp_mappings !! j = Some kc →
                       is_substring kc.1 (lower s) = false) →
      category = cat).
  { intros category <- i kw cat Hi Hkw Hbefore.
    by rewrite (find_first f owasp_mappings i (kw, cat) Hi Hkw Hbefore). }
  destruct (find f owasp_mappings) as [kc|] eqn:E.
  - exists kc.2.
    apply find_some in E as [Hin%list_elem_of_In Hf].
    split; [done|]. split; [right; by apply list_elem_of_fmap_2|].
    split; [|split; [by apply Hrule|split; [|done]]].
    + split; [by intros H%(owasp_no_unknown kc Hin)|].
      intros H. specialize (H kc Hin). unfold f in Hf. congruence.
    + intros Hinj.
      apply (Hrule kc.2 eq_refl 0%nat "injection"); [done|done|]. intros j ? Hj. lia.
  - exists "Unknown". split; [done|]. split; [by left|].
    split; [|split; [by apply Hrule|split; [|done]]].
    + split; [|done]. intros _. by apply find_none_iff.
    + intros Hinj.
      apply (Hrule "Unknown" eq_refl 0%nat "injection"); [done|done|]. intros j ? Hj. lia.
Qed.

(** ** Filtering and deduplication together *)

Lemma filter_by_confidence_passes xs t (i : nat) :
  index_of t confidence_order = Some i →
  filter_by_confidence xs t = List.filter (passes i) xs.
Proof. intros H. unfold filter_by_confidence. by rewrite H. Qed.

Lemma filter_sublist {A} (f : A → bool) (l : list A) : sublist (List.filter f l) l.
Proof.
  induction l as [|a l IH]; [done|]. cbn [List.filter].
  destruct (f a); [by apply sublist_skip|by apply sublist_cons].
Qed.

Lemma filter_filter_implies {A} (f g : A → bool) (l : list A) :
  (∀ x, f x = true → g x = true) →
  List.filter f (List.filter g l) = List.filter f l
  ∧ List.filter g (List.filter f l) = List.filter f l.
Proof.
  intros Hfg. induction l as [|a l [IH1 IH2]]; [done|]. cbn [List.filter].
  destruct (f a) eqn:Hf.
  - rewrite (Hfg a Hf). cbn [List.filter]. rewrite Hf, (Hfg a Hf). by rewrite IH1, IH2.
  - destruct (g a); cbn [List.filter]; rewrite ?Hf; done.
Qed.

Lemma passes_mono (i1 i2 : nat) v :
  (i1 ≤ i2)%nat → passes i2 v = true → passes i1 v = true.
Proof.
  intros Hle. unfold passes, py_in_strs. rewrite !existsb_exists.
  intros (s & Hs & Heq). exists s. split; [|done].
  apply list_elem_of_In. apply list_elem_of_In in Hs.
  apply list_elem_of_lookup in Hs as [n Hn]. rewrite lookup_drop in Hn.
  apply list_elem_of_lookup. exists (i2 - i1 + n)%nat. rewrite lookup_drop.
  by replace (i1 + (i2 - i1 + n))%nat with (i2 + n)%nat by lia.
Qed.

(** X8. Confidence filters with thresholds of the ordering nest: a
    filter keeps the input order and adds nothing, filtering twice with
    the same threshold changes nothing more, and filtering with a lower
    and a higher threshold, in either order, is filtering with the higher
    one. *)
Theorem filter_by_confidence_nests (xs : list (gmap string Scalar))
    (t1 t2 : string) (i1 i2 : nat) :
  index_of t1 confidence_order = Some i1 →
  index_of t2 confidence_order = Some i2 →
  (i1 ≤ i2)%nat →
  sublist (filter_by_confidence xs t1) xs
  ∧ filter_by_confidence (filter_by_confidence xs t1) t1 = filter_by_confidence xs t1
  ∧ filter_by_confidence (filter_by_confidence xs t1) t2 = filter_by_confidence xs t2
  ∧ filter_by_confidence (filter_by_confidence xs t2) t1 = filter_by_confidence xs t2
  ∧ sublist (filter_by_confidence xs t2) (filter_by_confidence xs t1).
Proof.
  intros H1 H2 Hle.
  rewrite !(filter_by_confidence_passes _ t1 i1 H1), !(filter_by_confidence_passes _ t2 i2 H2).
  destruct (filter_filter_implies (passes i2) (passes i1) xs (λ v, passes_mono i1 i2 v Hle))
    as [E1 E2].
  destruct (filter_filter_implies (passes i1) (passes i1) xs (λ _ H, H)) as [E3 _].
  split_and!; [apply filter_sublist|done|done|done|].
  rewrite <- E1. apply filter_sublist.
Qed.

(** ** What [deduplicate] keeps *)

Lemma dedup_loop_keys vs : ∀ seen k,
  k ∈ (dedup_key <$> dedup_loop seen [] vs)
  ↔ k ∈ (dedup_key <$> vs) ∧ k ∉ seen.
Proof.
  induction vs as [|v vs IH]; intros seen k.
  - cbn. split; [by intros ?%elem_of_nil|by intros [?%elem_of_nil _]].
  - destruct (decide (dedup_key v ∈ seen)) as [Hin|Hout].
    + rewrite dedup_loop_seen by done. rewrite IH, fmap_cons, elem_of_cons.
      split; [tauto|]. intros [[->|H] Hk]; [done|tauto].
    + rewrite dedup_loop_unseen by done. rewrite !fmap_cons, !elem_of_cons, IH.
      rewrite not_elem_of_union, not_elem_of_singleton.
      split.
      * intros [->|(H1 & H2 & H3)]; tauto.
      * intros [[->|H] Hk]; [by left|].
        destruct (decide (k = dedup_key v)); [by left|right; tauto].
Qed.

Lemma deduplicate_keys xs k :
  k ∈ (dedup_key <$> deduplicate xs) ↔ k ∈ (dedup_key <$> xs).
Proof.
  unfold deduplicate. rewrite dedup_loop_keys.
  split; [tauto|]. intros H. split; [done|]. apply not_elem_of_empty.
Qed.

(** X9. [deduplicate] returns its input unchanged exactly when no two
    findings share a key; it keeps every key of the input, and the number
    of findings it returns is the number of different keys. *)
Theorem deduplicate_keeps_every_key (xs : list (gmap string Scalar)) :
  (deduplicate xs = xs ↔ NoDup (dedup_key <$> xs))
  ∧ (∀ k, k ∈ (dedup_key <$> deduplicate xs) ↔ k ∈ (dedup_key <$> xs))
  ∧ length (deduplicate xs)
    = size (list_to_set (dedup_key <$> xs) : gset (Scalar * Scalar * Scalar))
  ∧ (length (deduplicate xs) ≤ length xs)%nat.
Proof.
  destruct (dedup_loop_fresh xs ∅) as [_ Hnodup]. fold (deduplicate xs) in Hnodup.
  split_and!.
  - split; [by intros <-|].
    intros H. apply dedup_loop_fixed; [|done]. intros v _. apply not_elem_of_empty.
  - apply deduplicate_keys.
  - replace (list_to_set (dedup_key <$> xs) : gset (Scalar * Scalar * Scalar))
      with (list_to_set (dedup_key <$> deduplicate xs) : gset (Scalar * Scalar * Scalar)).
    + rewrite size_list_to_set by done. by rewrite length_fmap.
    + apply set_eq. intros k. rewrite !elem_of_list_to_set. apply deduplicate_keys.
  - apply sublist_length, dedup_loop_sublist.
Qed.

Lemma dedup_filter_sublist (f : gmap string Scalar → bool) vs : ∀ seen seen',
  seen' ⊆ seen →
  sublist (List.filter f (dedup_loop seen [] vs)) (dedup_loop seen' [] (List.filter f vs)).
Proof.
  induction vs as [|v vs IH]; intros seen seen' Hsub; [done|].
  cbn [List.filter].
  destruct (decide (dedup_key v ∈ seen)) as [Hin|Hout].
  - rewrite dedup_loop_seen by done. destruct (f v); [|by apply IH].
    destruct (decide (dedup_key v ∈ seen')) as [Hin'|Hout'].
    + rewrite dedup_loop_seen by done. by apply IH.
    + rewrite dedup_loop_unseen by done. apply sublist_cons, IH.
      apply union_subseteq. split; [by apply singleton_subseteq_l|done].
  - rewrite dedup_loop_unseen by done. cbn [List.filter]. destruct (f v).
    + rewrite dedup_loop_unseen by (intros H; by apply Hout, Hsub).
      apply sublist_skip, IH. by apply union_mono_l.
    + apply IH. by apply union_subseteq_r'.
Qed.

(** X10. Filtering after deduplicating never keeps a finding that
    deduplicating after filtering would drop: the first result is a
    sublist of the second, for every threshold.  The two orders are not
    the same: when the first finding of a key fails the filter and a later
    one passes, only deduplicating after filtering keeps a finding of that
    key. *)
Theorem filter_then_deduplicate_keeps_more (xs : list (gmap string Scalar))
    (t : string) (a b : gmap string Scalar) :
  sublist (filter_by_confidence (deduplicate xs) t)
          (deduplicate (filter_by_confidence xs t))
  ∧ (dedup_key a = dedup_key b →
     (∀ i, index_of t confidence_order = Some i →
           passes i a = false ∧ passes i b = true) →
     t ∈ confidence_order →
     filter_by_confidence (deduplicate [a; b]) t = []
     ∧ deduplicate (filter_by_confidence [a; b] t) = [b]).
Proof.
  split.
  - unfold filter_by_confidence.
    destruct (index_of t confidence_order) as [i|]; [|done].
    by apply dedup_filter_sublist.
  - intros Hkey Hpass Ht.
    destruct (index_of t confidence_order) as [i|] eqn:Hi.
    2:{ by apply index_of_None in Hi. }
    destruct (Hpass i eq_refl) as [Ha Hb].
    rewrite !(filter_by_confidence_passes _ t i Hi).
    unfold deduplicate. rewrite dedup_loop_unseen by apply not_elem_of_empty.
    rewrite dedup_loop_seen by (rewrite <- Hkey; apply elem_of_union_l, elem_of_singleton_2; done).
    cbn [dedup_loop List.filter]. rewrite Ha, Hb.
    split; [done|]. by rewrite dedup_loop_unseen by apply not_elem_of_empty.
Qed.

(** ** Parsed findings under the confidence filter *)

Lemma passes_false_positive (i : nat) vuln :
  vuln !! "confidence" = Some (PStr "false_positive") → passes i vuln = false.
Proof.
  intros H. unfold passes, dict_get. rewrite H. cbn [default from_option id].
  destruct (py_in_strs (PStr "false_positive") (drop i confidence_order)) eqn:E; [|done].
  apply py_in_strs_spec in E.
  apply list_elem_of_fmap in E as (s & Hs & Hin).
  injection Hs as <-. apply list_elem_of_lookup in Hin as [n Hn].
  rewrite lookup_drop in Hn. apply list_elem_of_lookup_2 in Hn.
  unfold confidence_order in Hn. elem_of_absurd Hn.
Qed.

(** X11. An alert that carries no confidence field, or the code 0, is
    parsed into a finding of confidence [false_positive], not [low]: every
    filter with a threshold of the ordering, [low] included, removes it,
    although the filter counts a finding without a confidence as [low]. *)
Theorem unrated_alert_is_filtered_out (d : gmap string Scalar)
    (vuln : gmap string Scalar) (t : string) :
  _parse_alert (ODict d) = Ok vuln →
  py_str (dict_get d "confidence" (PStr "0")) = "0" →
  t ∈ confidence_order →
  vuln !! "confidence" = Some (PStr "false_positive")
  ∧ filter_by_confidence [vuln] t = []
  ∧ filter_by_confidence [delete "confidence" vuln] "low" = [delete "confidence" vuln].
Proof.
  intros Hparse Hcode Ht.
  apply parse_alert_tiers in Hparse as [_ Hc].
  rewrite confidence_of_table, Hcode in Hc. cbn in Hc.
  destruct (index_of t confidence_order) as [i|] eqn:Hi.
  2:{ by apply index_of_None in Hi. }
  split; [done|]. split.
  - rewrite (filter_by_confidence_passes _ t i Hi). cbn [List.filter].
    by rewrite (passes_false_positive i vuln Hc).
  - rewrite (filter_by_confidence_passes _ "low" 0 eq_refl). cbn [List.filter].
    unfold passes, dict_get. by rewrite lookup_delete_eq.
Qed.

(** * More about the engine client *)

(** ** Calls without an engine address *)

Lemma api_call_no_address env endpoint s :
  no_address s →
  _api_call env endpoint s = Some (Raise not_started_error, s).
Proof.
  intros (z & Hz & Hu). unfold _api_call.
  rewrite (bind_ok _ _ _ _ _ (self_get_ready zap_url s z Hz)). by rewrite Hu.
Qed.

(** X12. Without an engine address, that is before [start_container]
    and after [stop_container], no request is sent: [_api_call] raises
    "ZAP container not started" and leaves everything as it was; so
    [get_scan_progress] reports [(0, False)], [shutdown] only logs a
    warning, without its pause, and the report methods raise. *)
Theorem api_call_needs_engine_address (env : Env) (endpoint : string) (s : State) :
  no_address s →
  _api_call env endpoint s = Some (Raise not_started_error, s)
  ∧ get_scan_progress env s
    = Some (Ok (mkProgress 0 false), logged ERROR (ErrorGettingProgress not_started_error) s)
  ∧ shutdown env s
    = Some (Ok tt, logged WARNING (ErrorDuringShutdown not_started_error) s)
  ∧ generate_html_report env s = Some (Raise not_started_error, s)
  ∧ generate_json_report env s = Some (Raise not_started_error, s).
Proof.
  intros Hs. split_and!.
  - by apply api_call_no_address.
  - unfold get_scan_progress, try_except.
    by rewrite (bind_raise _ _ _ _ _ (api_call_no_address env _ s Hs)).
  - unfold shutdown, try_except.
    by rewrite (bind_raise _ _ _ _ _ (api_call_no_address env _ s Hs)).
  - by apply api_call_no_address.
  - by apply api_call_no_address.
Qed.

(** ** Stopping the container *)

Lemma self_set_ready f s z :
  scanner s = Some z →
  self_set f s
  = Some (Ok tt, mkState (now s) (tick s) (trace s) (Some (f z)) (scan_results s)).
Proof. intros Hz. unfold self_set. rewrite bind_eq. cbn [get_scanner]. by rewrite Hz. Qed.

(** The state [stop_container] leaves when it adds the events [evs] in
    [calls] calls that take [seconds] seconds. *)
Lemma stop_container_steps env s z :
  scanner s = Some z →
  ∃ s1,
    stop_container env s = Some (Ok tt, s1)
    ∧ scanner s1 = Some (mkZAPScannerObj None None)
    ∧ scan_results s1 = scan_results s
    ∧ trace s1 = ((if container z then stop_events env (tick s) else []) ++ trace s)%list.
Proof.
  intros Hz. unfold stop_container.
  rewrite (bind_ok _ _ _ _ _ (self_get_ready container s z Hz)).
  assert (Hclear : ∀ s0 z0, scanner s0 = Some z0 →
     (self_set (λ z, mkZAPScannerObj None (zap_url z));;
      self_set (λ z, mkZAPScannerObj (container z) None)) s0
     = Some (Ok tt, mkState (now s0) (tick s0) (trace s0)
                      (Some (mkZAPScannerObj None None)) (scan_results s0))).
  { intros s0 z0 Hz0. rewrite (bind_ok _ _ _ _ _ (self_set_ready _ s0 z0 Hz0)).
    by rewrite (self_set_ready _
                  (mkState (now s0) (tick s0) (trace s0)
                     (Some (mkZAPScannerObj None (zap_url z0))) (scan_results s0))
                  (mkZAPScannerObj None (zap_url z0)) eq_refl). }
  destruct (container z) as [c|].
  2:{ rewrite (bind_ok _ _ s tt s eq_refl), (Hclear s z Hz).
      by eexists. }
  set (body := external_unit env ContainerStop env_stop;;
               external_unit env (ContainerRemove false) env_remove).
  set (handler := λ e : Exn,
         log ERROR (ErrorStoppingContainer e);;
         try_except (external_unit env (ContainerRemove true) env_remove)
           (λ _, mret tt)).
  assert (Hforce : ∀ s0 e,
    handler e s0
    = Some (Ok tt, called env (ContainerRemove true)
                     (logged ERROR (ErrorStoppingContainer e) s0))).
  { intros s0 e. unfold handler.
    rewrite (bind_ok _ _ s0 tt (logged ERROR (ErrorStoppingContainer e) s0) eq_refl).
    set (s2 := logged _ _ _).
    destruct (env_remove env (tick s2)) as [e2|] eqn:Hrm.
    - by rewrite (try_except_raise _ _ _ _ _ (external_unit_raise env _ _ s2 e2 Hrm)).
    - by rewrite (try_except_ok _ _ _ _ _ (external_unit_ok env _ _ s2 Hrm)). }
  assert (Htry : ∃ s0,
    try_except body handler s = Some (Ok tt, s0)
    ∧ scanner s0 = Some z ∧ scan_results s0 = scan_results s
    ∧ trace s0 = (stop_events env (tick s) ++ trace s)%list).
  { unfold stop_events.
    destruct (env_stop env (tick s)) as [e|] eqn:Hstop.
    - exists (called env (ContainerRemove true)
                (logged ERROR (ErrorStoppingContainer e) (called env ContainerStop s))).
      split; [|done].
      rewrite (try_except_raise _ _ s e (called env ContainerStop s)).
      + apply Hforce.
      + unfold body. apply bind_raise. by apply external_unit_raise.
    - set (s1 := called env ContainerStop s).
      assert (H1 : external_unit env ContainerStop env_stop s = Some (Ok tt, s1))
        by (by apply external_unit_ok).
      destruct (env_remove env (S (tick s))) as [e|] eqn:Hrm.
      + exists (called env (ContainerRemove true)
                  (logged ERROR (ErrorStoppingContainer e)
                     (called env (ContainerRemove false) s1))).
        split; [|done].
        rewrite (try_except_raise _ _ s e (called env (ContainerRemove false) s1)).
        * apply Hforce.
        * unfold body. rewrite (bind_ok _ _ _ _ _ H1). by apply external_unit_raise.
      + exists (called env (ContainerRemove false) s1). split; [|done].
        apply try_except_ok. unfold body. rewrite (bind_ok _ _ _ _ _ H1).
        by apply external_unit_ok. }
  destruct Htry as (s0 & Htry & Hz0 & Hr0 & Ht0).
  rewrite (bind_ok _ _ _ _ _ Htry), (Hclear s0 z Hz0). by eexists.
Qed.

Lemma stop_container_idle env s :
  scanner s = Some (mkZAPScannerObj None None) →
  stop_container env s = Some (Ok tt, s).
Proof.
  intros Hz. destruct s as [n t tr sc r]. cbn in Hz. subst sc. reflexivity.
Qed.

(** X13. [stop_container] never raises, whatever Docker answers: it
    stops the container, removes it, removes it by force when the stop or
    the removal failed, and ignores a failure of the forced removal; it
    leaves the scanner without container and without address, so a second
    [stop_container] does nothing at all. *)
Theorem stop_container_always_clears (env : Env) (s : State) (z : ZAPScannerObj) :
  scanner s = Some z →
  ∃ s1,
    stop_container env s = Some (Ok tt, s1)
    ∧ trace s1 = ((if container z then stop_events env (tick s) else []) ++ trace s)%list
    ∧ scanner s1 = Some (mkZAPScannerObj None None)
    ∧ scan_results s1 = scan_results s
    ∧ no_address s1
    ∧ stop_container env s1 = Some (Ok tt, s1).
Proof.
  intros Hz. destruct (stop_container_steps env s z Hz) as (s1 & Hstop & Hz1 & Hr1 & Ht1).
  exists s1. split_and!; try done.
  - by exists (mkZAPScannerObj None None).
  - by apply stop_container_idle.
Qed.

(** ** The reports *)

Lemma api_call_text_step env endpoint s :
  ready s → is_substring "/other/" endpoint = true →
  _api_call env endpoint s
  = Some (text_outcome (env_http env (tick s)), called env (HttpApi endpoint) s).
Proof.
  intros (z & u & Hz & Hu & Hne) Hother. unfold _api_call.
  rewrite (bind_ok _ _ _ _ _ (self_get_ready zap_url s z Hz)).
  rewrite Hu. cbn [from_option py_truthy].
  apply String.eqb_neq in Hne. rewrite Hne. cbn [negb]. rewrite Hother.
  unfold requests_get, text_outcome. rewrite !bind_eq. cbn [external].
  by destruct (env_http env (tick s)) as [e|status_code text json].
Qed.

Lemma raise_for_status_error code :
  400 ≤ code < 600 →
  ∃ e, raise_for_status code = Raise e ∧ exn_class e = RequestException.
Proof.
  intros H. unfold raise_for_status.
  rewrite (proj2 (Z.leb_le _ _)), (proj2 (Z.ltb_lt _ _)) by lia. by eexists.
Qed.

(** X14. [generate_html_report] returns the text of the engine's reply
    whatever its status code is, an error page included, and raises only
    when the request itself fails; [generate_json_report] raises for every
    status from 400 to 599. *)
Theorem html_report_ignores_status (env : Env) (s : State) :
  ready s →
  generate_html_report env s
  = Some (text_outcome (env_http env (tick s)),
          called env (HttpApi "core/other/htmlreport/") s)
  ∧ generate_json_report env s
    = Some (api_outcome (env_http env (tick s)),
            called env (HttpApi "core/view/alerts/") s)
  ∧ ∀ code text json,
      env_http env (tick s) = HttpResp code text json →
      400 ≤ code < 600 →
      generate_html_report env s
      = Some (Ok (ApiText text), called env (HttpApi "core/other/htmlreport/") s)
      ∧ ∃ e, generate_json_report env s
             = Some (Raise e, called env (HttpApi "core/view/alerts/") s)
             ∧ exn_class e = RequestException.
Proof.
  intros Hs.
  pose proof (api_call_text_step env "core/other/htmlreport/" s Hs eq_refl) as Hhtml.
  pose proof (api_call_step env "core/view/alerts/" s Hs eq_refl) as Hjson.
  split; [done|]. split; [done|].
  intros code text json Hreply Hcode. unfold generate_html_report, generate_json_report.
  rewrite Hhtml, Hjson, Hreply. split; [done|].
  destruct (raise_for_status_error code Hcode) as (e & He & Hclass).
  exists e. split; [|done]. unfold api_outcome. by rewrite He.
Qed.

(** ** How many calls a poll loop makes *)

Section PollBound.
Context (env : Env) {A : Type} (attempt : M (option A)) (interval : Z).
Context (outcome : HttpReply → Res (option A)).
Context (I : State → Prop) (R : State → State → Prop).
Context (Hinterval : 1 ≤ interval).
Context (Hattempt : ∀ s, I s →
  ∃ s', attempt s = Some (outcome (env_http env (tick s)), s')
        ∧ I s' ∧ R s s' ∧ after_call env s s').
Context (Hsleep : ∀ s s', I s → sleep interval s = Some (Ok tt, s') → I s' ∧ R s s').

(** Every iteration takes [interval] seconds or more, so a loop that has
    [d] seconds left makes fewer than [d / interval + 1] calls. *)
Lemma loop_calls_bound : ∀ fuel s start_time timeout r s',
  I s →
  while_deadline fuel start_time timeout (iteration attempt interval) s = Some (r, s') →
  ∃ n : nat,
    tick s' = (tick s + n)%nat
    ∧ (timeout - (now s - start_time) ≤ 0 → n = 0%nat)
    ∧ interval * Z.of_nat n < Z.max 0 (timeout - (now s - start_time)) + interval.
Proof.
  induction fuel as [|fuel IH]; intros s start_time timeout r s' Hs; cbn [while_deadline].
  - destruct (Z.ltb_spec (now s - start_time) timeout) as [Hlt|Hge]; [done|].
    intros [= <- <-]. exists 0%nat. split_and!; [lia|done|lia].
  - destruct (Z.ltb_spec (now s - start_time) timeout) as [Hlt|Hge].
    2:{ intros [= <- <-]. exists 0%nat. split_and!; [lia|done|lia]. }
    destruct (Hattempt s Hs) as (s1 & Ha & HI1 & _ & Ht1 & Hn1 & _).
    unfold iteration at 1. rewrite bind_eq, Ha.
    destruct (outcome (env_http env (tick s))) as [[a|]|e].
    + intros [= <- <-]. exists 1%nat. split_and!; [lia|lia|lia].
    + set (s2 := mkState (now s1 + interval) (tick s1) (EvSleep interval :: trace s1)
                   (scanner s1) (scan_results s1)).
      change ((sleep interval ≫= λ _ : (), mret None) s1)
        with (Some (Ok (@None A), s2)).
      cbn match.
      destruct (Hsleep s1 s2 HI1 eq_refl) as [HI2 _].
      intros Hloop. destruct (IH s2 start_time timeout r s' HI2 Hloop) as (n & Htk & H0 & Hn).
      exists (S n). cbn [s2 tick now] in Htk, H0, Hn. split_and!; [lia|lia|].
      destruct (Z.le_gt_cases (timeout - (now s1 + interval - start_time)) 0) as [Hle|Hgt].
      * rewrite (H0 Hle). lia.
      * lia.
    + intros [= <- <-]. exists 1%nat. split_and!; [lia|lia|lia].
Qed.

Lemma poll_calls_bound s timeout r s' :
  I s →
  poll_until timeout attempt interval s = Some (r, s') →
  ∃ n : nat,
    tick s' = (tick s + n)%nat
    ∧ (timeout ≤ 0 → n = 0%nat)
    ∧ interval * Z.of_nat n < Z.max 0 timeout + interval.
Proof.
  intros Hs. unfold poll_until. rewrite bind_eq. cbn [time_time]. intros Hloop.
  destruct (loop_calls_bound _ _ _ _ _ _ Hs Hloop) as (n & Htk & H0 & Hn).
  exists n. split_and!; [done|intros; apply H0; lia|].
  by replace (timeout - (now s - now s)) with timeout in Hn by lia.
Qed.

End PollBound.

Lemma wait_for_zap_calls env timeout s r s' :
  _wait_for_zap env timeout s = Some (r, s') →
  ∃ n : nat, tick s' = (tick s + n)%nat ∧ 2 * Z.of_nat n < Z.max 0 timeout + 2.
Proof.
  unfold _wait_for_zap. rewrite bind_eq.
  destruct (poll_until timeout (probe_version env) 2 s) as [[r0 s0]|] eqn:Hp; [|done].
  destruct (poll_calls_bound env (probe_version env) 2 probe_outcome (λ _, True)
              (frame no_api false true true) ltac:(lia) (probe_attempt env)
              probe_sleep s timeout r0 s0 I Hp) as (n & Htk & _ & Hn).
  intros H. exists n. split; [|done].
  destruct r0 as [[a|]|e]; by injection H as _ <-.
Qed.

Lemma wait_for_passive_scan_calls env timeout s r s' :
  ready s →
  _wait_for_passive_scan env timeout s = Some (r, s') →
  ∃ n : nat, tick s' = (tick s + n)%nat ∧ 5 * Z.of_nat n < Z.max 0 timeout + 5.
Proof.
  intros Hs. unfold _wait_for_passive_scan. rewrite bind_eq.
  destruct (poll_until timeout (poll_passive env) 5 s) as [[r0 s0]|] eqn:Hp; [|done].
  destruct (poll_calls_bound env (poll_passive env) 5 passive_outcome ready
              (frame any_api true true true) ltac:(lia) (poll_passive_attempt env)
              passive_sleep s timeout r0 s0 Hs Hp) as (n & Htk & _ & Hn).
  intros H. exists n. split; [|done].
  destruct r0 as [[a|]|e]; by injection H as _ <-.
Qed.

Lemma status_wait_calls env endpoint interval timeout s r s' :
  is_substring "/other/" endpoint = false → 1 ≤ interval →
  ready s →
  poll_until timeout (poll_status env endpoint) interval s = Some (r, s') →
  ∃ n : nat, tick s' = (tick s + n)%nat
             ∧ interval * Z.of_nat n < Z.max 0 timeout + interval.
Proof.
  intros Hjson Hi Hs Hp.
  destruct (poll_calls_bound env (poll_status env endpoint) interval status_outcome ready
              (frame any_api true true true) Hi (status_attempt env endpoint Hjson)
              (λ s0 s1, status_sleep interval s0 s1 ltac:(lia)) s timeout r s' Hs Hp)
    as (n & Htk & _ & Hn).
  by exists n.
Qed.

Lemma wait_for_spider_calls env scan_id timeout s r s' :
  ready s →
  wait_for_spider env scan_id timeout s = Some (r, s') →
  ∃ n : nat, tick s' = (tick s + n)%nat ∧ 5 * Z.of_nat n < Z.max 0 timeout + 5.
Proof.
  intros Hs. unfold wait_for_spider. rewrite bind_eq.
  destruct (poll_until timeout (poll_status env "spider/view/status/") 5 s)
    as [[r0 s0]|] eqn:Hp; [|done].
  destruct (status_wait_calls env "spider/view/status/" 5 timeout s r0 s0 eq_refl
              ltac:(lia) Hs Hp)
    as (n & Htk & Hn).
  intros H. exists n. split; [|done].
  destruct r0 as [[a|]|e]; by injection H as _ <-.
Qed.

Lemma wait_for_active_scan_calls env scan_id timeout s r s' :
  ready s →
  wait_for_active_scan env scan_id timeout s = Some (r, s') →
  ∃ n : nat, tick s' = (tick s + n)%nat ∧ 10 * Z.of_nat n < Z.max 0 timeout + 10.
Proof.
  intros Hs. unfold wait_for_active_scan. rewrite bind_eq.
  destruct (poll_until timeout (poll_status env "ascan/view/status/") 10 s)
    as [[r0 s0]|] eqn:Hp; [|done].
  destruct (status_wait_calls env "ascan/view/status/" 10 timeout s r0 s0 eq_refl
              ltac:(lia) Hs Hp)
    as (n & Htk & Hn).
  intros H. exists n. split; [|done].
  destruct r0 as [[a|]|e]; by injection H as _ <-.
Qed.

(** X15. Whatever the engine answers, the wait loops end, and each sends
    a bounded number of requests, since every round takes its pause: the
    readiness wait at most 60 probes, the passive wait at most 60 polls,
    the spider wait fewer than [timeout / 5 + 1] and the active scan wait
    fewer than [timeout / 10 + 1] status polls (none when the timeout is
    not positive). *)
Theorem wait_loops_send_few_requests (env : Env) (scan_id : JVal) (timeout : Z)
    (s : State) :
  ready s →
  (∃ r s' (n : nat), _wait_for_zap env 120 s = Some (r, s')
     ∧ tick s' = (tick s + n)%nat ∧ (n ≤ 60)%nat)
  ∧ (∃ r s' (n : nat), _wait_for_passive_scan env 300 s = Some (r, s')
       ∧ tick s' = (tick s + n)%nat ∧ (n ≤ 60)%nat)
  ∧ (∃ r s' (n : nat), wait_for_spider env scan_id timeout s = Some (r, s')
       ∧ tick s' = (tick s + n)%nat
       ∧ 5 * Z.of_nat n < Z.max 0 timeout + 5)
  ∧ (∃ r s' (n : nat), wait_for_active_scan env scan_id timeout s = Some (r, s')
       ∧ tick s' = (tick s + n)%nat
       ∧ 10 * Z.of_nat n < Z.max 0 timeout + 10).
Proof.
  intros Hs. split_and!.
  - destruct (sat_wait_for_zap env any_api true true true 120 s) as (r & s' & H & _).
    destruct (wait_for_zap_calls env 120 s r s' H) as (n & Htk & Hn).
    exists r, s', n. split_and!; [done|done|lia].
  - destruct (sat_wait_for_passive_scan env any_api true true true 300 eq_refl s)
      as (r & s' & H & _).
    destruct (wait_for_passive_scan_calls env 300 s r s' Hs H) as (n & Htk & Hn).
    exists r, s', n. split_and!; [done|done|lia].
  - destruct (sat_wait_for_spider env any_api true true true scan_id timeout eq_refl s)
      as (r & s' & H & _).
    destruct (wait_for_spider_calls env scan_id timeout s r s' Hs H) as (n & Htk & Hn).
    by exists r, s', n.
  - destruct (sat_wait_for_active_scan env any_api true true true scan_id timeout eq_refl s)
      as (r & s' & H & _).
    destruct (wait_for_active_scan_calls env scan_id timeout s r s' Hs H) as (n & Htk & Hn).
    by exists r, s', n.
Qed.

(** ** The status waits at their first result *)

Lemma status_outcome_of_reply h :
  status_outcome h
  = match status_of_reply h with
    | Some n => Ok (if n >=? 100 then Some true else None)
    | None =>
        match status_outcome h with
        | Raise e => Raise e
        | Ok _ => Ok None
        end
    end
  ∧ (status_of_reply h = None → ∃ e, status_outcome h = Raise e).
Proof.
  unfold status_of_reply, status_outcome, api_outcome.
  destruct h as [e|st text json]; [by eauto|].
  destruct (raise_for_status st) as [[]|e]; [|by eauto].
  destruct json as [body|e]; [|by eauto]. cbn.
  destruct (jval_int (dict_get body "status" (JS (PInt 0)))) as [n|e]; cbn; [done|by eauto].
Qed.

Lemma status_outcome_reached h n :
  status_of_reply h = Some n → 100 ≤ n → status_outcome h = Ok (Some true).
Proof.
  intros Hn Hge. rewrite (proj1 (status_outcome_of_reply h)), Hn.
  destruct (n >=? 100) eqn:E; [done|]. rewrite Z.geb_leb in E. apply Z.leb_gt in E. lia.
Qed.

Section StatusResult.
Context (env : Env) (endpoint : string) (interval : Z).
Context (Hjson : is_substring "/other/" endpoint = false) (Hinterval : 1 ≤ interval).

(** The loop of a status wait leaves at the first poll that does not
    read a status below 100: [sk] is the state in which that poll is
    made. *)
Lemma status_wait_first_result timeout s (k : nat) :
  ready s →
  (∀ j, (j < k)%nat →
     ∃ n, status_of_reply (env_http env (tick s + j)) = Some n ∧ n < 100) →
  status_outcome (env_http env (tick s + k)) ≠ Ok None →
  elapsed env interval (tick s) k < timeout →
  ∃ sk,
    poll_until timeout (poll_status env endpoint) interval s
    = Some (status_outcome (env_http env (tick s + k)), called env (HttpApi endpoint) sk)
    ∧ ready sk
    ∧ tick sk = (tick s + k)%nat
    ∧ now sk = now s + elapsed env interval (tick s) k.
Proof.
  intros Hs Hbelow Hk Htime.
  destruct (poll_first_leave env (poll_status env endpoint) interval status_outcome ready
              (frame any_api true true true) Hinterval (status_attempt env endpoint Hjson)
              (λ s0 s1, status_sleep interval s0 s1 ltac:(lia)) k s timeout Hs)
    as (sk & s' & Hp & Ha & HIk & _ & Htk & Hnk & _); try done.
  { intros j Hj. destruct (Hbelow j Hj) as (n & Hn & Hlt).
    by apply (status_outcome_below _ n). }
  exists sk. split_and!; try done.
  rewrite (poll_status_step env endpoint sk HIk Hjson), Htk in Ha.
  injection Ha as <-. exact Hp.
Qed.

End StatusResult.

(** X16. When the first [k] status polls read less than 100 and the next
    one is made before the timeout, that poll decides: a status of 100 or
    more makes [wait_for_spider] return [True] at once, without another
    pause and without an error record; a poll that fails (the request
    raises, the status is an error status, or the reply has no numeric
    status) makes [wait_for_spider] raise that error, with no retry.
    [wait_for_active_scan] does the same with its pause of 10 seconds. *)
Theorem status_waits_end_at_first_result (env : Env) (scan_id : JVal) (timeout : Z)
    (s : State) (k : nat) :
  ready s →
  (∀ j, (j < k)%nat →
     ∃ n, status_of_reply (env_http env (tick s + j)) = Some n ∧ n < 100) →
  (elapsed env 5 (tick s) k < timeout →
   (∀ n, status_of_reply (env_http env (tick s + k)) = Some n → 100 ≤ n →
      ∃ sk, tick sk = (tick s + k)%nat
        ∧ now sk = now s + elapsed env 5 (tick s) k
        ∧ wait_for_spider env scan_id timeout s
          = Some (Ok true, called env (HttpApi "spider/view/status/") sk))
   ∧ (status_of_reply (env_http env (tick s + k)) = None →
      ∃ e sk, status_outcome (env_http env (tick s + k)) = Raise e
        ∧ tick sk = (tick s + k)%nat
        ∧ wait_for_spider env scan_id timeout s
          = Some (Raise e, called env (HttpApi "spider/view/status/") sk)))
  ∧ (elapsed env 10 (tick s) k < timeout →
     (∀ n, status_of_reply (env_http env (tick s + k)) = Some n → 100 ≤ n →
        ∃ sk, tick sk = (tick s + k)%nat
          ∧ now sk = now s + elapsed env 10 (tick s) k
          ∧ wait_for_active_scan env scan_id timeout s
            = Some (Ok true, called env (HttpApi "ascan/view/status/") sk))
     ∧ (status_of_reply (env_http env (tick s + k)) = None →
        ∃ e sk, status_outcome (env_http env (tick s + k)) = Raise e
          ∧ tick sk = (tick s + k)%nat
          ∧ wait_for_active_scan env scan_id timeout s
            = Some (Raise e, called env (HttpApi "ascan/view/status/") sk))).
Proof.
  intros Hs Hbelow.
  assert (Hgen : ∀ endpoint interval,
    is_substring "/other/" endpoint = false → 1 ≤ interval →
    elapsed env interval (tick s) k < timeout →
    (∀ n, status_of_reply (env_http env (tick s + k)) = Some n → 100 ≤ n →
       ∃ sk, tick sk = (tick s + k)%nat
         ∧ now sk = now s + elapsed env interval (tick s) k
         ∧ poll_until timeout (poll_status env endpoint) interval s
           = Some (Ok (Some true), called env (HttpApi endpoint) sk))
    ∧ (status_of_reply (env_http env (tick s + k)) = None →
       ∃ e sk, status_outcome (env_http env (tick s + k)) = Raise e
         ∧ tick sk = (tick s + k)%nat
         ∧ poll_until timeout (poll_status env endpoint) interval s
           = Some (Raise e, called env (HttpApi endpoint) sk))).
  { intros endpoint interval Hjson Hi Htime. split.
    - intros n Hn Hge. pose proof (status_outcome_reached _ n Hn Hge) as Ho.
      destruct (status_wait_first_result env endpoint interval Hjson Hi timeout s k
                  Hs Hbelow) as (sk & Hp & _ & Htk & Hnk); [by rewrite Ho|done|].
      exists sk. by rewrite <- Ho.
    - intros Hnone.
      destruct (proj2 (status_outcome_of_reply _) Hnone) as (e & He).
      destruct (status_wait_first_result env endpoint interval Hjson Hi timeout s k
                  Hs Hbelow) as (sk & Hp & _ & Htk & Hnk); [by rewrite He|done|].
      exists e, sk. by rewrite <- He. }
  split.
  - intros Htime.
    destruct (Hgen "spider/view/status/" 5 eq_refl ltac:(lia) Htime) as [Hok Hfail].
    split.
    + intros n Hn Hge. destruct (Hok n Hn Hge) as (sk & Htk & Hnk & Hp).
      exists sk. split_and!; [done|done|].
      unfold wait_for_spider. by rewrite (bind_ok _ _ _ _ _ Hp).
    + intros Hnone. destruct (Hfail Hnone) as (e & sk & He & Htk & Hp).
      exists e, sk. split_and!; [done|done|].
      unfold wait_for_spider. by rewrite (bind_raise _ _ _ _ _ Hp).
  - intros Htime.
    destruct (Hgen "ascan/view/status/" 10 eq_refl ltac:(lia) Htime) as [Hok Hfail].
    split.
    + intros n Hn Hge. destruct (Hok n Hn Hge) as (sk & Htk & Hnk & Hp).
      exists sk. split_and!; [done|done|].
      unfold wait_for_active_scan. by rewrite (bind_ok _ _ _ _ _ Hp).
    + intros Hnone. destruct (Hfail Hnone) as (e & sk & He & Htk & Hp).
      exists e, sk. split_and!; [done|done|].
      unfold wait_for_active_scan. by rewrite (bind_raise _ _ _ _ _ Hp).
Qed.

(** ** The readiness wait at its first answer *)

(** X17. When the first [k] probes are refused and the next one is made
    within the 120 seconds, that probe decides: an answer of 200 with a
    JSON body makes [_wait_for_zap] return at once; an exception of the
    request that is not a [RequestException] leaves the wait, and is not
    mistaken for a refusal. *)
Theorem readiness_wait_ends_at_first_answer (env : Env) (s : State) (k : nat) :
  (∀ j, (j < k)%nat → probe_refused (env_http env (tick s + j)) = true) →
  elapsed env 2 (tick s) k < 120 →
  probe_outcome (env_http env (tick s + k)) ≠ Ok None →
  ∃ sk,
    tick sk = (tick s + k)%nat
    ∧ now sk = now s + elapsed env 2 (tick s) k
    ∧ trace (called env HttpProbe sk) = EvOp HttpProbe :: trace sk
    ∧ (probe_ready (env_http env (tick s + k)) = true →
       _wait_for_zap env 120 s = Some (Ok tt, called env HttpProbe sk))
    ∧ (∀ e, probe_outcome (env_http env (tick s + k)) = Raise e →
       _wait_for_zap env 120 s = Some (Raise e, called env HttpProbe sk)).
Proof.
  intros Hrefused Htime Hk.
  destruct (poll_first_leave env (probe_version env) 2 probe_outcome (λ _, True)
              (frame no_api false true true) ltac:(lia) (probe_attempt env) probe_sleep
              k s 120 I) as (sk & s' & Hp & Ha & _ & _ & Htk & Hnk & _); try done.
  { intros j Hj. by apply probe_refused_outcome, Hrefused. }
  rewrite probe_version_step, Htk in Ha. injection Ha as <-.
  exists sk. split_and!; try done.
  - intros Hready%probe_ready_outcome. rewrite Hready in Hp.
    unfold _wait_for_zap. by rewrite (bind_ok _ _ _ _ _ Hp).
  - intros e He. rewrite He in Hp.
    unfold _wait_for_zap. by rewrite (bind_raise _ _ _ _ _ Hp).
Qed.

(** * More about the executor *)

(** ** The phases and the clean-up *)

Lemma execute_scan_try_phases_eq env scan_id config :
  execute_scan_try env scan_id config
  = (_initialize_scanner env scan_id;; execute_scan_phases env config).
Proof. reflexivity. Qed.

Section PhasesTotal.
Context (env : Env) (config : Config) (api : string → bool) (c ks : bool).
Context (Hpassive : api "pscan/view/recordsToScan/" = true).
Context (Halerts : api "core/view/alerts/" = true).
Context (Hspider : default true (cfg_spider_enabled config) = true →
                   forallb api spider_endpoints = true).
Context (Hajax : default false (cfg_ajax_enabled config) = true →
                 api "ajaxSpider/action/setOptionMaxDuration/" = true
                 ∧ api "ajaxSpider/action/scan/" = true).
Context (Hactive : default true (cfg_active_enabled config) = true →
                   api "ascan/action/scan/" = true ∧ api "ascan/view/status/" = true).

Lemma sat_spider_phase url :
  sat (frame api c ks false)
    (if default true (cfg_spider_enabled config)
     then _run_spider_scan env config url else mret tt).
Proof.
  destruct (default true (cfg_spider_enabled config));
    [apply sat_run_spider_scan; auto | apply sat_ret; apply _].
Qed.

Lemma sat_ajax_phase url :
  sat (frame api c ks false)
    (if default false (cfg_ajax_enabled config)
     then _run_ajax_spider_scan env config url else mret tt).
Proof.
  destruct (default false (cfg_ajax_enabled config)); [|apply sat_ret; apply _].
  destruct Hajax as [H1 H2]; [done|].
  unfold _run_ajax_spider_scan. sat_go.
  all: try by apply sat_on_scanner, sat_ajax_spider_scan.
Qed.

Lemma sat_passive_phase timeout :
  sat (frame api c ks false) (_wait_for_passive_scan env timeout).
Proof.
  unfold _wait_for_passive_scan. sat_go.
  unfold poll_passive. sat_go.
  all: try by apply sat_on_scanner, sat_get_scan_progress.
Qed.

Lemma sat_active_phase url :
  sat (frame api c ks false)
    (if default true (cfg_active_enabled config)
     then _run_active_scan env config url else mret tt).
Proof.
  destruct (default true (cfg_active_enabled config)); [|apply sat_ret; apply _].
  destruct Hactive as [H1 H2]; [done|].
  unfold _run_active_scan. sat_go.
  all: try first [ by apply sat_on_scanner, sat_active_scan
                 | by apply sat_on_scanner, sat_wait_for_active_scan ].
Qed.

Lemma sat_finish url start_time :
  sat (frame api c ks false) (execute_scan_finish env config url start_time).
Proof.
  unfold execute_scan_finish.
  apply sat_bind; [apply _|apply sat_active_phase|intros _].
  apply sat_bind; [apply _|by apply sat_on_scanner, sat_get_alerts|]. intros alerts.
  sat_go.
Qed.

Lemma sat_phases : sat (frame api c ks false) (execute_scan_phases env config).
Proof.
  unfold execute_scan_phases.
  destruct (cfg_url config) as [[|ch url]|]; [apply sat_raise; apply _| |apply sat_raise; apply _].
  apply sat_bind; [apply _|apply sat_time_time; apply _|]. intros start_time.
  apply sat_bind; [apply _|apply sat_update_results|]. intros _.
  apply sat_bind; [apply _|apply sat_spider_phase|intros _].
  apply sat_bind; [apply _|apply sat_ajax_phase|intros _].
  apply sat_bind; [apply _|apply sat_passive_phase|intros _].
  apply sat_finish.
Qed.

End PhasesTotal.

(** ** What the clean-up does *)

Lemma on_scanner_some {A} (m : M A) s z : scanner s = Some z → on_scanner m s = m s.
Proof. intros Hz. unfold on_scanner. rewrite bind_eq. cbn [get_scanner]. by rewrite Hz. Qed.

(** Saving the logs, inside its [try]: the log file is always written;
    the logs are those of the container when there is one. *)
Lemma save_logs_steps env s z :
  scanner s = Some z →
  ∃ s1 save,
    try_except (save_logs env) (λ e, log ERROR (ErrorSavingLogs e)) s = Some (Ok tt, s1)
    ∧ trace s1 = (save ++ trace s)%list
    ∧ scanner s1 = Some z ∧ scan_results s1 = scan_results s
    ∧ forallb (allowed no_api false) save = true
    ∧ EvOp WriteLogFile ∈ save
    ∧ (container z ≠ None → EvOp ContainerLogs ∈ save)
    ∧ (container z = None →
       save = ((match env_write env (tick s) with
                | None => []
                | Some e => [EvLog ERROR (ErrorSavingLogs e)]
                end) ++ [EvOp WriteLogFile])%list).
Proof.
  intros Hz.
  assert (Hlogs : ∃ logs s0 evs,
    get_container_logs env s = Some (Ok logs, s0)
    ∧ trace s0 = (evs ++ trace s)%list
    ∧ scanner s0 = Some z ∧ scan_results s0 = scan_results s
    ∧ forallb (allowed no_api false) evs = true
    ∧ (container z ≠ None → EvOp ContainerLogs ∈ evs)
    ∧ (container z = None → s0 = s ∧ evs = [])).
  { unfold get_container_logs.
    rewrite (bind_ok _ _ _ _ _ (self_get_ready container s z Hz)).
    destruct (container z) as [c|].
    - destruct (env_logs env (tick s)) as [logs|e] eqn:Hl.
      + exists logs, (called env ContainerLogs s), [EvOp ContainerLogs].
        split; [|split_and!; try done; intros _; apply list_elem_of_here].
        apply try_except_ok. by rewrite external_res_eq, Hl.
      + exists "", (logged ERROR (ErrorGettingLogs e) (called env ContainerLogs s)),
          [EvLog ERROR (ErrorGettingLogs e); EvOp ContainerLogs].
        split; [|split_and!; try done; intros _; apply list_elem_of_further, list_elem_of_here].
        rewrite (try_except_raise _ _ s e (called env ContainerLogs s)); [done|].
        by rewrite external_res_eq, Hl.
    - exists "", s, []. by split_and!. }
  destruct Hlogs as (logs & s0 & evs & Hget & Ht0 & Hz0 & Hr0 & Hall0 & Hlg & Hnone).
  assert (Hsave : ∀ r s1,
    external_unit env WriteLogFile env_write s0 = Some (r, s1) →
    save_logs env s = Some (r, s1)).
  { intros r s1 H. unfold save_logs. rewrite bind_eq, (on_scanner_some _ s z Hz), Hget.
    exact H. }
  destruct (env_write env (tick s0)) as [e|] eqn:Hw.
  - exists (logged ERROR (ErrorSavingLogs e) (called env WriteLogFile s0)),
      ([EvLog ERROR (ErrorSavingLogs e); EvOp WriteLogFile] ++ evs)%list.
    split_and!; try done.
    + rewrite (try_except_raise _ _ s e (called env WriteLogFile s0)); [done|].
      apply Hsave. by apply external_unit_raise.
    + cbn [logged called trace]. by rewrite Ht0.
    + apply list_elem_of_further, list_elem_of_here.
    + intros H. apply list_elem_of_further, list_elem_of_further. auto.
    + intros H. destruct (Hnone H) as [-> ->]. by rewrite Hw.
  - exists (called env WriteLogFile s0), ([EvOp WriteLogFile] ++ evs)%list.
    split_and!; try done.
    + apply try_except_ok, Hsave. by apply external_unit_ok.
    + cbn [called trace]. by rewrite Ht0.
    + apply list_elem_of_here.
    + intros H. apply list_elem_of_further. auto.
    + intros H. destruct (Hnone H) as [-> ->]. by rewrite Hw.
Qed.

(** The shutdown request: sent exactly when there is an address. *)
Lemma shutdown_steps env s z :
  scanner s = Some z →
  ∃ s1 down,
    shutdown env s = Some (Ok tt, s1)
    ∧ trace s1 = (down ++ trace s)%list
    ∧ scanner s1 = Some z ∧ scan_results s1 = scan_results s
    ∧ forallb (allowed cleanup_api false) down = true
    ∧ (ready s → EvOp (HttpApi "core/action/shutdown/") ∈ down)
    ∧ (no_address s → down = [EvLog WARNING (ErrorDuringShutdown not_started_error)]).
Proof.
  intros Hz.
  destruct (decide (py_truthy (from_option PStr PNone (zap_url z)) = true)) as [Hu|Hu].
  - assert (Hs : ready s).
    { exists z. destruct (zap_url z) as [u|]; [|done]. exists u. split_and!; [done..|].
      intros ->. done. }
    pose proof (api_call_step env "core/action/shutdown/" s Hs eq_refl) as Hcall.
    set (s0 := called env (HttpApi "core/action/shutdown/") s) in *.
    assert (Hno : ¬ no_address s).
    { intros (z' & Hz' & Hf). rewrite Hz in Hz'. injection Hz' as <-. congruence. }
    destruct (api_outcome (env_http env (tick s))) as [r|e].
    + exists (mkState (now s0 + 5) (tick s0) (EvSleep 5 :: trace s0) (scanner s0)
                (scan_results s0)),
        [EvSleep 5; EvOp (HttpApi "core/action/shutdown/")].
      split_and!; try done.
      * apply try_except_ok. by rewrite (bind_ok _ _ _ _ _ Hcall).
      * intros _. apply list_elem_of_further, list_elem_of_here.
    + exists (logged WARNING (ErrorDuringShutdown e) s0),
        [EvLog WARNING (ErrorDuringShutdown e); EvOp (HttpApi "core/action/shutdown/")].
      split_and!; try done.
      * unfold shutdown. rewrite (try_except_raise _ _ s e s0); [done|].
        by apply bind_raise.
      * intros _. apply list_elem_of_further, list_elem_of_here.
  - assert (Hno : no_address s).
    { exists z. split; [done|]. by destruct (py_truthy _). }
    exists (logged WARNING (ErrorDuringShutdown not_started_error) s),
      [EvLog WARNING (ErrorDuringShutdown not_started_error)].
    split_and!; try done.
    + unfold shutdown. rewrite (try_except_raise _ _ s not_started_error s); [done|].
      apply bind_raise. by apply api_call_no_address.
    + intros (z' & u & Hz' & Hu' & Hne). rewrite Hz in Hz'. injection Hz' as <-.
      rewrite Hu' in Hu. cbn in Hu. apply String.eqb_neq in Hne. by rewrite Hne in Hu.
Qed.

Lemma cleanup_with_scanner env s z :
  scanner s = Some z →
  ∃ s1 s2 s' save down,
    _cleanup env s = Some (Ok tt, s')
    ∧ trace s1 = (save ++ EvCleanup :: trace s)%list
    ∧ trace s2 = (down ++ trace s1)%list
    ∧ trace s' = ((if container z then stop_events env (tick s2) else []) ++ trace s2)%list
    ∧ scanner s' = Some (mkZAPScannerObj None None)
    ∧ scan_results s' = scan_results s
    ∧ forallb (allowed no_api false) save = true
    ∧ forallb (allowed cleanup_api false) down = true
    ∧ EvOp WriteLogFile ∈ save
    ∧ (container z ≠ None → EvOp ContainerLogs ∈ save)
    ∧ (ready s → EvOp (HttpApi "core/action/shutdown/") ∈ down)
    ∧ (container z = None →
       save = ((match env_write env (tick s) with
                | None => []
                | Some e => [EvLog ERROR (ErrorSavingLogs e)]
                end) ++ [EvOp WriteLogFile])%list)
    ∧ (no_address s → down = [EvLog WARNING (ErrorDuringShutdown not_started_error)]).
Proof.
  intros Hz.
  set (s0 := mkState (now s) (tick s) (EvCleanup :: trace s) (scanner s) (scan_results s)).
  destruct (save_logs_steps env s0 z Hz)
    as (s1 & save & Hsave & Ht1 & Hz1 & Hr1 & Hall1 & Hw & Hlg & Hsv).
  destruct (shutdown_steps env s1 z Hz1)
    as (s2 & down & Hdown & Ht2 & Hz2 & Hr2 & Hall2 & Hsd & Hna).
  destruct (stop_container_steps env s2 z Hz2) as (s' & Hstop & Hz' & Hr' & Ht').
  exists s1, s2, s', save, down. split_and!; try done.
  - unfold _cleanup. rewrite (bind_ok (emit EvCleanup) _ s tt s0 eq_refl).
    rewrite bind_eq. cbn [get_scanner]. change (scanner s0) with (scanner s). rewrite Hz.
    rewrite (bind_ok _ _ _ _ _ Hsave). apply try_except_ok.
    rewrite (bind_ok _ _ s1 tt s2) by (by rewrite (on_scanner_some _ s1 z Hz1)).
    by rewrite (on_scanner_some _ s2 z Hz2).
  - by rewrite Hr', Hr2, Hr1.
  - intros (z0 & u & Hz0 & Hu & Hne). apply Hsd. exists z0, u. split; [|done].
    by rewrite Hz1, <- Hz0, Hz.
  - intros (z0 & Hz0 & Hu). apply Hna. exists z0. split; [|done].
    by rewrite Hz1, <- Hz0, Hz.
Qed.

Lemma stop_events_stop env t :
  EvOp ContainerStop ∈ stop_events env t
  ∧ ∃ force, EvOp (ContainerRemove force) ∈ stop_events env t.
Proof.
  unfold stop_events.
  destruct (env_stop env t) as [e|]; [|destruct (env_remove env (S t)) as [e|]].
  - split; [do 2 apply list_elem_of_further; apply list_elem_of_here|].
    exists true. apply list_elem_of_here.
  - split; [do 3 apply list_elem_of_further; apply list_elem_of_here|].
    exists true. apply list_elem_of_here.
  - split; [apply list_elem_of_further, list_elem_of_here|].
    exists false. apply list_elem_of_here.
Qed.

(** X18. With a scanner object, [_cleanup] goes through all its steps
    whatever fails on the way, in this order: it saves the container log
    (the file is written even when there is no container or its log cannot
    be read), asks the engine to shut down when there is an engine
    address, and stops and removes the container when there is one.  It
    returns normally, leaves the result record alone, and leaves the
    scanner without container and address. *)
Theorem cleanup_tries_every_step (env : Env) (s : State) (z : ZAPScannerObj) :
  scanner s = Some z →
  ∃ s' save down stop,
    _cleanup env s = Some (Ok tt, s')
    ∧ trace s' = (stop ++ down ++ save ++ EvCleanup :: trace s)%list
    ∧ scanner s' = Some (mkZAPScannerObj None None)
    ∧ scan_results s' = scan_results s
    ∧ EvOp WriteLogFile ∈ save
    ∧ (ready s → EvOp (HttpApi "core/action/shutdown/") ∈ down)
    ∧ (no_address s → down = [EvLog WARNING (ErrorDuringShutdown not_started_error)])
    ∧ (container z ≠ None →
       EvOp ContainerLogs ∈ save ∧ EvOp ContainerStop ∈ stop
       ∧ ∃ force, EvOp (ContainerRemove force) ∈ stop)
    ∧ (container z = None →
       stop = []
       ∧ save = ((match env_write env (tick s) with
                  | None => []
                  | Some e => [EvLog ERROR (ErrorSavingLogs e)]
                  end) ++ [EvOp WriteLogFile])%list).
Proof.
  intros Hz.
  destruct (cleanup_with_scanner env s z Hz)
    as (s1 & s2 & s' & save & down & Hc & Ht1 & Ht2 & Ht' & Hz' & Hr' & _ & _
        & Hw & Hlg & Hsd & Hsv & Hna).
  exists s', save, down, (if container z then stop_events env (tick s2) else []).
  split_and!; try done.
  - by rewrite Ht', Ht2, Ht1.
  - intros Hcont. split; [by apply Hlg|].
    destruct (container z); [apply stop_events_stop|done].
  - intros Hcont. rewrite Hcont. split; [done|by apply Hsv].
Qed.

(** ** Disabled phases *)

Lemma enabled_api_other config endpoint :
  String.prefix "spider/" endpoint = false →
  String.prefix "ajaxSpider/" endpoint = false →
  String.prefix "ascan/" endpoint = false →
  enabled_api config endpoint = true.
Proof. intros H1 H2 H3. unfold enabled_api. rewrite H1, H2, H3. by rewrite !orb_true_r. Qed.

Lemma sat_execute_scan_primary_enabled env scan_id config :
  sat (frame (enabled_api config) false false false)
    (execute_scan_primary env scan_id config).
Proof.
  unfold execute_scan_primary.
  apply sat_try_except; [apply _| |intros e; apply sat_execute_scan_except].
  rewrite execute_scan_try_phases_eq.
  apply sat_bind; [apply _|apply sat_initialize_scanner|intros _].
  apply sat_phases.
  - by apply enabled_api_other.
  - by apply enabled_api_other.
  - intros H. unfold spider_endpoints, enabled_api. cbn [forallb]. rewrite H.
    by destruct (cfg_ajax_enabled config) as [[]|], (cfg_active_enabled config) as [[]|].
  - intros H. unfold enabled_api. rewrite H.
    by destruct (cfg_spider_enabled config) as [[]|], (cfg_active_enabled config) as [[]|].
  - intros H. unfold enabled_api. rewrite H.
    by destruct (cfg_spider_enabled config) as [[]|], (cfg_ajax_enabled config) as [[]|].
Qed.

Lemma allowed_all_weaken api api' c evs :
  (∀ ep, api ep = true → api' ep = true) →
  forallb (allowed api c) evs = true → forallb (allowed api' c) evs = true.
Proof.
  intros Himp. rewrite !forallb_forall. intros H ev Hin. specialize (H ev Hin).
  destruct ev as [op| | |]; try destruct op; cbn in *; auto.
Qed.

Lemma allowed_api_elem api c evs endpoint :
  forallb (allowed api c) evs = true → EvOp (HttpApi endpoint) ∈ evs → api endpoint = true.
Proof.
  rewrite forallb_forall. intros H Hin.
  by apply (H (EvOp (HttpApi endpoint))), list_elem_of_In.
Qed.

(** X19. A scan never calls an endpoint of a phase that its
    configuration disables: no spider endpoint when the spider is
    disabled, no AJAX spider endpoint unless the AJAX spider is enabled,
    no active scan endpoint when the active scan is disabled. *)
Theorem disabled_phases_are_never_called (env : Env) (scan_id : string)
    (config : Config) (s : State) :
  ∃ o s' evs,
    execute_scan env scan_id config s = Some (o, s')
    ∧ trace s' = (evs ++ trace s)%list
    ∧ (default true (cfg_spider_enabled config) = false →
       ∀ endpoint, EvOp (HttpApi endpoint) ∈ evs → String.prefix "spider/" endpoint = false)
    ∧ (default false (cfg_ajax_enabled config) = false →
       ∀ endpoint, EvOp (HttpApi endpoint) ∈ evs →
                   String.prefix "ajaxSpider/" endpoint = false)
    ∧ (default true (cfg_active_enabled config) = false →
       ∀ endpoint, EvOp (HttpApi endpoint) ∈ evs → String.prefix "ascan/" endpoint = false).
Proof.
  destruct (sat_execute_scan_primary_enabled env scan_id config s) as (o & s1 & Hs1 & HR).
  destruct (frame_trace _ _ _ _ _ _ HR) as (before & Hb & Hball).
  destruct (cleanup_steps env s1) as (s' & after & Hc & Ha & Haall & _ & _).
  assert (Hen : ∀ endpoint, EvOp (HttpApi endpoint) ∈ (after ++ EvCleanup :: before)%list →
                            enabled_api config endpoint = true).
  { intros endpoint Hin. apply elem_of_app in Hin as [Hin|Hin].
    - apply (allowed_api_elem _ false after); [|done].
      apply (allowed_all_weaken cleanup_api); [|done].
      intros ep Hep. unfold cleanup_api in Hep. apply String.eqb_eq in Hep as ->.
      by apply enabled_api_other.
    - apply elem_of_cons in Hin as [Hin|Hin]; [done|].
      by apply (allowed_api_elem _ false before). }
  exists o, s', (after ++ EvCleanup :: before)%list.
  split.
  { change (execute_scan env scan_id config)
      with (try_finally (execute_scan_primary env scan_id config) (_cleanup env)).
    unfold try_finally. by rewrite Hs1, Hc. }
  split; [by rewrite Ha, Hb, <- app_assoc|].
  split; [|split].
  - intros Hoff endpoint Hin. specialize (Hen endpoint Hin). unfold enabled_api in Hen.
    rewrite Hoff in Hen. cbn in Hen. by destruct (String.prefix "spider/" endpoint).
  - intros Hoff endpoint Hin. specialize (Hen endpoint Hin). unfold enabled_api in Hen.
    rewrite Hoff in Hen. destruct (String.prefix "ajaxSpider/" endpoint); [|done].
    cbn in Hen. by rewrite andb_false_r in Hen.
  - intros Hoff endpoint Hin. specialize (Hen endpoint Hin). unfold enabled_api in Hen.
    rewrite Hoff in Hen. destruct (String.prefix "ascan/" endpoint); [|done].
    cbn in Hen. by rewrite andb_false_r in Hen.
Qed.

(** ** The outcome of a scan and its record *)

(** What a phase that returns leaves of the target and the scan type in
    the record. *)
Lemma frame_keeps_start api c ks s s' :
  frame api c ks true s s' →
  now s ≤ now s'
  ∧ scan_type (scan_results s') = scan_type (scan_results s)
  ∧ Runtime.target_url (scan_results s') = Runtime.target_url (scan_results s).
Proof.
  intros H. rewrite (frame_results _ _ _ _ _ H). split; [by apply frame_now in H|done].
Qed.

Lemma run_spider_scan_keeps_start env config url s s' :
  _run_spider_scan env config url s = Some (Ok tt, s') →
  now s ≤ now s'
  ∧ scan_type (scan_results s') = scan_type (scan_results s)
  ∧ Runtime.target_url (scan_results s') = Runtime.target_url (scan_results s).
Proof.
  unfold _run_spider_scan. intros H.
  apply bind_inv_ok in H as (id & s1 & H1 & H).
  apply bind_inv_ok in H as (ok & s2 & H2 & H).
  apply bind_inv_ok in H as ([] & s3 & H3 & H).
  injection H as <-. cbn [now scan_results scan_type Runtime.target_url].
  assert (F1 : frame any_api true true true s s1).
  { eapply sat_frame; [|exact H1]. by apply sat_on_scanner, sat_spider_scan. }
  assert (F2 : frame any_api true true true s1 s2).
  { eapply sat_frame; [|exact H2]. by apply sat_on_scanner, sat_wait_for_spider. }
  assert (F3 : frame any_api true true true s2 s3).
  { eapply sat_frame; [|exact H3]. destruct (negb ok); [apply sat_log|apply sat_ret, _]. }
  by apply (frame_keeps_start any_api true true), (frame_trans _ _ _ _ _ s1),
           (frame_trans _ _ _ _ _ s2).
Qed.

Lemma run_active_scan_keeps_start env config url s s' :
  _run_active_scan env config url s = Some (Ok tt, s') →
  now s ≤ now s'
  ∧ scan_type (scan_results s') = scan_type (scan_results s)
  ∧ Runtime.target_url (scan_results s') = Runtime.target_url (scan_results s).
Proof.
  unfold _run_active_scan. intros H.
  apply bind_inv_ok in H as (id & s1 & H1 & H).
  apply bind_inv_ok in H as (ok & s2 & H2 & H).
  apply bind_inv_ok in H as ([] & s3 & H3 & H).
  injection H as <-. cbn [now scan_results scan_type Runtime.target_url].
  assert (F1 : frame any_api true true true s s1).
  { eapply sat_frame; [|exact H1]. by apply sat_on_scanner, sat_active_scan. }
  assert (F2 : frame any_api true true true s1 s2).
  { eapply sat_frame; [|exact H2]. by apply sat_on_scanner, sat_wait_for_active_scan. }
  assert (F3 : frame any_api true true true s2 s3).
  { eapply sat_frame; [|exact H3]. destruct (negb ok); [apply sat_log|apply sat_ret, _]. }
  by apply (frame_keeps_start any_api true true), (frame_trans _ _ _ _ _ s1),
           (frame_trans _ _ _ _ _ s2).
Qed.

(** The [try] block after the initialisation, when it returns. *)
Lemma execute_scan_phases_ok env config s r s' :
  execute_scan_phases env config s = Some (Ok r, s') →
  r = scan_results s' ∧ completed_record r
  ∧ Runtime.target_url r = cfg_url config
  ∧ scan_type r = Some (default "full" (cfg_scan_type config)).
Proof.
  unfold execute_scan_phases. intros H.
  destruct (cfg_url config) as [[|ch url]|]; [done| |done].
  apply bind_inv_ok in H as (start_time & st & Htime & H). injection Htime as <- <-.
  apply bind_inv_ok in H as ([] & su & Hupd & H). injection Hupd as <-.
  apply bind_inv_ok in H as ([] & ssp & Hsp & H).
  apply bind_inv_ok in H as ([] & saj & Haj & H).
  apply bind_inv_ok in H as ([] & spw & Hpw & H).
  unfold execute_scan_finish in H.
  apply bind_inv_ok in H as ([] & sac & Hac & H).
  apply bind_inv_ok in H as (alerts & sal & Hal & H).
  apply bind_inv_ok in H as (end_time & se & Hend & H). injection Hend as <- <-.
  apply bind_inv_ok in H as ([] & sr & Hres & H). injection Hres as <-.
  injection H as <- <-.
  set (su := mkState _ _ _ _ _) in Hsp.
  assert (Ksp : now su ≤ now ssp
                ∧ scan_type (scan_results ssp) = scan_type (scan_results su)
                ∧ Runtime.target_url (scan_results ssp)
                  = Runtime.target_url (scan_results su)).
  { destruct (default true (cfg_spider_enabled config)).
    - by apply (run_spider_scan_keeps_start env config (String ch url)).
    - by injection Hsp as <-. }
  assert (Kaj : frame any_api true true true ssp saj).
  { eapply sat_frame; [|exact Haj].
    destruct (default false (cfg_ajax_enabled config));
      [by apply sat_run_ajax_spider_scan | apply sat_ret; apply _]. }
  apply frame_keeps_start in Kaj.
  assert (Kpw : frame any_api true true true saj spw).
  { eapply sat_frame; [|exact Hpw]. by apply sat_wait_for_passive_scan. }
  assert (Kac : now spw ≤ now sac
                ∧ scan_type (scan_results sac) = scan_type (scan_results spw)
                ∧ Runtime.target_url (scan_results sac)
                  = Runtime.target_url (scan_results spw)).
  { destruct (default true (cfg_active_enabled config)).
    - by apply (run_active_scan_keeps_start env config (String ch url)).
    - by injection Hac as <-. }
  assert (Kal : frame any_api true true true sac sal).
  { eapply sat_frame; [|exact Hal]. by apply sat_collect. }
  apply frame_keeps_start in Kpw, Kal.
  destruct Ksp as (N1 & S1 & U1), Kaj as (N2 & S2 & U2), Kpw as (N3 & S3 & U3),
           Kac as (N4 & S4 & U4), Kal as (N5 & S5 & U5).
  cbn [su now scan_results scan_type Runtime.target_url] in N1, S1, U1.
  split; [done|]. split; [|split].
  - split; [done|]. by exists (alerts_of alerts).
  - cbn [scan_results Runtime.target_url]. by rewrite U5, U4, U3, U2, U1.
  - cbn [scan_results scan_type]. by rewrite S5, S4, S3, S2, S1.
Qed.

Lemma execute_scan_except_step e s :
  execute_scan_except e s
  = Some (Raise e,
          mkState (now s) (tick s) (EvLog ERROR (ScanExecutionFailed e) :: trace s)
            (scanner s)
            (let r := scan_results s in
             mkScanResults (started_at r) (Runtime.target_url r) (scan_type r)
               (spider_scan_id r) (active_scan_id r) (completed_at r) (duration r)
               (Some "failed") (Some (exn_msg e))
               (result_vulnerabilities r) (result_statistics r))).
Proof. reflexivity. Qed.

(** X20. Every scan ends, and its outcome and the record it leaves agree.
    A scan that returns, returns the record it leaves: the status is
    [completed], the target is the configured one, the scan type is the
    configured one or [full], and the findings and the statistics come
    from one run of the parser.  A scan that raises leaves a record with
    the status [failed] and the message of the exception it raises. *)
Theorem execute_scan_outcome_is_recorded (env : Env) (scan_id : string)
    (config : Config) (s : State) :
  ∃ o s',
    execute_scan env scan_id config s = Some (o, s')
    ∧ match o with
      | Ok r =>
          r = get_scan_results s' ∧ completed_record r
          ∧ Runtime.target_url r = cfg_url config
          ∧ scan_type r = Some (default "full" (cfg_scan_type config))
      | Raise e =>
          status (get_scan_results s') = Some "failed"
          ∧ error (get_scan_results s') = Some (exn_msg e)
      end.
Proof.
  destruct (sat_execute_scan_primary_enabled env scan_id config s) as (o & s1 & Hs1 & _).
  destruct (cleanup_steps env s1) as (s' & after & Hc & _ & _ & Hres & _).
  exists o, s'. split.
  { change (execute_scan env scan_id config)
      with (try_finally (execute_scan_primary env scan_id config) (_cleanup env)).
    unfold try_finally. by rewrite Hs1, Hc. }
  unfold get_scan_results. rewrite Hres.
  unfold execute_scan_primary, try_except in Hs1.
  destruct (execute_scan_try env scan_id config s) as [[[r0|e0] s0]|] eqn:Htry; [| |done].
  - injection Hs1 as <- <-.
    rewrite execute_scan_try_phases_eq in Htry.
    apply bind_inv_ok in Htry as ([] & si & _ & Hph).
    by apply execute_scan_phases_ok in Hph.
  - rewrite execute_scan_except_step in Hs1. by injection Hs1 as <- <-.
Qed.

(** ** Scans that fail before the first phase *)

Lemma cleanup_without_scanner env s :
  scanner s = None →
  _cleanup env s
  = Some (Ok tt, mkState (now s) (tick s) (EvCleanup :: trace s) (scanner s) (scan_results s)).
Proof.
  intros Hz. unfold _cleanup.
  rewrite (bind_ok (emit EvCleanup) _ s tt
             (mkState (now s) (tick s) (EvCleanup :: trace s) (scanner s) (scan_results s))
             eq_refl).
  rewrite bind_eq. cbn [get_scanner scanner]. by rewrite Hz.
Qed.

(** The state in which the [except] clause of [execute_scan] ends. *)
Lemma execute_scan_raise env scan_id config s e s1 :
  execute_scan_try env scan_id config s = Some (Raise e, s1) →
  ∃ sf, execute_scan env scan_id config s
        = try_finally (λ _, Some (Raise e, sf)) (_cleanup env) s
        ∧ trace sf = EvLog ERROR (ScanExecutionFailed e) :: trace s1
        ∧ scanner sf = scanner s1 ∧ tick sf = tick s1
        ∧ status (scan_results sf) = Some "failed"
        ∧ error (scan_results sf) = Some (exn_msg e)
        ∧ started_at (scan_results sf) = started_at (scan_results s1).
Proof.
  intros Htry. eexists. split.
  - unfold execute_scan, try_finally.
    by rewrite (try_except_raise _ _ s e s1 Htry), execute_scan_except_step.
  - done.
Qed.

(** X21. When the executor has no scanner yet and Docker cannot be
    reached, the scan raises Docker's error: the record says [failed] with
    that error's message, nothing was started, the engine is never called,
    and the clean-up has nothing to do. *)
Theorem docker_failure_starts_nothing (env : Env) (scan_id : string) (config : Config)
    (s : State) (e : Exn) :
  scanner s = None →
  env_from_env env (tick s) = Some e →
  ∃ s',
    execute_scan env scan_id config s = Some (Raise e, s')
    ∧ trace s' = EvCleanup :: EvLog ERROR (ScanExecutionFailed e)
                 :: EvOp DockerFromEnv :: trace s
    ∧ scanner s' = None
    ∧ status (get_scan_results s') = Some "failed"
    ∧ error (get_scan_results s') = Some (exn_msg e).
Proof.
  intros Hz He.
  assert (Htry : execute_scan_try env scan_id config s
                 = Some (Raise e, called env DockerFromEnv s)).
  { rewrite execute_scan_try_phases_eq. apply bind_raise.
    unfold _initialize_scanner. apply bind_raise.
    unfold __init__. apply bind_raise. by apply external_unit_raise. }
  destruct (execute_scan_raise env scan_id config s e _ Htry)
    as (sf & Hexec & Ht & Hzf & _ & Hst & Her & _).
  cbn [called scanner trace] in Ht, Hzf. rewrite Hz in Hzf.
  eexists. split.
  { rewrite Hexec. unfold try_finally. by rewrite (cleanup_without_scanner env sf Hzf). }
  cbn [trace scanner scan_results get_scan_results]. by rewrite Ht.
Qed.

(** When [start_container] returns, the container was run, and the
    scanner holds its id and the engine's address. *)
Lemma start_container_ok_started env scan_id s z container_id s' :
  scanner s = Some z →
  start_container env scan_id s = Some (Ok container_id, s') →
  ∃ evs,
    trace s' = (evs ++ trace s)%list
    ∧ EvOp (ContainersRun ("amtd-zap-" ++ scan_id)) ∈ evs
    ∧ forallb (allowed no_api false) evs = true
    ∧ scanner s'
      = Some (mkZAPScannerObj (Some container_id)
                (Some ("http://" ++ ("amtd-zap-" ++ scan_id) ++ ":" ++ pretty zap_port)))
    ∧ scan_results s' = scan_results s.
Proof.
  intros Hz Hstart. unfold start_container in Hstart.
  apply try_except_inv_ok in Hstart as [Hbody|(e & s1 & _ & Hh)]; [|done].
  apply bind_inv_ok in Hbody as ([] & sa & Hold & Hbody).
  apply bind_inv_ok in Hbody as (cid & sb & Hrun & Hbody).
  apply bind_inv_ok in Hbody as ([] & sc & Hset1 & Hbody).
  apply bind_inv_ok in Hbody as ([] & sd & Hset2 & Hbody).
  apply bind_inv_ok in Hbody as ([] & se & Hwait & Hbody).
  injection Hbody as <- <-.
  assert (Hfa : frame no_api false true true s sa).
  { eapply sat_frame; [|exact Hold]. sat_go. }
  rewrite external_res_eq in Hrun. injection Hrun as _ <-.
  assert (Hfe : frame no_api false true true sd se).
  { eapply sat_frame; [|exact Hwait]. apply sat_wait_for_zap. }
  assert (Hzb : scanner (called env (ContainersRun ("amtd-zap-" ++ scan_id)) sa) = Some z).
  { cbn [called scanner]. by rewrite (frame_scanner _ _ _ _ _ Hfa). }
  rewrite (self_set_ready _ _ z Hzb) in Hset1. injection Hset1 as <-.
  unfold self_set in Hset2. rewrite bind_eq in Hset2.
  cbn [get_scanner scanner set_scanner] in Hset2. injection Hset2 as <-.
  destruct (frame_trace _ _ _ _ _ _ Hfa) as (ea & Hta & Halla).
  destruct (frame_trace _ _ _ _ _ _ Hfe) as (ee & Hte & Halle).
  cbn [trace called] in Hte.
  exists (ee ++ EvOp (ContainersRun ("amtd-zap-" ++ scan_id)) :: ea)%list.
  split_and!.
  - by rewrite Hte, Hta, <- app_assoc.
  - apply elem_of_app. right. apply list_elem_of_here.
  - rewrite forallb_app. cbn [forallb allowed]. by rewrite Halle, Halla.
  - by rewrite (frame_scanner _ _ _ _ _ Hfe).
  - by rewrite (frame_results _ _ _ _ _ Hfe), <- (frame_results _ _ _ _ _ Hfa).
Qed.

Lemma initialize_scanner_ok_started env scan_id s s' :
  _initialize_scanner env scan_id s = Some (Ok tt, s') →
  ∃ container_id evs,
    trace s' = (evs ++ trace s)%list
    ∧ EvOp (ContainersRun ("amtd-zap-" ++ scan_id)) ∈ evs
    ∧ forallb (allowed no_api false) evs = true
    ∧ scanner s'
      = Some (mkZAPScannerObj (Some container_id)
                (Some ("http://" ++ ("amtd-zap-" ++ scan_id) ++ ":" ++ pretty zap_port)))
    ∧ scan_results s' = scan_results s.
Proof.
  unfold _initialize_scanner. intros H.
  apply bind_inv_ok in H as (z & sa & Hinit & H).
  apply bind_inv_ok in H as ([] & sb & Hset & H).
  apply bind_inv_ok in H as (cid & sc & Hstart & H).
  injection H as <-. injection Hset as <-.
  unfold on_scanner in Hstart. rewrite bind_eq in Hstart.
  cbn [get_scanner scanner] in Hstart.
  apply (start_container_ok_started env scan_id _ z) in Hstart
    as (evs & Ht & Hin & Hall & Hz & Hr); [|done].
  assert (Hfi : frame no_api false true true s sa).
  { eapply sat_frame; [|exact Hinit]. apply sat_init. }
  destruct (frame_trace _ _ _ _ _ _ Hfi) as (ei & Hti & Halli).
  cbn [trace scan_results] in Ht, Hr.
  exists cid, (evs ++ ei)%list. split_and!.
  - by rewrite Ht, Hti, <- app_assoc.
  - apply elem_of_app. by left.
  - rewrite forallb_app. by rewrite Hall, Halli.
  - done.
  - by rewrite Hr, (frame_results _ _ _ _ _ Hfi).
Qed.

(** X22. A configuration without a target URL (absent or empty) is only
    found out after the scanner is initialised.  The scan never returns
    and never starts a phase; when the initialisation succeeds, the
    container was run before the error is raised, the error is the
    [ValueError] for the missing URL, and the clean-up shuts the engine
    down and stops the container. *)
Theorem missing_target_is_found_after_start (env : Env) (scan_id : string)
    (config : Config) (s : State) :
  cfg_url config = None ∨ cfg_url config = Some "" →
  ∃ e s' evs,
    execute_scan env scan_id config s = Some (Raise e, s')
    ∧ trace s' = (evs ++ trace s)%list
    ∧ forallb (λ ev, negb (is_phase_op ev)) evs = true
    ∧ status (get_scan_results s') = Some "failed"
    ∧ error (get_scan_results s') = Some (exn_msg e)
    ∧ (∀ si, _initialize_scanner env scan_id s = Some (Ok tt, si) →
         e = missing_url_error
         ∧ ∃ before after,
             evs = (after ++ EvCleanup :: EvLog ERROR (ScanExecutionFailed e) :: before)%list
             ∧ trace si = (before ++ trace s)%list
             ∧ EvOp (ContainersRun ("amtd-zap-" ++ scan_id)) ∈ before
             ∧ EvOp (HttpApi "core/action/shutdown/") ∈ after
             ∧ EvOp ContainerStop ∈ after).
Proof.
  intros Hurl.
  assert (Hph : ∀ si, execute_scan_phases env config si = Some (Raise missing_url_error, si)).
  { intros si. unfold execute_scan_phases. by destruct Hurl as [-> | ->]. }
  destruct (sat_initialize_scanner env scan_id no_api false true s)
    as (ri & si & Hinit & Hfi).
  assert (∃ e, execute_scan_try env scan_id config s = Some (Raise e, si)
               ∧ (ri = Ok tt → e = missing_url_error)) as (e & Htry & He).
  { rewrite execute_scan_try_phases_eq. destruct ri as [[]|e0].
    - exists missing_url_error. by rewrite (bind_ok _ _ _ _ _ Hinit).
    - exists e0. by rewrite (bind_raise _ _ _ _ _ Hinit). }
  destruct (execute_scan_raise env scan_id config s e si Htry)
    as (sf & Hexec & Htf & Hzf & _ & Hst & Her & _).
  destruct (cleanup_steps env sf) as (s' & after & Hc & Ht' & Hall & Hres & _).
  destruct (frame_trace _ _ _ _ _ _ Hfi) as (before & Hti & Hallb).
  exists e, s', (after ++ EvCleanup :: EvLog ERROR (ScanExecutionFailed e) :: before)%list.
  split_and!.
  - rewrite Hexec. unfold try_finally. by rewrite Hc.
  - rewrite Ht', Htf, Hti, <- app_assoc. done.
  - rewrite forallb_app. cbn [forallb is_phase_op negb andb].
    rewrite (no_phase_allowed cleanup_api false after (λ _ H, H) Hall).
    by rewrite (no_phase_allowed no_api false before (λ _ H, ltac:(done)) Hallb).
  - unfold get_scan_results. by rewrite Hres.
  - unfold get_scan_results. by rewrite Hres.
  - intros si' Hok. rewrite Hinit in Hok. injection Hok as -> <-.
    split; [by apply He|].
    destruct (initialize_scanner_ok_started env scan_id s si Hinit)
      as (cid & before' & Hti' & Hrun & _ & Hz & _).
    rewrite Hti in Hti'. apply app_inv_tail in Hti'. subst before'.
    rewrite <- Hzf in Hz.
    destruct (cleanup_with_scanner env sf _ Hz)
      as (s1 & s2 & s'' & save & down & Hc' & Ht1 & Ht2 & Hts & _ & _ & _ & _ & _ & _
          & Hdown & _).
    rewrite Hc in Hc'. injection Hc' as <-.
    assert (Hafter : after
                     = ((if container (mkZAPScannerObj (Some cid) None)
                         then stop_events env (tick s2) else []) ++ down ++ save)%list).
    { rewrite Ht2, Ht1, Ht', !app_assoc in Hts. apply app_inv_tail in Hts.
      by rewrite Hts, <- app_assoc. }
    cbn [container] in Hafter.
    exists before, after. split_and!; try done.
    + rewrite Hafter. apply elem_of_app. right. apply elem_of_app. left.
      apply Hdown. eexists _, _. split; [exact Hz|]. split; [done|].
      change ("http://" ++ ("amtd-zap-" ++ scan_id) ++ ":" ++ pretty zap_port)
        with (String "h" ("ttp://" ++ ("amtd-zap-" ++ scan_id) ++ ":" ++ pretty zap_port)).
      discriminate.
    + rewrite Hafter. apply elem_of_app. left. apply stop_events_stop.
Qed.

(** ** The active scan that does not finish *)

(** X23. The active scan is started, and every status its wait reads
    before the configured timeout (7200 seconds when there is none) is
    below 100.  Then [wait_for_active_scan] returns [False] once the
    timeout is over, having logged that the active scan timed out;
    [_run_active_scan] logs a warning, records the id of the active scan
    and returns: the status and the error of the record are untouched. *)
Theorem active_scan_timeout_is_soft (env : Env) (config : Config) (target_url : string)
    (s : State) :
  ready s →
  api_fails (env_http env (tick s)) = false →
  (∀ j, elapsed env 10 (S (tick s)) j < default 7200 (cfg_timeout config) →
     ∃ n, status_of_reply (env_http env (S (tick s) + j)) = Some n ∧ n < 100) →
  ∃ active_id s1 s',
    active_scan env target_url s
    = Some (Ok active_id, called env (HttpApi "ascan/action/scan/") s)
    ∧ wait_for_active_scan env active_id (default 7200 (cfg_timeout config))
        (called env (HttpApi "ascan/action/scan/") s)
      = Some (Ok false, logged ERROR (ActiveScanTimedOut active_id) s1)
    ∧ default 7200 (cfg_timeout config)
      ≤ now s1 - now (called env (HttpApi "ascan/action/scan/") s)
    ∧ _run_active_scan env config target_url s = Some (Ok tt, s')
    ∧ trace s' = EvLog WARNING ActiveScanDidNotComplete
                 :: EvLog ERROR (ActiveScanTimedOut active_id) :: trace s1
    ∧ active_scan_id (scan_results s') = Some active_id
    ∧ status (scan_results s') = status (scan_results s)
    ∧ error (scan_results s') = error (scan_results s).
Proof.
  intros Hs Hcall Hbelow.
  destruct (api_call_ok env "ascan/action/scan/" s Hs eq_refl Hcall) as (body & Hstart).
  set (s0 := called env (HttpApi "ascan/action/scan/") s).
  set (active_id := dict_get body "scan" (JS (PStr ""))).
  assert (Hs0 : ready s0) by by apply called_ready.
  destruct (wait_for_active_scan_timeout env active_id
              (default 7200 (cfg_timeout config)) s0 Hs0)
    as (s1 & Hwait & Hs1 & Hf1 & Hend).
  { intros j Hj. destruct (Hbelow j Hj) as (n & Hn & Hlt).
    by apply (status_outcome_below _ n). }
  set (s2 := logged WARNING ActiveScanDidNotComplete
               (logged ERROR (ActiveScanTimedOut active_id) s1)).
  set (r2 := scan_results s2).
  assert (Hact : active_scan env target_url s = Some (Ok active_id, s0)).
  { unfold active_scan. by rewrite (bind_ok _ _ _ _ _ Hstart). }
  exists active_id, s1,
    (mkState (now s2) (tick s2) (trace s2) (scanner s2)
       (mkScanResults (started_at r2) (Runtime.target_url r2) (scan_type r2)
          (spider_scan_id r2) (Some active_id) (completed_at r2) (duration r2)
          (status r2) (error r2) (result_vulnerabilities r2)
          (result_statistics r2))).
  assert (Hr : scan_results s1 = scan_results s).
  { by rewrite (frame_results _ _ _ _ _ Hf1). }
  split; [done|]. split; [done|]. split; [done|]. split.
  { unfold _run_active_scan.
    rewrite (bind_ok _ _ s active_id s0) by (by rewrite (on_scanner_ready _ _ Hs)).
    rewrite (bind_ok _ _ s0 false (logged ERROR (ActiveScanTimedOut active_id) s1))
      by (by rewrite (on_scanner_ready _ _ Hs0)).
    cbn [negb]. by rewrite (bind_ok _ _ _ tt s2). }
  cbn [trace scan_results active_scan_id status error r2 s2 logged]. by rewrite Hr.
Qed.

(** ** The order of the requests *)

Lemma performs_refl ok s : performs ok s s.
Proof. split; [by exists []|lia]. Qed.

Lemma performs_trans ok s1 s2 s3 :
  performs ok s1 s2 → performs ok s2 s3 → performs ok s1 s3.
Proof.
  intros ((e1 & He1 & Ha1) & Hn1) ((e2 & He2 & Ha2) & Hn2).
  split; [|lia].
  exists (e2 ++ e1)%list. rewrite He2, He1, app_assoc. split; [done|].
  rewrite forallb_app. by rewrite Ha1, Ha2.
Qed.

#[global] Instance performs_preorder ok : PreOrder (performs ok).
Proof.
  split; [intros s; apply performs_refl | intros s1 s2 s3; apply performs_trans].
Qed.

Lemma performs_now ok s s' : performs ok s s' → now s ≤ now s'.
Proof. by intros (_ & H). Qed.

Section PerformsPrimitives.
Context (env : Env) (ok : Op → bool).

Lemma performs_cons ev s s' :
  permitted ok ev = true → trace s' = ev :: trace s → now s ≤ now s' →
  performs ok s s'.
Proof.
  intros Hev Ht Hn. split; [|done].
  exists [ev]. split; [done|]. cbn. by rewrite Hev.
Qed.

Lemma perf_external {A} op (reply : Env → nat → A) :
  ok op = true → sat (performs ok) (external env op reply).
Proof.
  intros Hop s. eexists _, _. split; [reflexivity|].
  apply (performs_cons (EvOp op)); cbn; try done; lia.
Qed.

Lemma perf_external_unit op reply :
  ok op = true → sat (performs ok) (external_unit env op reply).
Proof.
  intros Hop. apply sat_bind; [apply _|by apply perf_external|].
  intros [e|]; [apply sat_raise|apply sat_ret]; apply _.
Qed.

Lemma perf_external_res {A} op (reply : Env → nat → Res A) :
  ok op = true → sat (performs ok) (external_res env op reply).
Proof.
  intros Hop. apply sat_bind; [apply _|by apply perf_external|].
  intros r. apply sat_lift_res. apply _.
Qed.

Lemma perf_log lvl msg : sat (performs ok) (log lvl msg).
Proof.
  intros s. eexists _, _. split; [reflexivity|].
  apply (performs_cons (EvLog lvl msg)); cbn; try done; lia.
Qed.

Lemma perf_emit_cleanup : sat (performs ok) (emit EvCleanup).
Proof.
  intros s. eexists _, _. split; [reflexivity|].
  apply (performs_cons EvCleanup); cbn; try done; lia.
Qed.

Lemma perf_sleep n : 0 ≤ n → sat (performs ok) (sleep n).
Proof.
  intros Hn s. eexists _, _. split; [reflexivity|].
  apply (performs_cons (EvSleep n)); cbn; try done; lia.
Qed.

Lemma perf_set_scanner z : sat (performs ok) (set_scanner z).
Proof. intros s. eexists _, _. split; [reflexivity|]. split; [by exists []|cbn; lia]. Qed.

Lemma perf_update_results f : sat (performs ok) (update_results f).
Proof. intros s. eexists _, _. split; [reflexivity|]. split; [by exists []|cbn; lia]. Qed.

End PerformsPrimitives.

(** Applies the rules of [sat] for [performs] along the shape of a
    monadic term; the operations met must satisfy the predicate. *)
Ltac perf_go :=
  repeat match goal with
    | |- sat _ (mret _) => apply sat_ret; apply _
    | |- sat _ (raise _) => apply sat_raise; apply _
    | |- sat _ no_scanner => apply sat_raise; apply _
    | |- sat _ (lift_res _) => apply sat_lift_res; apply _
    | |- sat _ time_time => apply sat_time_time; apply _
    | |- sat _ get_scanner => apply sat_get_scanner; apply _
    | |- sat _ get_results => apply sat_get_results; apply _
    | |- sat _ (log _ _) => apply perf_log
    | |- sat _ (emit EvCleanup) => apply perf_emit_cleanup
    | |- sat _ (poll_until _ _ _) =>
        apply sat_poll_until; [apply _ | apply performs_now | lia | | apply perf_sleep; lia ]
    | |- sat _ (_ ≫= _) => apply sat_bind; [apply _ | | intros ?]
    | |- sat _ (try_except_class _ _ _) => apply sat_try_except_class; [apply _ | | ]
    | |- sat _ (try_except _ _) => apply sat_try_except; [apply _ | | intros ?]
    | |- sat _ (external_unit _ _ _) => apply perf_external_unit; first [assumption|reflexivity]
    | |- sat _ (external_res _ _ _) => apply perf_external_res; first [assumption|reflexivity]
    | |- sat _ (external _ _ _) => apply perf_external; first [assumption|reflexivity]
    | |- sat _ (sleep _) => apply perf_sleep; lia
    | |- sat _ (update_results _) => apply perf_update_results
    | |- sat _ (set_scanner _) => apply perf_set_scanner
    | |- sat _ (match ?x with _ => _ end) => destruct x
    | |- sat _ (if ?x then _ else _) => destruct x
    | |- sat _ (let '(_, _) := ?x in _) => destruct x
    end.

Section PerformsScanner.
Context (env : Env) (ok : Op → bool).

Lemma perf_self_get {A} (f : ZAPScannerObj → A) : sat (performs ok) (self_get f).
Proof. unfold self_get, no_scanner. perf_go. Qed.

Lemma perf_self_set f : sat (performs ok) (self_set f).
Proof. unfold self_set, no_scanner. perf_go. Qed.

Lemma perf_on_scanner {A} (m : M A) : sat (performs ok) m → sat (performs ok) (on_scanner m).
Proof. intros. unfold on_scanner, no_scanner. perf_go. all: try done. Qed.

Lemma perf_requests_get op : ok op = true → sat (performs ok) (requests_get env op).
Proof. intros H. unfold requests_get. perf_go. Qed.

Lemma perf_api_call endpoint :
  ok (HttpApi endpoint) = true → sat (performs ok) (_api_call env endpoint).
Proof.
  intros H. unfold _api_call. perf_go.
  all: try first [apply perf_self_get | by apply perf_requests_get].
Qed.

Lemma perf_poll_status endpoint :
  ok (HttpApi endpoint) = true → sat (performs ok) (poll_status env endpoint).
Proof. intros. unfold poll_status. perf_go. all: try by apply perf_api_call. Qed.

Lemma perf_wait_for_zap timeout :
  ok HttpProbe = true → sat (performs ok) (_wait_for_zap env timeout).
Proof.
  intros. unfold _wait_for_zap, probe_version. perf_go.
  all: try by apply perf_requests_get.
Qed.

Lemma perf_start_container scan_id :
  ok HttpProbe = true →
  ok (ContainersGet ("amtd-zap-" ++ scan_id)) = true →
  ok (ContainerRemove true) = true →
  ok (ContainersRun ("amtd-zap-" ++ scan_id)) = true →
  sat (performs ok) (start_container env scan_id).
Proof.
  intros. unfold start_container. perf_go.
  all: try first [apply perf_self_set | by apply perf_wait_for_zap].
Qed.

Lemma perf_stop_container :
  ok ContainerStop = true → ok (ContainerRemove false) = true →
  ok (ContainerRemove true) = true →
  sat (performs ok) (stop_container env).
Proof.
  intros. unfold stop_container. perf_go.
  all: try first [apply perf_self_get | apply perf_self_set].
Qed.

Lemma perf_get_container_logs :
  ok ContainerLogs = true → sat (performs ok) (get_container_logs env).
Proof. intros. unfold get_container_logs. perf_go. all: try apply perf_self_get. Qed.

End PerformsScanner.

(** The operations of each part of a scan: the initialisation sends
    readiness probes only, a phase the requests of its rank only, the
    clean-up the shutdown request only. *)
Section PerformsExecutor.
Context (env : Env) (scan_id : string) (config : Config).

Lemma perf_initialize_scanner :
  sat (performs (rank_op 0)) (_initialize_scanner env scan_id).
Proof.
  unfold _initialize_scanner, __init__. perf_go.
  all: try by apply perf_on_scanner, perf_start_container.
Qed.

Lemma perf_spider_phase url :
  sat (performs (rank_op 1))
    (if default true (cfg_spider_enabled config)
     then _run_spider_scan env config url else mret tt).
Proof.
  unfold _run_spider_scan, spider_scan, wait_for_spider. perf_go.
  all: try first [ apply perf_on_scanner; perf_go; by apply perf_api_call
                 | apply perf_on_scanner; perf_go; by apply perf_poll_status ].
Qed.

Lemma perf_ajax_phase url :
  sat (performs (rank_op 2))
    (if default false (cfg_ajax_enabled config)
     then _run_ajax_spider_scan env config url else mret tt).
Proof.
  unfold _run_ajax_spider_scan, ajax_spider_scan. perf_go.
  all: try (apply perf_on_scanner; perf_go; by apply perf_api_call).
Qed.

Lemma perf_passive_phase timeout :
  sat (performs (rank_op 3)) (_wait_for_passive_scan env timeout).
Proof.
  unfold _wait_for_passive_scan, poll_passive, get_scan_progress. perf_go.
  all: try (apply perf_on_scanner; perf_go; by apply perf_api_call).
Qed.

Lemma perf_active_phase url :
  sat (performs (rank_op 4))
    (if default true (cfg_active_enabled config)
     then _run_active_scan env config url else mret tt).
Proof.
  unfold _run_active_scan, active_scan, wait_for_active_scan. perf_go.
  all: try first [ apply perf_on_scanner; perf_go; by apply perf_api_call
                 | apply perf_on_scanner; perf_go; by apply perf_poll_status ].
Qed.

Lemma perf_collect url :
  sat (performs (rank_op 5)) (on_scanner (get_alerts env url)).
Proof. unfold get_alerts. apply perf_on_scanner. perf_go. by apply perf_api_call. Qed.

Lemma perf_execute_scan_except r e : sat (performs (rank_op r)) (execute_scan_except e).
Proof. unfold execute_scan_except. perf_go. Qed.

Lemma perf_cleanup : sat (performs (rank_op 6)) (_cleanup env).
Proof.
  unfold _cleanup, save_logs, shutdown. perf_go.
  all: try first [ by apply perf_on_scanner, perf_get_container_logs
                 | by apply perf_on_scanner, perf_stop_container
                 | apply perf_on_scanner; perf_go; by apply perf_api_call ].
Qed.

End PerformsExecutor.

Lemma descending_app (l2 l1 : list nat) (m : nat) :
  descending l2 = true → descending l1 = true →
  (∀ x, x ∈ l2 → (m ≤ x)%nat) → (∀ y, y ∈ l1 → (y ≤ m)%nat) →
  descending (l2 ++ l1) = true.
Proof.
  intros H2 H1 Hlo Hhi. induction l2 as [|x l2 IH]; [done|].
  cbn [descending app] in *. apply andb_prop in H2 as [Hx H2].
  apply andb_true_intro. split.
  - rewrite forallb_app, Hx. cbn [andb]. apply forallb_forall. intros y Hy.
    apply Nat.leb_le. apply list_elem_of_In, Hhi in Hy.
    specialize (Hlo x (list_elem_of_here _ _)). lia.
  - apply IH; [done|]. intros y Hy. by apply Hlo, list_elem_of_further.
Qed.

Lemma descending_split (l2 l1 : list nat) (x : nat) :
  descending (l2 ++ x :: l1) = true →
  (∀ y, y ∈ l1 → (y ≤ x)%nat) ∧ (∀ z, z ∈ l2 → (x ≤ z)%nat).
Proof.
  induction l2 as [|z l2 IH]; cbn [app descending].
  - intros [Hx _]%andb_prop. split; [|by intros z Hz%elem_of_nil].
    intros y Hy. rewrite forallb_forall in Hx.
    by apply Nat.leb_le, Hx, list_elem_of_In.
  - intros [Hz Hd]%andb_prop. destruct (IH Hd) as [H1 H2]. split; [done|].
    intros z' [->|Hz']%elem_of_cons; [|by apply H2].
    rewrite forallb_forall in Hz. apply Nat.leb_le, Hz, list_elem_of_In.
    apply elem_of_app. right. apply list_elem_of_here.
Qed.

Lemma descending_const (r : nat) (l : list nat) :
  (∀ x, x ∈ l → x = r) → descending l = true.
Proof.
  induction l as [|x l IH]; [done|]. intros H. cbn [descending].
  apply andb_true_intro. split.
  - apply forallb_forall. intros y Hy. apply Nat.leb_le.
    rewrite (H x (list_elem_of_here _ _)).
    by rewrite (H y (list_elem_of_further _ _ _ (proj2 (list_elem_of_In _ _) Hy))).
  - apply IH. intros y Hy. by apply H, list_elem_of_further.
Qed.

Lemma request_ranks_app evs2 evs1 :
  request_ranks (evs2 ++ evs1) = (request_ranks evs2 ++ request_ranks evs1)%list.
Proof. apply omap_app. Qed.

Lemma between_forall lo hi l :
  forallb (λ r, (lo <=? r) && (r <=? hi))%nat l = true
  ↔ ∀ x, x ∈ l → (lo ≤ x ≤ hi)%nat.
Proof.
  rewrite forallb_forall. split.
  - intros H x Hx%list_elem_of_In. apply H in Hx. apply andb_prop in Hx as [H1 H2].
    apply Nat.leb_le in H1, H2. lia.
  - intros H x Hx%list_elem_of_In. apply H in Hx.
    apply andb_true_intro. split; apply Nat.leb_le; lia.
Qed.

Lemma in_phase_order_refl lo hi s : in_phase_order lo hi s s.
Proof. by exists []. Qed.

Lemma in_phase_order_weaken lo hi lo' hi' s s' :
  (lo' ≤ lo)%nat → (hi ≤ hi')%nat →
  in_phase_order lo hi s s' → in_phase_order lo' hi' s s'.
Proof.
  intros Hlo Hhi (evs & Ht & Hd & Hb). exists evs. split_and!; try done.
  apply between_forall. intros x Hx. apply (proj1 (between_forall _ _ _) Hb) in Hx. lia.
Qed.

Lemma in_phase_order_trans lo mid hi s1 s2 s3 :
  (lo ≤ mid)%nat → (mid ≤ hi)%nat →
  in_phase_order lo mid s1 s2 → in_phase_order mid hi s2 s3 →
  in_phase_order lo hi s1 s3.
Proof.
  intros Hlo Hhi (e1 & Ht1 & Hd1 & Hb1) (e2 & Ht2 & Hd2 & Hb2).
  rewrite between_forall in Hb1, Hb2.
  exists (e2 ++ e1)%list. split_and!.
  - by rewrite Ht2, Ht1, app_assoc.
  - rewrite request_ranks_app. apply (descending_app _ _ mid); try done.
    + intros x Hx. apply Hb2 in Hx. lia.
    + intros y Hy. apply Hb1 in Hy. lia.
  - rewrite request_ranks_app. apply between_forall. intros x [Hx|Hx]%elem_of_app.
    + apply Hb2 in Hx. lia.
    + apply Hb1 in Hx. lia.
Qed.

(** A piece of code that sends the requests of one rank only. *)
Lemma permitted_ranks r evs :
  forallb (permitted (rank_op r)) evs = true → ∀ x, x ∈ request_ranks evs → x = r.
Proof.
  intros Hall x Hx. unfold request_ranks in Hx.
  apply list_elem_of_omap in Hx as (ev & Hev & Hx).
  rewrite forallb_forall in Hall. apply list_elem_of_In, Hall in Hev.
  destruct ev as [op| | |]; try done.
  cbn in Hev. unfold rank_op in Hev. rewrite Hx in Hev. by apply Nat.eqb_eq in Hev.
Qed.

Lemma performs_rank_order r s s' :
  performs (rank_op r) s s' → in_phase_order r r s s'.
Proof.
  intros ((evs & Ht & Hall) & _). exists evs.
  pose proof (permitted_ranks r evs Hall) as Hr. split_and!.
  - done.
  - by apply (descending_const r).
  - apply between_forall. intros x Hx. apply Hr in Hx. lia.
Qed.

Lemma sat_seq {A B} (a b c : nat) (m : M A) (f : A → M B) :
  (a ≤ b)%nat → (b ≤ c)%nat →
  sat (in_phase_order a b) m → (∀ x, sat (in_phase_order b c) (f x)) →
  sat (in_phase_order a c) (m ≫= f).
Proof.
  intros Hab Hbc Hm Hf s. destruct (Hm s) as ([x|e] & s1 & Hs & HR).
  - destruct (Hf x s1) as (r & s2 & Hs2 & HR2).
    exists r, s2. rewrite (bind_ok _ _ _ _ _ Hs). split; [done|].
    by apply (in_phase_order_trans a b c s s1 s2).
  - exists (Raise e), s1. rewrite (bind_raise _ _ _ _ _ Hs). split; [done|].
    by apply (in_phase_order_weaken a b).
Qed.

Lemma sat_try_except_order {A} (a b : nat) (m : M A) (h : Exn → M A) :
  (a ≤ b)%nat →
  sat (in_phase_order a b) m → (∀ e, sat (in_phase_order b b) (h e)) →
  sat (in_phase_order a b) (try_except m h).
Proof.
  intros Hab Hm Hh s. unfold try_except.
  destruct (Hm s) as ([x|e] & s1 & -> & HR).
  - by exists (Ok x), s1.
  - destruct (Hh e s1) as (r & s2 & Hs2 & HR2).
    exists r, s2. split; [done|]. by apply (in_phase_order_trans a b b s s1 s2).
Qed.

Lemma sat_rank_order {A} (r lo hi : nat) (m : M A) :
  (lo ≤ r)%nat → (r ≤ hi)%nat →
  sat (performs (rank_op r)) m → sat (in_phase_order lo hi) m.
Proof.
  intros Hlo Hhi. apply sat_weaken. intros s s' H.
  by apply (in_phase_order_weaken r r), performs_rank_order.
Qed.

Lemma sat_phases_order env config :
  sat (in_phase_order 0 5) (execute_scan_phases env config).
Proof.
  unfold execute_scan_phases.
  assert (Hraise : ∀ e, sat (in_phase_order 0 5) (@raise ScanResults e)).
  { intros e s. exists (Raise e), s. split; [done|apply in_phase_order_refl]. }
  assert (Hquiet : ∀ {A} (m : M A) r, sat (performs (rank_op r)) m →
                                      sat (in_phase_order r r) m).
  { intros A m r. by apply sat_rank_order. }
  destruct (cfg_url config) as [[|ch url]|]; [done| |done].
  apply (sat_seq 0 1 5); [lia..| |intros start_time].
  { apply (sat_rank_order 1); [lia..|]. apply sat_time_time, _. }
  apply (sat_seq 1 1 5); [lia..| |intros _].
  { apply Hquiet, perf_update_results. }
  apply (sat_seq 1 1 5); [lia..| |intros _].
  { apply Hquiet, perf_spider_phase. }
  apply (sat_seq 1 2 5); [lia..| |intros _].
  { apply (sat_rank_order 2); [lia..|]. apply perf_ajax_phase. }
  apply (sat_seq 2 3 5); [lia..| |intros _].
  { apply (sat_rank_order 3); [lia..|]. apply perf_passive_phase. }
  unfold execute_scan_finish.
  apply (sat_seq 3 4 5); [lia..| |intros _].
  { apply (sat_rank_order 4); [lia..|]. apply perf_active_phase. }
  apply (sat_seq 4 5 5); [lia..| |intros alerts].
  { apply (sat_rank_order 5); [lia..|]. apply perf_collect. }
  apply Hquiet. perf_go.
Qed.

(** X24. The HTTP requests of a scan come in the order of its parts:
    first the readiness probes, then the requests of the spider, the AJAX
    spider, the passive scan queue, the active scan, the alert collection
    and the shutdown.  Once a request of a later part is sent, none of an
    earlier part follows; and every request other than a readiness probe
    goes to an endpoint of one of the six groups. *)
Theorem engine_calls_follow_the_phases (env : Env) (scan_id : string)
    (config : Config) (s : State) :
  ∃ o s' evs,
    execute_scan env scan_id config s = Some (o, s')
    ∧ trace s' = (evs ++ trace s)%list
    ∧ descending (request_ranks evs) = true
    ∧ (∀ endpoint, EvOp (HttpApi endpoint) ∈ evs →
         (1 ≤ phase_rank endpoint ≤ 6)%nat)
    ∧ (∀ endpoint endpoint' before after,
         evs = (after ++ EvOp (HttpApi endpoint') :: before)%list →
         (EvOp (HttpApi endpoint) ∈ before →
          (phase_rank endpoint ≤ phase_rank endpoint')%nat)
         ∧ EvOp HttpProbe ∉ after).
Proof.
  assert (Hall : sat (in_phase_order 0 6) (execute_scan env scan_id config)).
  { unfold execute_scan. intros s0.
    assert (Hprimary : sat (in_phase_order 0 5)
                         (try_except (execute_scan_try env scan_id config)
                            execute_scan_except)).
    { apply sat_try_except_order; [lia| |].
      - rewrite execute_scan_try_phases_eq.
        apply (sat_seq 0 0 5); [lia..| |intros _; apply sat_phases_order].
        apply (sat_rank_order 0); [lia..|]. apply perf_initialize_scanner.
      - intros e. apply (sat_rank_order 5); [lia..|]. apply perf_execute_scan_except. }
    destruct (Hprimary s0) as (o & s1 & Hs1 & H1).
    destruct (sat_rank_order 6 5 6 (_cleanup env) ltac:(lia) ltac:(lia)
                (perf_cleanup env) s1) as (rc & s' & Hc & H2).
    destruct (cleanup_steps env s1) as (s'' & after & Hc' & _).
    rewrite Hc in Hc'. injection Hc' as -> <-.
    exists o, s'. unfold try_finally. rewrite Hs1, Hc. split; [done|].
    apply (in_phase_order_trans 0 5 6 s0 s1 s'); [lia|lia|done|done]. }
  destruct (Hall s) as (o & s' & Hexec & evs & Hevs & Hd & Hb).
  rewrite between_forall in Hb.
  assert (Hrank : ∀ endpoint, EvOp (HttpApi endpoint) ∈ evs →
                              phase_rank endpoint ∈ request_ranks evs).
  { intros endpoint Hin. unfold request_ranks. apply list_elem_of_omap.
    by exists (EvOp (HttpApi endpoint)). }
  exists o, s', evs. split_and!; try done.
  - intros endpoint Hin.
    pose proof (Hb _ (Hrank endpoint Hin)) as Hle. split; [|lia].
    unfold phase_rank.
    repeat (destruct (String.prefix _ endpoint); [lia|]).
    repeat (destruct (String.eqb endpoint _); [lia|]). lia.
  - intros endpoint endpoint' before after Hsplit.
    assert (Hin' : EvOp (HttpApi endpoint') ∈ evs).
    { rewrite Hsplit. apply elem_of_app. right. apply list_elem_of_here. }
    assert (Hge : (1 ≤ phase_rank endpoint')%nat).
    { pose proof (Hb _ (Hrank endpoint' Hin')) as Hle. unfold phase_rank.
      repeat (destruct (String.prefix _ endpoint'); [lia|]).
      repeat (destruct (String.eqb endpoint' _); [lia|]). lia. }
    rewrite Hsplit, request_ranks_app in Hd.
    change (request_ranks (EvOp (HttpApi endpoint') :: before))
      with (phase_rank endpoint' :: request_ranks before) in Hd.
    destruct (descending_split _ _ _ Hd) as [Hbefore Hafter].
    split.
    + intros Hin. apply Hbefore. unfold request_ranks. apply list_elem_of_omap.
      by exists (EvOp (HttpApi endpoint)).
    + intros Hprobe.
      assert (H0 : (0%nat : nat) ∈ request_ranks after).
      { unfold request_ranks. apply list_elem_of_omap. by exists (EvOp HttpProbe). }
      apply Hafter in H0. lia.
Qed.

(** * The further properties on sample inputs *)

(** The CWE number 89 becomes [CWE-89], and stays so. *)
Lemma extract_cwe_normalises_witness :
  _extract_cwe sql_alert = Ok "CWE-89"
  ∧ String.prefix "CWE-" "CWE-89" = true
  ∧ _extract_cwe (<["cweid" := PStr "CWE-89"]> sql_alert) = Ok "CWE-89".
Proof.
  assert (H : _extract_cwe sql_alert = Ok "CWE-89") by (vm_compute; reflexivity).
  destruct (extract_cwe_normalises sql_alert "CWE-89" H) as (_ & _ & Hstable).
  split; [exact H|]. split; [reflexivity|exact Hstable].
Defined.

(** An alert named [SQL Injection] is an injection finding. *)
Lemma map_owasp_category_first_keyword_witness :
  _map_owasp_category sql_alert = Ok "A03:2021 - Injection".
Proof.
  destruct (map_owasp_category_first_keyword sql_alert "SQL Injection")
    as (category & Hc & _ & _ & _ & Hinj & _).
  - vm_compute. reflexivity.
  - rewrite Hc. f_equal. apply Hinj. vm_compute. reflexivity.
Defined.

(** Filtering the sample findings from [medium] and then from [high] is
    filtering from [high]. *)
Lemma filter_by_confidence_nests_witness :
  filter_by_confidence (filter_by_confidence sample_findings "medium") "high"
  = filter_by_confidence sample_findings "high".
Proof.
  destruct (filter_by_confidence_nests sample_findings "medium" "high" 1 2)
    as (_ & _ & H & _).
  - reflexivity.
  - reflexivity.
  - lia.
  - exact H.
Defined.

(** The sample alert has no confidence: no filter keeps its finding. *)
Lemma unrated_alert_is_filtered_out_witness :
  ∃ vuln,
    _parse_alert (ODict sql_alert) = Ok vuln
    ∧ vuln !! "confidence" = Some (PStr "false_positive")
    ∧ filter_by_confidence [vuln] "low" = [].
Proof.
  destruct (_parse_alert (ODict sql_alert)) as [vuln|e] eqn:Hparse.
  - destruct (unrated_alert_is_filtered_out sql_alert vuln "low" Hparse)
      as (Hc & Hf & _).
    + vm_compute. reflexivity.
    + apply list_elem_of_here.
    + exists vuln. split; [reflexivity|]. split; [exact Hc|exact Hf].
  - exfalso. vm_compute in Hparse. discriminate Hparse.
Defined.

Lemma idle_state_no_address : no_address idle_state.
Proof. eexists. split; reflexivity. Qed.

(** A scanner that was not started sends nothing. *)
Lemma api_call_needs_engine_address_witness :
  _api_call slow_env "spider/action/scan/" idle_state
  = Some (Raise not_started_error, idle_state)
  ∧ shutdown slow_env idle_state
    = Some (Ok tt, logged WARNING (ErrorDuringShutdown not_started_error) idle_state).
Proof.
  destruct (api_call_needs_engine_address slow_env "spider/action/scan/" idle_state
              idle_state_no_address) as (Hcall & _ & Hdown & _).
  split; [exact Hcall|exact Hdown].
Defined.

(** Stopping the started scanner stops and removes the container. *)
Lemma stop_container_always_clears_witness :
  ∃ s1,
    stop_container slow_env started_state = Some (Ok tt, s1)
    ∧ trace s1 = [EvOp (ContainerRemove false); EvOp ContainerStop]
    ∧ stop_container slow_env s1 = Some (Ok tt, s1).
Proof.
  destruct (stop_container_always_clears slow_env started_state
              (mkZAPScannerObj (Some "3f2a9c") (Some "http://amtd-zap-job:8080")) eq_refl)
    as (s1 & Hstop & Ht & _ & _ & _ & Hagain).
  exists s1. split; [exact Hstop|]. split; [exact Ht|exact Hagain].
Defined.

(** The engine answers 503: the HTML report is the error page, the JSON
    report raises. *)
Lemma html_report_ignores_status_witness :
  generate_html_report flaky_env started_state
  = Some (Ok (ApiText "Service Unavailable"),
          called flaky_env (HttpApi "core/other/htmlreport/") started_state)
  ∧ ∃ e, generate_json_report flaky_env started_state
         = Some (Raise e, called flaky_env (HttpApi "core/view/alerts/") started_state).
Proof.
  destruct (html_report_ignores_status flaky_env started_state started_state_ready)
    as (_ & _ & Hstatus).
  destruct (Hstatus 503 "Service Unavailable" (Raise (mkExn ValueError "Expecting value")))
    as (Hhtml & e & Hjson & _).
  - reflexivity.
  - lia.
  - split; [exact Hhtml|]. exists e. exact Hjson.
Defined.

(** Against an engine that never finishes, the spider wait of 1800
    seconds sends fewer than 361 polls. *)
Lemma wait_loops_send_few_requests_witness :
  ∃ r s' (n : nat),
    wait_for_spider slow_env (JS (PStr "0")) 1800 started_state = Some (r, s')
    ∧ tick s' = n ∧ (n < 361)%nat.
Proof.
  destruct (wait_loops_send_few_requests slow_env (JS (PStr "0")) 1800 started_state
              started_state_ready) as (_ & _ & (r & s' & n & Hwait & Htick & Hn) & _).
  exists r, s', n. split; [exact Hwait|]. split; [exact Htick|lia].
Defined.

(** The status reads 30, then 60, then 100: the third poll ends both
    waits with [True]. *)
Lemma status_waits_end_at_first_result_witness :
  (∃ sk, tick sk = 2%nat
     ∧ wait_for_spider progress_env (JS (PStr "0")) 1800 started_state
       = Some (Ok true, called progress_env (HttpApi "spider/view/status/") sk))
  ∧ (∃ sk, tick sk = 2%nat
       ∧ wait_for_active_scan progress_env (JS (PStr "0")) 1800 started_state
         = Some (Ok true, called progress_env (HttpApi "ascan/view/status/") sk)).
Proof.
  destruct (status_waits_end_at_first_result progress_env (JS (PStr "0")) 1800
              started_state 2 started_state_ready) as (Hspider & Hactive).
  - intros [|[|j]] Hj; [exists 30|exists 60|lia]; (split; [reflexivity|lia]).
  - destruct Hspider as (Hspider & _); [vm_compute; reflexivity|].
    destruct Hactive as (Hactive & _); [vm_compute; reflexivity|].
    destruct (Hspider 100) as (sk & Htk & _ & Hs); [reflexivity|lia|].
    destruct (Hactive 100) as (sk' & Htk' & _ & Ha); [reflexivity|lia|].
    split; [exists sk|exists sk']; split; assumption.
Defined.

(** Two probes get a 503, the third is answered: the readiness wait
    returns after the third probe. *)
Lemma readiness_wait_ends_at_first_answer_witness :
  probe_refused (env_http flaky_env 0) = true
  ∧ probe_refused (env_http flaky_env 1) = true
  ∧ ∃ sk, tick sk = 2%nat
      ∧ _wait_for_zap flaky_env 120 started_state
        = Some (Ok tt, called flaky_env HttpProbe sk).
Proof.
  destruct (readiness_wait_ends_at_first_answer flaky_env started_state 2)
    as (sk & Htk & _ & _ & Hready & _).
  - intros [|[|j]] Hj; [reflexivity..|lia].
  - vm_compute. reflexivity.
  - discriminate.
  - split; [reflexivity|]. split; [reflexivity|].
    exists sk. split; [exact Htk|]. apply Hready. reflexivity.
Defined.

(** The clean-up of the started scanner saves the logs, shuts the engine
    down and stops the container. *)
Lemma cleanup_tries_every_step_witness :
  ∃ s' save down stop,
    _cleanup slow_env started_state = Some (Ok tt, s')
    ∧ trace s' = (stop ++ down ++ save ++ [EvCleanup])%list
    ∧ EvOp WriteLogFile ∈ save
    ∧ EvOp (HttpApi "core/action/shutdown/") ∈ down
    ∧ EvOp ContainerStop ∈ stop.
Proof.
  destruct (cleanup_tries_every_step slow_env started_state
              (mkZAPScannerObj (Some "3f2a9c") (Some "http://amtd-zap-job:8080")) eq_refl)
    as (s' & save & down & stop & Hc & Ht & _ & _ & Hw & Hdown & _ & Hstop & _).
  exists s', save, down, stop.
  split; [exact Hc|]. split; [exact Ht|]. split; [exact Hw|].
  split; [exact (Hdown started_state_ready)|].
  apply Hstop. discriminate.
Defined.

(** Docker cannot be reached: the scan fails with Docker's error and
    touches nothing. *)
Lemma docker_failure_starts_nothing_witness :
  ∃ s',
    execute_scan no_docker_env "job" sample_config (initial_state 0)
    = Some (Raise (mkExn DockerException "Error while fetching server API version"), s')
    ∧ trace s'
      = [EvCleanup;
         EvLog ERROR (ScanExecutionFailed
                        (mkExn DockerException "Error while fetching server API version"));
         EvOp DockerFromEnv]
    ∧ status (get_scan_results s') = Some "failed".
Proof.
  destruct (docker_failure_starts_nothing no_docker_env "job" sample_config
              (initial_state 0)
              (mkExn DockerException "Error while fetching server API version")
              eq_refl eq_refl) as (s' & Hexec & Ht & _ & Hst & _).
  exists s'. split; [exact Hexec|]. split; [exact Ht|exact Hst].
Defined.

(** A configuration without a target: the container is run, then the
    scan fails with the [ValueError], and the container is stopped. *)
Lemma missing_target_is_found_after_start_witness :
  ∃ s' before after,
    execute_scan slow_env "job" no_target_config (initial_state 0)
    = Some (Raise missing_url_error, s')
    ∧ trace s'
      = (after ++ EvCleanup :: EvLog ERROR (ScanExecutionFailed missing_url_error)
           :: before)%list
    ∧ EvOp (ContainersRun "amtd-zap-job") ∈ before
    ∧ EvOp ContainerStop ∈ after.
Proof.
  destruct (missing_target_is_found_after_start slow_env "job" no_target_config
              (initial_state 0)) as (e & s' & evs & Hexec & Ht & _ & _ & _ & Hinit).
  - left. reflexivity.
  - destruct (sat_initialize_scanner slow_env "job" no_api false true (initial_state 0))
      as (ri & si & Hi & _).
    assert (Hok : ri = Ok tt).
    { vm_compute in Hi. by injection Hi as <- _. }
    subst ri.
    destruct (Hinit si Hi) as (-> & before & after & -> & _ & Hrun & _ & Hstop).
    exists s', before, after.
    split; [exact Hexec|]. split; [by rewrite Ht, app_nil_r|].
    split; [exact Hrun|exact Hstop].
Defined.

(** The active scan never reports 100: the phase returns after the
    7200 seconds, with the id recorded. *)
Lemma active_scan_timeout_is_soft_witness :
  ∃ active_id s',
    _run_active_scan slow_env sample_config "http://target.example" started_state
    = Some (Ok tt, s')
    ∧ active_scan_id (scan_results s') = Some active_id
    ∧ status (scan_results s') = None.
Proof.
  destruct (active_scan_timeout_is_soft slow_env sample_config "http://target.example"
              started_state started_state_ready)
    as (active_id & s1 & s' & _ & _ & _ & Hrun & _ & Hid & Hst & _).
  - reflexivity.
  - intros j _. exists 0. split; [reflexivity|lia].
  - exists active_id, s'. split; [exact Hrun|]. split; [exact Hid|exact Hst].
Defined.
